(** * life-notes-api: the notes and todos route handlers

    A shallow embedding of [src/routes/todos.routes.ts] and
    [src/routes/notes.routes.ts], followed by the properties of the
    specification that concern them.

    Request bodies and query strings are untyped at run time ([req.body] is
    [any]), so every field a handler copies out of a request is a JavaScript
    value, not a value of the TypeScript type written in the interface. *)

From Stdlib Require Import ZArith String Ascii List Bool Lia Sorting Permutation.
From Stdlib Require Import DecimalString DecimalNat.
From stdpp Require Import base option list strings.

Set Warnings "-register-all".
Local Open Scope string_scope.
Local Open Scope Z_scope.

(** ** JavaScript values *)

Module JS.

(** The values [JSON.parse] and the query-string parser produce, plus
    [undefined], which is what destructuring yields for a key that is absent.
    Numbers are the integers (below 10^21 in magnitude, which print in plain
    decimal).  A string is held as the bytes of its UTF-8 encoding: two
    well-formed strings are equal, or one occurs in the other, exactly when
    their encodings are, and the empty string is the one with no byte. *)
Inductive JsValue : Type :=
| JUndefined
| JNull
| JBool (b : bool)
| JNum (n : Z)
| JStr (s : string)
| JArr (elems : list JsValue)
| JObj (props : list (string * JsValue)).

(** [ToBoolean]. *)
Definition truthy (v : JsValue) : bool :=
  match v with
  | JUndefined | JNull => false
  | JBool b => b
  | JNum n => negb (n =? 0)
  | JStr s => negb (String.eqb s "")
  | JArr _ | JObj _ => true
  end.

(** [a === b] for two values that do not come from the same object: primitives
    are compared by value, arrays and objects by reference, and two references
    of different origin (two requests, or a request and a literal) differ.
    [Array.prototype.includes] compares with SameValueZero, which agrees with
    [===] on these values. *)
Definition strict_eq (a b : JsValue) : bool :=
  match a, b with
  | JUndefined, JUndefined => true
  | JNull, JNull => true
  | JBool x, JBool y => Bool.eqb x y
  | JNum x, JNum y => x =? y
  | JStr x, JStr y => String.eqb x y
  | _, _ => false
  end.

Definition is_undefined (v : JsValue) : bool :=
  match v with JUndefined => true | _ => false end.

(** [const { k = d } = obj]: the default is taken when the value is
    [undefined], and only then. *)
Definition or_default (v d : JsValue) : JsValue :=
  if is_undefined v then d else v.

(** [a || b]. *)
Definition or_else (a b : JsValue) : JsValue :=
  if truthy a then a else b.

(** [arr.includes(v)] for an array of string literals. *)
Definition literals_include (arr : list string) (v : JsValue) : bool :=
  existsb (fun s => strict_eq (JStr s) v) arr.

(** JavaScript numbers as the handlers compute them: an integer or [NaN]. *)
Inductive num : Type := NaN | Fin (z : Z).

Definition num_sub (a b : num) : num :=
  match a, b with
  | Fin x, Fin y => Fin (x - y)
  | _, _ => NaN
  end.

(** [a <= b] and [a >= b] on numbers: false as soon as one side is [NaN]. *)
Definition num_le (a b : num) : bool :=
  match a, b with
  | Fin x, Fin y => x <=? y
  | _, _ => false
  end.

Definition num_ge (a b : num) : bool := num_le b a.

(** [hay.includes(needle)] on strings. *)
Fixpoint str_includes (hay needle : string) : bool :=
  String.prefix needle hay
  || match hay with
     | EmptyString => false
     | String _ hay' => str_includes hay' needle
     end.

Definition has_own (key : string) (props : list (string * JsValue)) : bool :=
  existsb (fun p => String.eqb (fst p) key) props.

(** [ToString(ToPrimitive(v))]; [None] is a thrown [TypeError].  An array
    joins its elements with a comma, [null] and [undefined] elements giving
    the empty string.  An object parsed from JSON has only data properties: if
    it has one named [toString] no conversion method is callable and the
    conversion throws, otherwise [Object.prototype.toString] answers. *)
Fixpoint ToString (v : JsValue) : option string :=
  match v with
  | JUndefined => Some "undefined"
  | JNull => Some "null"
  | JBool b => Some (if b then "true" else "false")
  | JNum n => Some (NilZero.string_of_int (Z.to_int n))
  | JStr s => Some s
  | JArr elems =>
      let elem (x : JsValue) : option string :=
        match x with
        | JUndefined | JNull => Some ""
        | _ => ToString x
        end in
      (fix join (l : list JsValue) : option string :=
         match l with
         | [] => Some ""
         | [x] => elem x
         | x :: rest =>
             match elem x, join rest with
             | Some s, Some r => Some (s +:+ "," +:+ r)
             | _, _ => None
             end
         end) elems
  | JObj props =>
      if has_own "toString" props then None else Some "[object Object]"
  end.

(** [v.toLowerCase()], given the engine's [String.prototype.toLowerCase] on
    strings, which follows the Unicode character database.  Only strings have
    the method: [None] is the [TypeError] of calling it on another value. *)
Definition toLowerCase (lowercase : string -> string) (v : JsValue) : option string :=
  match v with
  | JStr s => Some (lowercase s)
  | _ => None
  end.

(** [t.tags.includes(x)]: an array searches its elements, a string searches
    for the text of [x], and no other value has a callable [includes]. *)
Definition includes (v x : JsValue) : option bool :=
  match v with
  | JArr elems => Some (existsb (fun e => strict_eq e x) elems)
  | JStr s => needle ← ToString x; Some (str_includes s needle)
  | _ => None
  end.

(** The largest time value a [Date] holds. *)
Definition max_time : Z := 8640000000000000.

Definition TimeClip (n : Z) : num :=
  if Z.abs n <=? max_time then Fin n else NaN.

(** The time value of [new Date(v)] ([NaN] for an invalid date), given the
    engine's [Date.parse]; [None] is a thrown [TypeError]. *)
Definition Date_time (parse : string -> num) (v : JsValue) : option num :=
  match v with
  | JUndefined => Some NaN
  | JNull => Some (Fin 0)
  | JBool b => Some (Fin (if b then 1 else 0))
  | JNum n => Some (TimeClip n)
  | JStr s => Some (parse s)
  | JArr _ | JObj _ => s ← ToString v; Some (parse s)
  end.

End JS.

Export JS.

(** ** Text of the basic Latin block *)

Module Latin.

(** The capital letters of the basic Latin alphabet, each paired with its
    small letter. *)
Definition letters : list (ascii * ascii) :=
  combine (list_ascii_of_string "ABCDEFGHIJKLMNOPQRSTUVWXYZ")
          (list_ascii_of_string "abcdefghijklmnopqrstuvwxyz").

(** The small letter of a capital letter; any other byte is left alone. *)
Definition small (c : ascii) : ascii :=
  match List.find (fun p => Ascii.eqb (fst p) c) letters with
  | Some p => snd p
  | None => c
  end.

(** What [toLowerCase] returns on a string of the basic Latin block (U+0000 to
    U+007F), where the only cased characters are the 26 letters and no rule
    depends on the context. *)
Fixpoint lowercase (s : string) : string :=
  match s with
  | EmptyString => EmptyString
  | String c s' => String (small c) (lowercase s')
  end.

(** The string lies in the basic Latin block: each byte is below 128, so each
    is a character of its own. *)
Fixpoint plain (s : string) : Prop :=
  match s with
  | EmptyString => True
  | String c s' => (nat_of_ascii c < 128)%nat /\ plain s'
  end.

End Latin.

(** ** The process: clock, identifiers, and an in-memory array *)

Module Runtime.

(** What a handler can observe of the process.  [clock n] is the time value
    (milliseconds since the epoch) of the [n]-th [new Date()] the process
    evaluates and [uuids n] the result of its [n]-th [uuidv4()]; [ticks] and
    [draws] count the calls made so far.  [rows] is the module's array
    ([const todos: Todo[] = []], [const notes: Note[] = []]).  A timestamp
    field holds the time value whose [toISOString()] the source stores; the
    rendering is one-to-one, so nothing is lost. *)
Record World (A : Type) : Type := mkWorld {
  clock : nat -> Z;
  uuids : nat -> string;
  ticks : nat;
  draws : nat;
  rows : list A
}.

Arguments mkWorld {A}.
Arguments clock {A}.
Arguments uuids {A}.
Arguments ticks {A}.
Arguments draws {A}.
Arguments rows {A}.

(** A handler body: it reads and changes the world and produces a value. *)
Definition M (A X : Type) : Type := World A -> X * World A.

Definition ret {A X} (x : X) : M A X := fun w => (x, w).

Definition bind {A X Y} (m : M A X) (k : X -> M A Y) : M A Y :=
  fun w => let (x, w') := m w in k x w'.

(** [new Date().toISOString()] *)
Definition now {A} : M A Z :=
  fun w => (clock w (ticks w),
            mkWorld (clock w) (uuids w) (S (ticks w)) (draws w) (rows w)).

(** [uuidv4()] *)
Definition uuidv4 {A} : M A string :=
  fun w => (uuids w (draws w),
            mkWorld (clock w) (uuids w) (ticks w) (S (draws w)) (rows w)).

Definition load {A} : M A (list A) := fun w => (rows w, w).

Definition save {A} (l : list A) : M A unit :=
  fun w => (tt, mkWorld (clock w) (uuids w) (ticks w) (draws w) l).

(** The process starts with an empty array and no call made. *)
Definition boot {A} (c : nat -> Z) (u : nat -> string) : World A :=
  mkWorld c u 0%nat 0%nat [].

(** The JSON envelope of a reply: [{ success: true, data }] under a 2xx
    status, or [{ success: false, error: { message } }]. *)
Inductive Response (A : Type) : Type :=
| Success (status : Z) (data : A)
| Failure (status : Z) (message : string).

Arguments Success {A}.
Arguments Failure {A}.

(** [arr.findIndex(p)], with the element found there; [None] is [-1]. *)
Fixpoint findIndex {A} (p : A -> bool) (l : list A) : option (nat * A) :=
  match l with
  | [] => None
  | x :: l' =>
      if p x then Some (0%nat, x)
      else match findIndex p l' with
           | Some (i, y) => Some (S i, y)
           | None => None
           end
  end.

End Runtime.

Export Runtime.

Declare Scope handler_scope.
Delimit Scope handler_scope with handler.
Notation "x <- m ;; k" := (bind m (fun x => k))
  (at level 100, m at next level, right associativity) : handler_scope.
Notation "m ;; k" := (bind m (fun _ => k))
  (at level 100, right associativity) : handler_scope.

(** ** notes.routes.ts *)

Module Notes.

Record Note : Type := mkNote {
  id : string;
  title : JsValue;
  content : JsValue;
  tags : JsValue;
  isPinned : JsValue;
  createdAt : Z;
  updatedAt : Z
}.

(** The fields the handlers destructure from [req.body]; a field the body
    lacks is [JUndefined]. *)
Module Body.
Record t : Type := mk {
  title : JsValue;
  content : JsValue;
  tags : JsValue;
  isPinned : JsValue
}.
End Body.

Local Open Scope handler_scope.

(** [router.post('/')] *)
Definition router_post (body : Body.t) : M Note (Response Note) :=
  let title := Body.title body in
  let content := or_default (Body.content body) (JStr "") in
  let tags := or_default (Body.tags body) (JArr []) in
  let isPinned := or_default (Body.isPinned body) (JBool false) in
  if negb (truthy title) then ret (Failure 400 "Title is required")
  else
    i <- uuidv4 ;;
    created <- now ;;
    updated <- now ;;
    let note := mkNote i title content tags isPinned created updated in
    notes <- load ;;
    save (notes ++ [note]) ;;
    ret (Success 201 note).

(** [router.put('/:id')] *)
Definition router_put (rid : string) (body : Body.t) : M Note (Response Note) :=
  notes <- load ;;
  match findIndex (fun n => String.eqb (id n) rid) notes with
  | None => ret (Failure 404 "Note not found")
  | Some (index, old) =>
      updated <- now ;;
      let note :=
        mkNote (id old)
          (if negb (is_undefined (Body.title body)) then Body.title body else title old)
          (if negb (is_undefined (Body.content body)) then Body.content body else content old)
          (if negb (is_undefined (Body.tags body)) then Body.tags body else tags old)
          (if negb (is_undefined (Body.isPinned body)) then Body.isPinned body else isPinned old)
          (createdAt old)
          updated in
      save (<[index := note]> notes) ;;
      ret (Success 200 note)
  end.

(** [router.delete('/:id')] *)
Definition router_delete (rid : string) : M Note (Response Note) :=
  notes <- load ;;
  match findIndex (fun n => String.eqb (id n) rid) notes with
  | None => ret (Failure 404 "Note not found")
  | Some (index, deleted) =>
      save (delete index notes) ;;
      ret (Success 200 deleted)
  end.

(** [router.get('/:id')] on the array [notes]: [notes.find] returns the first
    note with that id. *)
Definition router_get_by_id (rid : string) (notes : list Note) : Response Note :=
  match List.find (fun n => String.eqb (id n) rid) notes with
  | Some note => Success 200 note
  | None => Failure 404 "Note not found"
  end.

(** The requests that change the array. *)
Inductive Request : Type :=
| POST (body : Body.t)
| PUT (rid : string) (body : Body.t)
| DELETE (rid : string).

Definition handle (r : Request) : M Note (Response Note) :=
  match r with
  | POST body => router_post body
  | PUT rid body => router_put rid body
  | DELETE rid => router_delete rid
  end.

(** The world after serving the requests in order. *)
Definition serve (rs : list Request) (w : World Note) : World Note :=
  fold_left (fun w r => snd (handle r w)) rs w.

End Notes.

(** ** todos.routes.ts *)

Module Todos.

(** [interface Todo].  The fields copied from a request hold whatever value
    the request carried.  The four type-specific members are optional
    properties: [None] when the object has no such key, [Some v] when it has
    one (with [v = JUndefined] for a key whose value is [undefined]). *)
Record Todo : Type := mkTodo {
  id : string;
  type : JsValue;
  title : JsValue;
  description : JsValue;
  priority : JsValue;
  isCompleted : JsValue;
  dueDate : JsValue;
  tags : JsValue;
  habitFrequency : option JsValue;
  reminderTime : option JsValue;
  url : option JsValue;
  quantity : option JsValue;
  createdAt : Z;
  updatedAt : Z;
  completedAt : option Z
}.

(** The fields the handlers destructure from [req.body]; a field the body
    lacks is [JUndefined]. *)
Module Body.
Record t : Type := mk {
  type : JsValue;
  title : JsValue;
  description : JsValue;
  priority : JsValue;
  isCompleted : JsValue;
  dueDate : JsValue;
  tags : JsValue;
  habitFrequency : JsValue;
  reminderTime : JsValue;
  url : JsValue;
  quantity : JsValue
}.
End Body.

(** The parameters [router.get('/')] destructures from [req.query]. *)
Module Query.
Record t : Type := mk {
  type : JsValue;
  priority : JsValue;
  completed : JsValue;
  tag : JsValue;
  search : JsValue;
  dueBefore : JsValue;
  dueAfter : JsValue
}.
End Query.

Definition validTypes : list string :=
  ["task"; "goal"; "habit"; "reminder"; "shopping"; "idea"; "bookmark"].

Definition invalid_type_message : string :=
  "Invalid type. Must be one of: " +:+ String.concat ", " validTypes.

(** [...(cond && { key: v })]: the key is added when the condition holds. *)
Definition spread_if (cond : bool) (v : JsValue) : option JsValue :=
  if cond then Some v else None.

(** [...(v !== undefined && { key: v })] over [...old]. *)
Definition merge (v old : JsValue) : JsValue :=
  if negb (is_undefined v) then v else old.

Definition merge_opt (v : JsValue) (old : option JsValue) : option JsValue :=
  if negb (is_undefined v) then Some v else old.

Local Open Scope handler_scope.

(** [router.post('/')] *)
Definition router_post (body : Body.t) : M Todo (Response Todo) :=
  let type := or_default (Body.type body) (JStr "task") in
  let title := Body.title body in
  let description := or_default (Body.description body) (JStr "") in
  let priority := or_default (Body.priority body) (JStr "medium") in
  let dueDate := or_default (Body.dueDate body) JNull in
  let tags := or_default (Body.tags body) (JArr []) in
  if negb (truthy title) then ret (Failure 400 "Title is required")
  else if negb (literals_include validTypes type) then
    ret (Failure 400 invalid_type_message)
  else
    i <- uuidv4 ;;
    created <- now ;;
    updated <- now ;;
    let todo :=
      {| id := i;
         type := type;
         title := title;
         description := description;
         priority := priority;
         isCompleted := JBool false;
         dueDate := dueDate;
         tags := tags;
         habitFrequency :=
           spread_if (strict_eq type (JStr "habit"))
                     (or_else (Body.habitFrequency body) (JStr "daily"));
         reminderTime :=
           spread_if (strict_eq type (JStr "reminder")) (Body.reminderTime body);
         url := spread_if (strict_eq type (JStr "bookmark")) (Body.url body);
         quantity :=
           spread_if (strict_eq type (JStr "shopping"))
                     (or_else (Body.quantity body) (JNum 1));
         createdAt := created;
         updatedAt := updated;
         completedAt := None |} in
    todos <- load ;;
    save (todos ++ [todo]) ;;
    ret (Success 201 todo).

(** [router.put('/:id')] *)
Definition router_put (rid : string) (body : Body.t) : M Todo (Response Todo) :=
  todos <- load ;;
  match findIndex (fun t => String.eqb (id t) rid) todos with
  | None => ret (Failure 404 "Todo not found")
  | Some (index, old) =>
      let isCompleted' := Body.isCompleted body in
      completedAt' <-
        (if negb (is_undefined isCompleted') then
           if truthy isCompleted' && negb (truthy (isCompleted old)) then
             stamp <- now ;; ret (Some stamp)
           else if negb (truthy isCompleted') then ret None
           else ret (completedAt old)
         else ret (completedAt old)) ;;
      updated <- now ;;
      let todo :=
        {| id := id old;
           type := type old;
           title := merge (Body.title body) (title old);
           description := merge (Body.description body) (description old);
           priority := merge (Body.priority body) (priority old);
           isCompleted := merge isCompleted' (isCompleted old);
           dueDate := merge (Body.dueDate body) (dueDate old);
           tags := merge (Body.tags body) (tags old);
           habitFrequency := merge_opt (Body.habitFrequency body) (habitFrequency old);
           reminderTime := merge_opt (Body.reminderTime body) (reminderTime old);
           url := merge_opt (Body.url body) (url old);
           quantity := merge_opt (Body.quantity body) (quantity old);
           createdAt := createdAt old;
           updatedAt := updated;
           completedAt := completedAt' |} in
      save (<[index := todo]> todos) ;;
      ret (Success 200 todo)
  end.

(** [router.patch('/:id/complete')] *)
Definition router_patch_complete (rid : string) : M Todo (Response Todo) :=
  todos <- load ;;
  match findIndex (fun t => String.eqb (id t) rid) todos with
  | None => ret (Failure 404 "Todo not found")
  | Some (index, old) =>
      let newCompleted := negb (truthy (isCompleted old)) in
      completedAt' <-
        (if newCompleted then stamp <- now ;; ret (Some stamp) else ret None) ;;
      updated <- now ;;
      let todo :=
        {| id := id old;
           type := type old;
           title := title old;
           description := description old;
           priority := priority old;
           isCompleted := JBool newCompleted;
           dueDate := dueDate old;
           tags := tags old;
           habitFrequency := habitFrequency old;
           reminderTime := reminderTime old;
           url := url old;
           quantity := quantity old;
           createdAt := createdAt old;
           updatedAt := updated;
           completedAt := completedAt' |} in
      save (<[index := todo]> todos) ;;
      ret (Success 200 todo)
  end.

(** [router.delete('/:id')] *)
Definition router_delete (rid : string) : M Todo (Response Todo) :=
  todos <- load ;;
  match findIndex (fun t => String.eqb (id t) rid) todos with
  | None => ret (Failure 404 "Todo not found")
  | Some (index, deleted) =>
      save (delete index todos) ;;
      ret (Success 200 deleted)
  end.

(** An entry of the catalog [router.get('/types')] returns.  The icon is kept
    as the bytes of its UTF-8 encoding. *)
Module TypeInfo.
Record t : Type := mk {
  type : string;
  label : string;
  icon : string;
  description : string
}.
End TypeInfo.

(** [router.get('/types')] *)
Definition router_get_types : list TypeInfo.t :=
  [TypeInfo.mk "task" "Task" "✅" "General tasks to complete";
   TypeInfo.mk "goal" "Goal" "🎯" "Long-term goals to achieve";
   TypeInfo.mk "habit" "Habit" "🔄" "Daily/weekly habits to track";
   TypeInfo.mk "reminder" "Reminder" "⏰" "Time-based reminders";
   TypeInfo.mk "shopping" "Shopping" "🛒" "Shopping list items";
   TypeInfo.mk "idea" "Idea" "💡" "Ideas to explore later";
   TypeInfo.mk "bookmark" "Bookmark" "🔖" "Links and resources"].

(** [router.get('/:id')] on the array [todos]: [todos.find] returns the first
    todo with that id. *)
Definition router_get_by_id (rid : string) (todos : list Todo) : Response Todo :=
  match List.find (fun t => String.eqb (id t) rid) todos with
  | Some todo => Success 200 todo
  | None => Failure 404 "Todo not found"
  end.

(** The requests that change the array. *)
Inductive Request : Type :=
| POST (body : Body.t)
| PUT (rid : string) (body : Body.t)
| PATCH_complete (rid : string)
| DELETE (rid : string).

Definition handle (r : Request) : M Todo (Response Todo) :=
  match r with
  | POST body => router_post body
  | PUT rid body => router_put rid body
  | PATCH_complete rid => router_patch_complete rid
  | DELETE rid => router_delete rid
  end.

(** The world after serving the requests in order. *)
Definition serve (rs : list Request) (w : World Todo) : World Todo :=
  fold_left (fun w r => snd (handle r w)) rs w.

(** *** [router.get('/')] *)

(** A property read [priorityOrder[k]] finds one of the four own members, a
    member inherited from [Object.prototype], or nothing. *)
Inductive Member : Type :=
| Own (rank : Z)
| Inherited (key : string)
| Missing.

Definition object_prototype_keys : list string :=
  ["constructor"; "hasOwnProperty"; "isPrototypeOf"; "propertyIsEnumerable";
   "toLocaleString"; "toString"; "valueOf"; "__proto__";
   "__defineGetter__"; "__defineSetter__"; "__lookupGetter__"; "__lookupSetter__"].

(** [const priorityOrder = { urgent: 0, high: 1, medium: 2, low: 3 }] *)
Definition priorityOrder (key : string) : Member :=
  if String.eqb key "urgent" then Own 0
  else if String.eqb key "high" then Own 1
  else if String.eqb key "medium" then Own 2
  else if String.eqb key "low" then Own 3
  else if existsb (String.eqb key) object_prototype_keys then Inherited key
  else Missing.

(** [priorityOrder[v]]: the key is [ToString(v)], which can throw. *)
Definition priorityOrder_at (v : JsValue) : option Member :=
  key ← ToString v; Some (priorityOrder key).

(** [x === y] on two such reads: distinct inherited members are distinct
    objects, and [undefined === undefined]. *)
Definition member_eq (x y : Member) : bool :=
  match x, y with
  | Own a, Own b => a =? b
  | Inherited k, Inherited k' => String.eqb k k'
  | Missing, Missing => true
  | _, _ => false
  end.

(** [x - y]: a number only when both are. *)
Definition member_sub (x y : Member) : num :=
  match x, y with
  | Own a, Own b => Fin (a - b)
  | _, _ => NaN
  end.

(** The comparator passed to [filtered.sort]; [None] is a thrown exception. *)
Definition compare (parse : string -> num) (a b : Todo) : option num :=
  if negb (strict_eq (isCompleted a) (isCompleted b)) then
    Some (Fin (if truthy (isCompleted a) then 1 else -1))
  else
    pa ← priorityOrder_at (priority a);
    pb ← priorityOrder_at (priority b);
    if negb (member_eq pa pb) then Some (member_sub pa pb)
    else if truthy (dueDate a) && truthy (dueDate b) then
      ta ← Date_time parse (dueDate a);
      tb ← Date_time parse (dueDate b);
      Some (num_sub ta tb)
    else if truthy (dueDate a) then Some (Fin (-1))
    else if truthy (dueDate b) then Some (Fin 1)
    else Some (Fin 0).

(** [Array.prototype.sort(cmp)] keeps [x] before [y] unless [cmp(x, y) > 0];
    a comparator result of [NaN] is taken as [+0]. *)
Definition keeps_order (v : num) : bool :=
  match v with
  | Fin z => z <=? 0
  | NaN => true
  end.

Fixpoint sort_insert {A} (cmp : A -> A -> option num) (x : A) (l : list A)
  : option (list A) :=
  match l with
  | [] => Some [x]
  | y :: l' =>
      v ← cmp x y;
      if keeps_order v then Some (x :: y :: l')
      else r ← sort_insert cmp x l'; Some (y :: r)
  end.

(** [Array.prototype.sort] is stable, and for a comparator that is a
    consistent ordering its result is the one sorted arrangement that keeps
    the stored order of equal elements; stable insertion computes it.  For
    other comparators the language leaves the order to the engine. *)
Fixpoint sort {A} (cmp : A -> A -> option num) (l : list A) : option (list A) :=
  match l with
  | [] => Some []
  | x :: l' => s ← sort cmp l'; sort_insert cmp x s
  end.

(** [arr.filter(p)] for a callback that can throw. *)
Fixpoint filter_with {A} (p : A -> option bool) (l : list A) : option (list A) :=
  match l with
  | [] => Some []
  | x :: l' =>
      keep ← p x;
      r ← filter_with p l';
      Some (if (keep : bool) then x :: r else r)
  end.

(** [t.title.toLowerCase().includes(s) || t.description.toLowerCase().includes(s)] *)
Definition search_hit (lowercase : string -> string) (searchLower : string) (t : Todo)
  : option bool :=
  tl ← toLowerCase lowercase (title t);
  if str_includes tl searchLower then Some true
  else dl ← toLowerCase lowercase (description t); Some (str_includes dl searchLower).

(** [t.dueDate && new Date(t.dueDate) <= new Date(dueBefore)] *)
Definition due_before (parse : string -> num) (dueBefore : JsValue) (t : Todo)
  : option bool :=
  if truthy (dueDate t) then
    d ← Date_time parse (dueDate t);
    bound ← Date_time parse dueBefore;
    Some (num_le d bound)
  else Some false.

(** [t.dueDate && new Date(t.dueDate) >= new Date(dueAfter)] *)
Definition due_after (parse : string -> num) (dueAfter : JsValue) (t : Todo)
  : option bool :=
  if truthy (dueDate t) then
    d ← Date_time parse (dueDate t);
    bound ← Date_time parse dueAfter;
    Some (num_ge d bound)
  else Some false.

(** The seven filters, in the order the handler applies them, given the
    engine's [Date.parse] and [String.prototype.toLowerCase]. *)
Definition apply_filters (parse : string -> num) (lowercase : string -> string)
           (q : Query.t) (todos : list Todo)
  : option (list Todo) :=
  let filtered := todos in
  let filtered :=
    if truthy (Query.type q)
    then List.filter (fun t => strict_eq (type t) (Query.type q)) filtered
    else filtered in
  let filtered :=
    if truthy (Query.priority q)
    then List.filter (fun t => strict_eq (priority t) (Query.priority q)) filtered
    else filtered in
  let filtered :=
    if negb (is_undefined (Query.completed q))
    then List.filter
           (fun t => strict_eq (isCompleted t)
                       (JBool (strict_eq (Query.completed q) (JStr "true"))))
           filtered
    else filtered in
  filtered ←
    (if truthy (Query.tag q)
     then filter_with (fun t => includes (tags t) (Query.tag q)) filtered
     else Some filtered);
  filtered ←
    (if truthy (Query.search q)
     then searchLower ← toLowerCase lowercase (Query.search q);
          filter_with (search_hit lowercase searchLower) filtered
     else Some filtered);
  filtered ←
    (if truthy (Query.dueBefore q)
     then filter_with (due_before parse (Query.dueBefore q)) filtered
     else Some filtered);
  if truthy (Query.dueAfter q)
  then filter_with (due_after parse (Query.dueAfter q)) filtered
  else Some filtered.

(** [arr.filter(p).length] *)
Definition count {A} (p : A -> bool) (l : list A) : nat :=
  length (List.filter p l).

Record Meta : Type := mkMeta {
  total : nat;
  byType : list (string * nat);
  completed : nat;
  pending : nat
}.

Definition of_type (name : string) (t : Todo) : bool :=
  strict_eq (type t) (JStr name).

(** The [meta] object of the reply. *)
Definition meta_of (filtered : list Todo) : Meta :=
  {| total := length filtered;
     byType :=
       [("task", count (of_type "task") filtered);
        ("goal", count (of_type "goal") filtered);
        ("habit", count (of_type "habit") filtered);
        ("reminder", count (of_type "reminder") filtered);
        ("shopping", count (of_type "shopping") filtered);
        ("idea", count (of_type "idea") filtered);
        ("bookmark", count (of_type "bookmark") filtered)];
     completed := count (fun t => truthy (isCompleted t)) filtered;
     pending := count (fun t => negb (truthy (isCompleted t))) filtered |}.

(** [{ success: true, data, meta }] *)
Record Listing : Type := mkListing {
  data : list Todo;
  meta : Meta
}.

(** The handler on the array [todos]; [None] when an exception escapes it
    (the reply is then the error middleware's, with no [data] or [meta]). *)
Definition router_get (parse : string -> num) (lowercase : string -> string)
           (q : Query.t) (todos : list Todo)
  : option Listing :=
  filtered ← apply_filters parse lowercase q todos;
  sorted ← sort (compare parse) filtered;
  Some {| data := sorted; meta := meta_of sorted |}.

End Todos.

(** ** notes.routes.ts: the list *)

Module NotesList.
Import Notes.

(** The parameters [router.get('/')] destructures from [req.query]. *)
Module Query.
Record t : Type := mk {
  tag : JsValue;
  pinned : JsValue;
  search : JsValue
}.
End Query.

(** [n.title.toLowerCase().includes(s) || n.content.toLowerCase().includes(s)] *)
Definition search_hit (lowercase : string -> string) (searchLower : string) (n : Note)
  : option bool :=
  tl ← toLowerCase lowercase (title n);
  if str_includes tl searchLower then Some true
  else cl ← toLowerCase lowercase (content n); Some (str_includes cl searchLower).

(** The three filters, in the order the handler applies them. *)
Definition apply_filters (lowercase : string -> string) (q : Query.t) (notes : list Note)
  : option (list Note) :=
  filtered ←
    (if truthy (Query.tag q)
     then Todos.filter_with (fun n => includes (tags n) (Query.tag q)) notes
     else Some notes);
  let filtered :=
    if negb (is_undefined (Query.pinned q))
    then List.filter
           (fun n => strict_eq (isPinned n)
                       (JBool (strict_eq (Query.pinned q) (JStr "true"))))
           filtered
    else filtered in
  if truthy (Query.search q)
  then searchLower ← toLowerCase lowercase (Query.search q);
       Todos.filter_with (search_hit lowercase searchLower) filtered
  else Some filtered.

(** The comparator passed to [filtered.sort].  [updatedAt] holds an output of
    [toISOString()], which [new Date(...)] reads back to the time value it was
    made from, so the difference is taken on the time values. *)
Definition compare (a b : Note) : option num :=
  if negb (strict_eq (isPinned a) (isPinned b)) then
    Some (Fin (if truthy (isPinned a) then -1 else 1))
  else Some (Fin (updatedAt b - updatedAt a)).

(** [{ success: true, data, meta: { total } }] *)
Record Listing : Type := mkListing {
  data : list Note;
  total : nat
}.

(** [router.get('/')] on the array [notes]; [None] when an exception escapes
    the handler. *)
Definition router_get (lowercase : string -> string) (q : Query.t) (notes : list Note)
  : option Listing :=
  filtered ← apply_filters lowercase q notes;
  sorted ← Todos.sort compare filtered;
  Some {| data := sorted; total := length sorted |}.

End NotesList.

(** ** Sample inputs *)

Module Samples.

(** A clock that advances one millisecond per reading, from
    2025-12-01T00:00:00.000Z. *)
Definition ticking_clock (n : nat) : Z := 1764547200000 + Z.of_nat n.

(** A clock that does not advance. *)
Definition frozen_clock (n : nat) : Z := 1764547200000.

(** Identifiers [id-0], [id-1], ... *)
Definition counter_uuids (n : nat) : string :=
  "id-" +:+ NilZero.string_of_uint (Nat.to_uint n).

(** The empty body [{}], and bodies with one more field. *)
Definition todo_body : Todos.Body.t :=
  Todos.Body.mk JUndefined JUndefined JUndefined JUndefined JUndefined JUndefined
                JUndefined JUndefined JUndefined JUndefined JUndefined.

Definition with_title (s : string) (b : Todos.Body.t) : Todos.Body.t :=
  Todos.Body.mk (Todos.Body.type b) (JStr s) (Todos.Body.description b)
    (Todos.Body.priority b) (Todos.Body.isCompleted b) (Todos.Body.dueDate b)
    (Todos.Body.tags b) (Todos.Body.habitFrequency b) (Todos.Body.reminderTime b)
    (Todos.Body.url b) (Todos.Body.quantity b).

Definition with_type (s : string) (b : Todos.Body.t) : Todos.Body.t :=
  Todos.Body.mk (JStr s) (Todos.Body.title b) (Todos.Body.description b)
    (Todos.Body.priority b) (Todos.Body.isCompleted b) (Todos.Body.dueDate b)
    (Todos.Body.tags b) (Todos.Body.habitFrequency b) (Todos.Body.reminderTime b)
    (Todos.Body.url b) (Todos.Body.quantity b).

Definition with_priority (s : string) (b : Todos.Body.t) : Todos.Body.t :=
  Todos.Body.mk (Todos.Body.type b) (Todos.Body.title b) (Todos.Body.description b)
    (JStr s) (Todos.Body.isCompleted b) (Todos.Body.dueDate b)
    (Todos.Body.tags b) (Todos.Body.habitFrequency b) (Todos.Body.reminderTime b)
    (Todos.Body.url b) (Todos.Body.quantity b).

Definition with_isCompleted (v : JsValue) (b : Todos.Body.t) : Todos.Body.t :=
  Todos.Body.mk (Todos.Body.type b) (Todos.Body.title b) (Todos.Body.description b)
    (Todos.Body.priority b) v (Todos.Body.dueDate b)
    (Todos.Body.tags b) (Todos.Body.habitFrequency b) (Todos.Body.reminderTime b)
    (Todos.Body.url b) (Todos.Body.quantity b).

Definition with_url (v : JsValue) (b : Todos.Body.t) : Todos.Body.t :=
  Todos.Body.mk (Todos.Body.type b) (Todos.Body.title b) (Todos.Body.description b)
    (Todos.Body.priority b) (Todos.Body.isCompleted b) (Todos.Body.dueDate b)
    (Todos.Body.tags b) (Todos.Body.habitFrequency b) (Todos.Body.reminderTime b)
    v (Todos.Body.quantity b).

(** A freshly started todos module. *)
Definition todos0 : World Todos.Todo := boot ticking_clock counter_uuids.

(** [{ "type": "bogus" }]: an unrecognized type and no title. *)
Definition untitled_bogus : Todos.Body.t := with_type "bogus" todo_body.

(** [{ "title": "Milk", "priority": "bogus" }] *)
Definition bogus_priority : Todos.Body.t :=
  with_priority "bogus" (with_title "Milk" todo_body).

(** [{ "type": "task", "title": "Review PR", "url": "https://example.org" }] *)
Definition task_with_url : Todos.Body.t :=
  with_url (JStr "https://example.org")
    (with_type "task" (with_title "Review PR" todo_body)).

(** One pending task, [id-0]. *)
Definition one_pending : World Todos.Todo :=
  Todos.serve [Todos.POST (with_title "Review PR" todo_body)] todos0.

(** The todo of [one_pending]. *)
Definition review_pr : Todos.Todo :=
  Todos.mkTodo "id-0" (JStr "task") (JStr "Review PR") (JStr "") (JStr "medium")
               (JBool false) JNull (JArr []) None None None None
               1764547200000 1764547200001 None.

(** One completed task, [id-0]. *)
Definition one_completed : World Todos.Todo :=
  Todos.serve [Todos.PATCH_complete "id-0"] one_pending.

(** The value of a decimal digit. *)
Definition digit (c : ascii) : option Z :=
  let n := Z.of_nat (nat_of_ascii c) in
  if (48 <=? n) && (n <=? 57) then Some (n - 48) else None.

(** The number of days from 1970-01-01 to the day [d] of month [m] of year
    [y] in the Gregorian calendar. *)
Definition days_from_civil (y m d : Z) : Z :=
  let y' := if m <=? 2 then y - 1 else y in
  let era := y' / 400 in
  let yoe := y' - era * 400 in
  let doy := (153 * (if 2 <? m then m - 3 else m + 9) + 2) / 5 + d - 1 in
  let doe := yoe * 365 + yoe / 4 - yoe / 100 + doy in
  era * 146097 + doe - 719468.

(** The length of month [m] of year [y]. *)
Definition days_in_month (y m : Z) : Z :=
  if m =? 2 then
    if ((y mod 4 =? 0) && negb (y mod 100 =? 0)) || (y mod 400 =? 0) then 29 else 28
  else if (m =? 4) || (m =? 6) || (m =? 9) || (m =? 11) then 30
  else 31.

(** [Date.parse] on the date-only form [YYYY-MM-DD], which the language fixes
    as midnight UTC of that day; every other string is left unparsed here. *)
Definition parse_date_only (s : string) : num :=
  match list_ascii_of_string s with
  | [y1; y2; y3; y4; dash1; m1; m2; dash2; d1; d2] =>
      match digit y1, digit y2, digit y3, digit y4,
            digit m1, digit m2, digit d1, digit d2 with
      | Some a, Some b, Some c, Some d, Some e, Some f, Some g, Some h =>
          let y := 1000 * a + 100 * b + 10 * c + d in
          let m := 10 * e + f in
          let dd := 10 * g + h in
          if Ascii.eqb dash1 "-" && Ascii.eqb dash2 "-"
             && (1 <=? m) && (m <=? 12) && (1 <=? dd) && (dd <=? days_in_month y m)
          then Fin (days_from_civil y m dd * 86400000)
          else NaN
      | _, _, _, _, _, _, _, _ => NaN
      end
  | _ => NaN
  end.

(** A request with no query string. *)
Definition no_query : Todos.Query.t :=
  Todos.Query.mk JUndefined JUndefined JUndefined JUndefined JUndefined
                 JUndefined JUndefined.

(** [?search=abc] *)
Definition search_abc : Todos.Query.t :=
  Todos.Query.mk JUndefined JUndefined JUndefined JUndefined (JStr "abc")
                 JUndefined JUndefined.

(** One pending task, [id-0], after [PUT /api/todos/id-0] with the body
    [{ "isCompleted": "false" }]. *)
Definition completed_by_text : World Todos.Todo :=
  Todos.serve
    [Todos.POST (with_title "Review PR" todo_body);
     Todos.PUT "id-0" (with_isCompleted (JStr "false") todo_body)]
    todos0.

(** Three creations: [{ "title": "Low", "priority": "low" }], then
    [{ "title": "Bogus", "priority": "bogus" }], then
    [{ "title": "Urgent", "priority": "urgent" }]. *)
Definition low_bogus_urgent : World Todos.Todo :=
  Todos.serve
    [Todos.POST (with_priority "low" (with_title "Low" todo_body));
     Todos.POST (with_priority "bogus" (with_title "Bogus" todo_body));
     Todos.POST (with_priority "urgent" (with_title "Urgent" todo_body))]
    todos0.

(** Two creations: [{ "title": "abc" }], then
    [{ "title": "Milk", "description": null }]. *)
Definition abc_and_milk : World Todos.Todo :=
  Todos.serve
    [Todos.POST (with_title "abc" todo_body);
     Todos.POST (Todos.Body.mk JUndefined (JStr "Milk") JNull JUndefined JUndefined
                               JUndefined JUndefined JUndefined JUndefined JUndefined
                               JUndefined)]
    todos0.

(** [{ "title": name, "priority": priority, "dueDate": dueDate }] *)
Definition abcd_body (name priority : string) (dueDate : JsValue) : Todos.Body.t :=
  Todos.Body.mk JUndefined (JStr name) JUndefined (JStr priority) JUndefined dueDate
                JUndefined JUndefined JUndefined JUndefined JUndefined.

(** The four todos of the specification's example: A and B pending, high, due
    2025-01-01 and 2025-01-02; C pending, urgent, no due date; D completed,
    urgent, due 2025-01-01. *)
Definition todo_A : Todos.Todo :=
  Todos.mkTodo "id-0" (JStr "task") (JStr "A") (JStr "") (JStr "high")
               (JBool false) (JStr "2025-01-01") (JArr []) None None None None
               1764547200000 1764547200001 None.

Definition todo_B : Todos.Todo :=
  Todos.mkTodo "id-1" (JStr "task") (JStr "B") (JStr "") (JStr "high")
               (JBool false) (JStr "2025-01-02") (JArr []) None None None None
               1764547200002 1764547200003 None.

Definition todo_C : Todos.Todo :=
  Todos.mkTodo "id-2" (JStr "task") (JStr "C") (JStr "") (JStr "urgent")
               (JBool false) JNull (JArr []) None None None None
               1764547200004 1764547200005 None.

Definition todo_D : Todos.Todo :=
  Todos.mkTodo "id-3" (JStr "task") (JStr "D") (JStr "") (JStr "urgent")
               (JBool true) (JStr "2025-01-01") (JArr []) None None None None
               1764547200006 1764547200009 (Some 1764547200008).

(** A collection that holds them, in the order A, B, C, D: four creations and
    one toggle. *)
Definition abcd : World Todos.Todo :=
  Todos.serve
    [Todos.POST (abcd_body "A" "high" (JStr "2025-01-01"));
     Todos.POST (abcd_body "B" "high" (JStr "2025-01-02"));
     Todos.POST (abcd_body "C" "urgent" JNull);
     Todos.POST (abcd_body "D" "urgent" (JStr "2025-01-01"));
     Todos.PATCH_complete "id-3"]
    todos0.

(** A freshly started notes module. *)
Definition notes0 : World Notes.Note := boot ticking_clock counter_uuids.

(** Two creations: [{ "title": "Minutes" }], then
    [{ "title": "Ideas", "isPinned": true }]. *)
Definition two_notes : World Notes.Note :=
  Notes.serve
    [Notes.POST (Notes.Body.mk (JStr "Minutes") JUndefined JUndefined JUndefined);
     Notes.POST (Notes.Body.mk (JStr "Ideas") JUndefined JUndefined (JBool true))]
    notes0.

(** The notes of [two_notes]. *)
Definition note_minutes : Notes.Note :=
  Notes.mkNote "id-0" (JStr "Minutes") (JStr "") (JArr []) (JBool false)
               1764547200000 1764547200001.

Definition note_ideas : Notes.Note :=
  Notes.mkNote "id-1" (JStr "Ideas") (JStr "") (JArr []) (JBool true)
               1764547200002 1764547200003.

End Samples.

(** * The vocabulary of the properties *)

(** The value is one of the seven type names. *)
Definition is_valid_type (v : JsValue) : Prop :=
  exists s, In s Todos.validTypes /\ v = JStr s.

(** [x] is the request's value [v], or the default [d] when the request has
    none. *)
Definition defaulted (v d x : JsValue) : Prop :=
  (v = JUndefined -> x = d) /\ (v <> JUndefined -> x = v).

(** Two characters are the same letter: the same character, or the capital
    and the small form of one letter. *)
Definition same_letter (a b : ascii) : Prop :=
  a = b \/ In (a, b) Latin.letters \/ In (b, a) Latin.letters.

(** Two strings are equal up to the case of their letters: they have the same
    length and, place by place, the same letter. *)
Fixpoint same_ignoring_case (a b : string) : Prop :=
  match a, b with
  | EmptyString, EmptyString => True
  | String x a', String y b' => same_letter x y /\ same_ignoring_case a' b'
  | _, _ => False
  end.

(** [needle] occurs in [hay] up to the case of the letters. *)
Definition occurs_ignoring_case (needle hay : string) : Prop :=
  exists pre mid post, hay = pre +:+ mid +:+ post /\ same_ignoring_case mid needle.

(** [same_letter] as a test, and the 256 bytes to run it on. *)
Definition same_letterb (a b : ascii) : bool :=
  Ascii.eqb a b
  || existsb (fun p => Ascii.eqb (fst p) a && Ascii.eqb (snd p) b) Latin.letters
  || existsb (fun p => Ascii.eqb (fst p) b && Ascii.eqb (snd p) a) Latin.letters.

Definition bytes : list ascii := map ascii_of_nat (seq 0 256).

(** The engine's [toLowerCase] does on text of the basic Latin block what the
    language says: it turns the capital letters into the small ones and
    leaves every other character. *)
Definition folds_basic_latin (lowercase : string -> string) : Prop :=
  forall s, Latin.plain s -> lowercase s = Latin.lowercase s.

(** The value, when it is a string, lies in the basic Latin block. *)
Definition plain_text (v : JsValue) : Prop := forall s, v = JStr s -> Latin.plain s.

(** Stable insertion sort with a comparison that always answers. *)
Fixpoint insert_by {A} (leb : A -> A -> bool) (x : A) (l : list A) : list A :=
  match l with
  | [] => [x]
  | y :: l' => if leb x y then x :: y :: l' else y :: insert_by leb x l'
  end.

Fixpoint isort {A} (leb : A -> A -> bool) (l : list A) : list A :=
  match l with
  | [] => []
  | x :: l' => insert_by leb x (isort leb l')
  end.

Module TodosSpec.
Import Todos.

(** The update turns a pending todo completed. *)
Definition put_completes (body : Body.t) (old : Todo) : bool :=
  negb (is_undefined (Body.isCompleted body))
  && truthy (Body.isCompleted body) && negb (truthy (isCompleted old)).

(** The todo [router.put('/:id')] writes over [old], [k] clock readings having
    been taken before: it takes one for [completedAt] when it turns a pending
    todo completed, and one for [updatedAt]. *)
Definition put_todo (c : nat -> Z) (k : nat) (body : Body.t) (old : Todo) : Todo :=
  {| id := id old;
     type := type old;
     title := merge (Body.title body) (title old);
     description := merge (Body.description body) (description old);
     priority := merge (Body.priority body) (priority old);
     isCompleted := merge (Body.isCompleted body) (isCompleted old);
     dueDate := merge (Body.dueDate body) (dueDate old);
     tags := merge (Body.tags body) (tags old);
     habitFrequency := merge_opt (Body.habitFrequency body) (habitFrequency old);
     reminderTime := merge_opt (Body.reminderTime body) (reminderTime old);
     url := merge_opt (Body.url body) (url old);
     quantity := merge_opt (Body.quantity body) (quantity old);
     createdAt := createdAt old;
     updatedAt := c (if put_completes body old then S k else k);
     completedAt :=
       if put_completes body old then Some (c k)
       else if negb (is_undefined (Body.isCompleted body))
               && negb (truthy (Body.isCompleted body))
            then None
            else completedAt old |}.

(** The todo [router.patch('/:id/complete')] writes over [old], [k] clock
    readings having been taken before. *)
Definition patch_todo (c : nat -> Z) (k : nat) (old : Todo) : Todo :=
  {| id := id old;
     type := type old;
     title := title old;
     description := description old;
     priority := priority old;
     isCompleted := JBool (negb (truthy (isCompleted old)));
     dueDate := dueDate old;
     tags := tags old;
     habitFrequency := habitFrequency old;
     reminderTime := reminderTime old;
     url := url old;
     quantity := quantity old;
     createdAt := createdAt old;
     updatedAt := c (if truthy (isCompleted old) then k else S k);
     completedAt := if truthy (isCompleted old) then None else Some (c k) |}.

(** A todo is consistent when it has a completion time exactly when it is
    completed. *)
Definition consistent (t : Todo) : Prop :=
  completedAt t <> None <-> truthy (isCompleted t) = true.

(** How [completedAt] moves when a handler turns [t] into [t'], [stamp] being
    the reading of the clock the handler starts with: set on the step from
    pending to completed, null as soon as the todo is pending, kept while the
    todo stays completed. *)
Definition completion_step (stamp : Z) (t t' : Todo) : Prop :=
  (truthy (isCompleted t) = false -> truthy (isCompleted t') = true ->
   completedAt t = None /\ completedAt t' = Some stamp)
  /\ (truthy (isCompleted t') = false -> completedAt t' = None)
  /\ (truthy (isCompleted t) = true -> truthy (isCompleted t') = true ->
      completedAt t' = completedAt t /\ completedAt t' <> None).

(** The requests that rewrite a todo in place. *)
Definition rewrites_in_place (r : Request) : bool :=
  match r with
  | PUT _ _ | PATCH_complete _ => true
  | POST _ | DELETE _ => false
  end.

End TodosSpec.

Module NotesSpec.
Import Notes.

(** The note [router.put('/:id')] writes over [old]. *)
Definition put_note (stamp : Z) (body : Body.t) (old : Note) : Note :=
  mkNote (id old)
    (if negb (is_undefined (Body.title body)) then Body.title body else title old)
    (if negb (is_undefined (Body.content body)) then Body.content body else content old)
    (if negb (is_undefined (Body.tags body)) then Body.tags body else tags old)
    (if negb (is_undefined (Body.isPinned body)) then Body.isPinned body else isPinned old)
    (createdAt old)
    stamp.

(** Both timestamps of a note are readings the process has already taken of
    its clock, [createdAt] no later in the sequence than [updatedAt]. *)
Definition stamped (c : nat -> Z) (k : nat) (n : Note) : Prop :=
  exists i j, (i <= j)%nat /\ (j < k)%nat /\ createdAt n = c i /\ updatedAt n = c j.

End NotesSpec.

Module ListingSpec.
Import Todos.

(** The answer of a callback that did not throw. *)
Definition answer (o : option bool) : bool :=
  match o with Some b => b | None => false end.

(** The order a comparator that does not throw induces. *)
Definition leb_of {A} (cmp : A -> A -> option num) (x y : A) : bool :=
  match cmp x y with
  | Some v => keeps_order v
  | None => true
  end.

(** The value is a string. *)
Definition text (v : JsValue) : Prop := exists s, v = JStr s.

(** The JSON kinds [interface Todo] gives the fields the list handler reads:
    [title], [description] and [priority] strings, [tags] an array, [dueDate] a
    string or null. *)
Definition well_kinded (t : Todo) : Prop :=
  text (title t) /\ text (description t) /\ (exists elems, tags t = JArr elems)
  /\ text (priority t) /\ (dueDate t = JNull \/ text (dueDate t)).

(** The texts the search reads in a todo lie in the basic Latin block. *)
Definition searchable (t : Todo) : Prop :=
  plain_text (title t) /\ plain_text (description t).

(** A query parameter is absent or a string. *)
Definition text_or_absent (v : JsValue) : Prop := v = JUndefined \/ text v.

(** Every parameter of the query is absent or a string. *)
Definition plain_query (q : Query.t) : Prop :=
  text_or_absent (Query.type q) /\ text_or_absent (Query.priority q)
  /\ text_or_absent (Query.completed q) /\ text_or_absent (Query.tag q)
  /\ text_or_absent (Query.search q) /\ text_or_absent (Query.dueBefore q)
  /\ text_or_absent (Query.dueAfter q).

(** A filter is supplied when its parameter carries a value: a parameter that
    is absent, or present with nothing after the equals sign, supplies none. *)
Definition supplied (v : JsValue) : Prop := truthy v = true.

(** The instant a date string denotes, if it denotes one. *)
Definition due_time (parse : string -> num) (v : JsValue) : option Z :=
  match v with
  | JStr s => match parse s with Fin z => Some z | NaN => None end
  | _ => None
  end.

(** The boolean the [completed] parameter asks for. *)
Definition asks_completed (v : JsValue) : bool := strict_eq v (JStr "true").

(** The todo passes every filter the query supplies. *)
Definition satisfies (parse : string -> num) (q : Query.t) (t : Todo) : Prop :=
  (supplied (Query.type q) -> type t = Query.type q)
  /\ (supplied (Query.priority q) -> priority t = Query.priority q)
  /\ (Query.completed q <> JUndefined ->
      isCompleted t = JBool (asks_completed (Query.completed q)))
  /\ (supplied (Query.tag q) ->
      exists elems, tags t = JArr elems /\ In (Query.tag q) elems)
  /\ (supplied (Query.search q) ->
      exists s, Query.search q = JStr s
        /\ ((exists x, title t = JStr x /\ occurs_ignoring_case s x)
            \/ (exists y, description t = JStr y /\ occurs_ignoring_case s y)))
  /\ (supplied (Query.dueBefore q) ->
      exists d bound,
        due_time parse (dueDate t) = Some d
        /\ due_time parse (Query.dueBefore q) = Some bound /\ d <= bound)
  /\ (supplied (Query.dueAfter q) ->
      exists d bound,
        due_time parse (dueDate t) = Some d
        /\ due_time parse (Query.dueAfter q) = Some bound /\ d >= bound).

(** The rank of a priority: urgent 0, high 1, medium 2, low 3. *)
Definition priority_rank (v : JsValue) : option Z :=
  match v with
  | JStr s =>
      if String.eqb s "urgent" then Some 0
      else if String.eqb s "high" then Some 1
      else if String.eqb s "medium" then Some 2
      else if String.eqb s "low" then Some 3
      else None
  | _ => None
  end.

(** What a todo is ordered by: whether it is completed, the rank of its
    priority, and the instant it is due, if any. *)
Record SortKey : Type := mkKey {
  done : bool;
  rank : Z;
  due : option Z
}.

Definition sort_key (parse : string -> num) (t : Todo) : SortKey :=
  {| done := truthy (isCompleted t);
     rank := match priority_rank (priority t) with Some r => r | None => 4 end;
     due := due_time parse (dueDate t) |}.

(** Ascending by due date, a todo without one after every todo with one. *)
Definition due_no_later (a b : option Z) : Prop :=
  match a, b with
  | Some x, Some y => x <= y
  | Some _, None => True
  | None, Some _ => False
  | None, None => True
  end.

(** [a] may be listed before [b]: incomplete before completed; at equal
    completion, the smaller rank first; at equal rank, by due date. *)
Definition no_later (a b : SortKey) : Prop :=
  (done a = false /\ done b = true)
  \/ (done a = done b /\ rank a < rank b)
  \/ (done a = done b /\ rank a = rank b /\ due_no_later (due a) (due b)).

Definition due_leb (a b : option Z) : bool :=
  match a, b with
  | Some x, Some y => x <=? y
  | Some _, None => true
  | None, Some _ => false
  | None, None => true
  end.

Definition key_leb (a b : SortKey) : bool :=
  if Bool.eqb (done a) (done b) then
    if rank a =? rank b then due_leb (due a) (due b) else rank a <? rank b
  else negb (done a).

(** Two keys tie when each may be listed before the other. *)
Definition tie (a b : SortKey) : bool := key_leb a b && key_leb b a.

(** The todo has the types of [interface Todo] where the comparator looks: a
    boolean [isCompleted], one of the four priorities, and a [dueDate] that is
    null or a date string. *)
Definition typed (parse : string -> num) (t : Todo) : Prop :=
  (exists b, isCompleted t = JBool b)
  /\ is_Some (priority_rank (priority t))
  /\ (dueDate t = JNull \/ exists s d, dueDate t = JStr s /\ parse s = Fin d).

End ListingSpec.

Module LifecycleSpec.
Import Todos.

(** The todo with another [updatedAt]. *)
Definition touch (stamp : Z) (t : Todo) : Todo :=
  {| id := id t;
     type := type t;
     title := title t;
     description := description t;
     priority := priority t;
     isCompleted := isCompleted t;
     dueDate := dueDate t;
     tags := tags t;
     habitFrequency := habitFrequency t;
     reminderTime := reminderTime t;
     url := url t;
     quantity := quantity t;
     createdAt := createdAt t;
     updatedAt := stamp;
     completedAt := completedAt t |}.

(** The body supplies none of the fields [router.put('/:id')] merges. *)
Definition supplies_nothing (body : Body.t) : Prop :=
  Body.title body = JUndefined /\ Body.description body = JUndefined
  /\ Body.priority body = JUndefined /\ Body.isCompleted body = JUndefined
  /\ Body.dueDate body = JUndefined /\ Body.tags body = JUndefined
  /\ Body.habitFrequency body = JUndefined /\ Body.reminderTime body = JUndefined
  /\ Body.url body = JUndefined /\ Body.quantity body = JUndefined.

(** No todo of the list has the id. *)
Definition absent (rid : string) (todos : list Todo) : Prop :=
  forall t, In t todos -> id t <> rid.

(** The timestamps of a todo are readings the process has taken of its clock:
    [createdAt] first, [updatedAt] last, and [completedAt], when there is one,
    between the two. *)
Definition dated (c : nat -> Z) (k : nat) (t : Todo) : Prop :=
  exists i j,
    (i <= j)%nat /\ (j < k)%nat /\ createdAt t = c i /\ updatedAt t = c j
    /\ (completedAt t = None
        \/ exists m, (i <= m)%nat /\ (m <= j)%nat /\ completedAt t = Some (c m)).

(** The id of a todo is one the process has drawn. *)
Definition drawn (u : nat -> string) (k : nat) (t : Todo) : Prop :=
  exists i, (i < k)%nat /\ id t = u i.

(** The ids of the array are distinct ones among those the process has drawn
    from [u]. *)
Definition ids_fresh (u : nat -> string) (w : World Todo) : Prop :=
  uuids w = u /\ NoDup (map id (rows w)) /\ Forall (drawn u (draws w)) (rows w).

End LifecycleSpec.

Module NotesListSpec.
Import Notes.

(** The JSON kinds [interface Note] gives the fields the list handler reads:
    [title] and [content] strings, [tags] an array. *)
Definition well_kinded (n : Note) : Prop :=
  (exists s, title n = JStr s) /\ (exists s, content n = JStr s)
  /\ (exists elems, tags n = JArr elems).

(** The texts the search reads in a note lie in the basic Latin block. *)
Definition searchable (n : Note) : Prop :=
  plain_text (title n) /\ plain_text (content n).

(** [isPinned] is a boolean. *)
Definition pinned_kind (n : Note) : Prop := exists b, isPinned n = JBool b.

(** No note of the list has the id. *)
Definition absent (rid : string) (notes : list Note) : Prop :=
  forall n, In n notes -> id n <> rid.

(** Every parameter of the query is absent or a string. *)
Definition plain_query (q : NotesList.Query.t) : Prop :=
  ListingSpec.text_or_absent (NotesList.Query.tag q)
  /\ ListingSpec.text_or_absent (NotesList.Query.pinned q)
  /\ ListingSpec.text_or_absent (NotesList.Query.search q).

(** The note passes every filter the query supplies. *)
Definition satisfies (q : NotesList.Query.t) (n : Note) : Prop :=
  (ListingSpec.supplied (NotesList.Query.tag q) ->
   exists elems, tags n = JArr elems /\ In (NotesList.Query.tag q) elems)
  /\ (NotesList.Query.pinned q <> JUndefined ->
      isPinned n = JBool (ListingSpec.asks_completed (NotesList.Query.pinned q)))
  /\ (ListingSpec.supplied (NotesList.Query.search q) ->
      exists s, NotesList.Query.search q = JStr s
        /\ ((exists x, title n = JStr x /\ occurs_ignoring_case s x)
            \/ (exists y, content n = JStr y /\ occurs_ignoring_case s y))).

(** [a] may be listed before [b]: pinned before unpinned, and at equal pin
    state the more recently updated first. *)
Definition no_later (a b : Note) : Prop :=
  (truthy (isPinned a) = true /\ truthy (isPinned b) = false)
  \/ (truthy (isPinned a) = truthy (isPinned b) /\ updatedAt b <= updatedAt a).

Definition no_laterb (a b : Note) : bool :=
  if Bool.eqb (truthy (isPinned a)) (truthy (isPinned b))
  then updatedAt b <=? updatedAt a
  else truthy (isPinned a).

(** Two notes tie when each may be listed before the other. *)
Definition tie (a b : Note) : bool := no_laterb a b && no_laterb b a.

End NotesListSpec.

(** * Properties *)

(** ** Arrays *)

Section FindIndex.
Context {A : Type} (p : A -> bool).

(** The index is in range and holds the element returned with it, which
    satisfies the predicate. *)
Lemma findIndex_Some (l : list A) (i : nat) (x : A) :
  findIndex p l = Some (i, x) -> l !! i = Some x /\ p x = true.
Proof.
  revert i. induction l as [|y l IH]; intros i; simpl; [discriminate|].
  destruct (p y) eqn:Hp.
  - intros [= <- <-]. auto.
  - destruct (findIndex p l) as [[k z]|]; [|discriminate].
    intros [= <- <-]. simpl. apply IH. reflexivity.
Qed.

Lemma findIndex_None (l : list A) :
  findIndex p l = None -> forall x, In x l -> p x = false.
Proof.
  induction l as [|y l IH]; simpl; [tauto|].
  destruct (p y) eqn:Hp; [discriminate|].
  destruct (findIndex p l) as [[k z]|]; [discriminate|].
  intros _ x [<-|Hx]; auto.
Qed.

Lemma findIndex_In (l : list A) (x : A) :
  In x l -> p x = true -> exists i y, findIndex p l = Some (i, y).
Proof.
  intros Hin Hp. destruct (findIndex p l) as [[i y]|] eqn:E; [eauto|].
  rewrite (findIndex_None l E x Hin) in Hp. discriminate.
Qed.

End FindIndex.

(** With distinct keys, two elements with the same key are the same. *)
Lemma NoDup_map_eq {A B} (f : A -> B) (l : list A) (x y : A) :
  NoDup (map f l) -> In x l -> In y l -> f x = f y -> x = y.
Proof.
  induction l as [|z l IH]; simpl; [tauto|].
  intros Hnd Hx Hy Hf. apply NoDup_cons in Hnd. destruct Hnd as [Hz Hnd].
  destruct Hx as [<-|Hx], Hy as [<-|Hy]; auto.
  - exfalso. apply Hz. rewrite Hf. apply list_elem_of_In, in_map, Hy.
  - exfalso. apply Hz. rewrite <- Hf. apply list_elem_of_In, in_map, Hx.
Qed.

(** ** Values *)

Lemma strict_eq_JStr (s : string) (v : JsValue) :
  strict_eq (JStr s) v = true <-> v = JStr s.
Proof.
  destruct v; simpl; try (split; [discriminate | intros [=]]).
  rewrite String.eqb_eq. split; [intros ->; reflexivity | intros [= ->]; reflexivity].
Qed.

Lemma strict_eq_JStr_r (s : string) (v : JsValue) :
  strict_eq v (JStr s) = true <-> v = JStr s.
Proof.
  destruct v; simpl; try (split; [discriminate | intros [=]]).
  rewrite String.eqb_eq. split; [intros ->; reflexivity | intros [= ->]; reflexivity].
Qed.

Lemma literals_include_spec (v : JsValue) :
  literals_include Todos.validTypes v = true <-> is_valid_type v.
Proof.
  unfold literals_include, is_valid_type. rewrite existsb_exists.
  split; intros [s [Hs Hv]]; exists s; split; auto; apply strict_eq_JStr; auto.
Qed.

(** ** Todos: create and update *)

Module TodosFacts.
Import Todos TodosSpec.

(** What [router.post('/')] does, by cases on its two guards. *)
Lemma router_post_cases (body : Body.t) (w : World Todo) :
  (truthy (Body.title body) = false /\
   router_post body w = (Failure 400 "Title is required", w))
  \/ (truthy (Body.title body) = true /\
      ~ is_valid_type (or_default (Body.type body) (JStr "task")) /\
      router_post body w = (Failure 400 invalid_type_message, w))
  \/ (truthy (Body.title body) = true /\
      is_valid_type (or_default (Body.type body) (JStr "task")) /\
      exists todo,
        router_post body w
        = (Success 201 todo,
           mkWorld (clock w) (uuids w) (S (S (ticks w))) (S (draws w))
                   (rows w ++ [todo])%list) /\
        todo =
        {| id := uuids w (draws w);
           type := or_default (Body.type body) (JStr "task");
           title := Body.title body;
           description := or_default (Body.description body) (JStr "");
           priority := or_default (Body.priority body) (JStr "medium");
           isCompleted := JBool false;
           dueDate := or_default (Body.dueDate body) JNull;
           tags := or_default (Body.tags body) (JArr []);
           habitFrequency :=
             spread_if (strict_eq (or_default (Body.type body) (JStr "task")) (JStr "habit"))
                       (or_else (Body.habitFrequency body) (JStr "daily"));
           reminderTime :=
             spread_if (strict_eq (or_default (Body.type body) (JStr "task")) (JStr "reminder"))
                       (Body.reminderTime body);
           url :=
             spread_if (strict_eq (or_default (Body.type body) (JStr "task")) (JStr "bookmark"))
                       (Body.url body);
           quantity :=
             spread_if (strict_eq (or_default (Body.type body) (JStr "task")) (JStr "shopping"))
                       (or_else (Body.quantity body) (JNum 1));
           createdAt := clock w (ticks w);
           updatedAt := clock w (S (ticks w));
           completedAt := None |}).
Proof.
  unfold router_post.
  destruct (truthy (Body.title body)) eqn:Ht; cbn [negb]; [right | left; auto].
  destruct (literals_include validTypes (or_default (Body.type body) (JStr "task"))) eqn:Hv;
    cbn [negb].
  - right. split; [reflexivity|]. split; [apply literals_include_spec; exact Hv|].
    eexists. split; reflexivity.
  - left. split; [reflexivity|]. split; [|reflexivity].
    rewrite <- literals_include_spec, Hv. discriminate.
Qed.

(** C5, as amended.  A create request whose [type] is present and is not one
    of the seven names is answered 400 and leaves the collection (and the
    whole process state) as it was, whatever the other fields are.  The
    message names the seven valid types when the request has a truthy title;
    when it has not, the title guard answers first and the message is
    "Title is required". *)
Theorem post_unrecognized_type (body : Body.t) (w : World Todo) :
  is_undefined (Body.type body) = false ->
  ~ is_valid_type (Body.type body) ->
  router_post body w
  = (Failure 400 (if truthy (Body.title body)
                  then "Invalid type. Must be one of: task, goal, habit, reminder, shopping, idea, bookmark"
                  else "Title is required"),
     w).
Proof.
  intros Hpresent Hbad.
  assert (Hty : or_default (Body.type body) (JStr "task") = Body.type body)
    by (unfold or_default; rewrite Hpresent; reflexivity).
  destruct (router_post_cases body w) as [[Ht ->] | [[Ht [_ ->]] | [_ [Hok _]]]].
  - rewrite Ht. reflexivity.
  - rewrite Ht. reflexivity.
  - rewrite Hty in Hok. contradiction.
Qed.

Lemma post_unrecognized_type_witness :
  Todos.router_post (Samples.with_title "Milk" Samples.untitled_bogus) Samples.todos0
  = (Failure 400 "Invalid type. Must be one of: task, goal, habit, reminder, shopping, idea, bookmark",
     Samples.todos0).
Proof.
  apply (post_unrecognized_type (Samples.with_title "Milk" Samples.untitled_bogus)
                                Samples.todos0).
  - reflexivity.
  - intros [s [Hs Heq]]. simpl in Hs.
    repeat (destruct Hs as [<- | Hs]; [discriminate Heq|]). exact Hs.
Defined.

(** C5 as stated fails: [{ "type": "bogus" }] has an unrecognized type, and the
    reply's message is "Title is required", which names no type. *)
Lemma post_unrecognized_type_counterexample :
  is_undefined (Body.type Samples.untitled_bogus) = false
  /\ literals_include validTypes (Body.type Samples.untitled_bogus) = false
  /\ fst (router_post Samples.untitled_bogus Samples.todos0)
     = Failure 400 "Title is required"
  /\ String.eqb "Title is required" invalid_type_message = false
  /\ forallb (fun name => negb (str_includes "Title is required" name)) validTypes = true.
Proof. repeat split; reflexivity. Qed.

(** C6 fails on the code: [{ "title": "Milk", "priority": "bogus" }] is
    accepted by create and by update and stored with the priority it carries,
    which is none of the four levels.  [type] is checked against [validTypes];
    [priority] is not checked against anything. *)
Lemma priority_is_not_validated :
  (exists todo,
      router_post Samples.bogus_priority Samples.todos0
      = (Success 201 todo, serve [POST Samples.bogus_priority] Samples.todos0)
      /\ rows (serve [POST Samples.bogus_priority] Samples.todos0) = [todo]
      /\ priority todo = JStr "bogus"
      /\ literals_include ["low"; "medium"; "high"; "urgent"] (priority todo) = false)
  /\ (exists todo,
        fst (router_put "id-0" Samples.bogus_priority Samples.one_pending)
        = Success 200 todo
        /\ rows (serve [PUT "id-0" Samples.bogus_priority] Samples.one_pending) = [todo]
        /\ priority todo = JStr "bogus"
        /\ literals_include ["low"; "medium"; "high"; "urgent"] (priority todo) = false).
Proof. split; eexists; repeat split; reflexivity. Qed.

(** The priority a successful create stores is the request's, and
    ["medium"] when the request has none. *)
Lemma post_priority (body : Body.t) (w : World Todo) (todo : Todo) :
  fst (router_post body w) = Success 201 todo ->
  priority todo = or_default (Body.priority body) (JStr "medium").
Proof.
  destruct (router_post_cases body w) as [[_ ->] | [[_ [_ ->]] | [_ [_ [t [-> ->]]]]]];
    simpl; [discriminate | discriminate |].
  intros [= <-]. reflexivity.
Qed.

Lemma spread_if_is_Some (c : bool) (v : JsValue) :
  is_Some (spread_if c v) <-> c = true.
Proof.
  destruct c; simpl; split; eauto; try discriminate.
  intros [x Hx]. discriminate.
Qed.

(** C8.  The todo a successful create stores has the key [habitFrequency]
    exactly when its type is habit, [reminderTime] exactly when it is
    reminder, [url] exactly when it is bookmark and [quantity] exactly when it
    is shopping; [habitFrequency] falls back to ["daily"] and [quantity] to
    [1]; a task, goal or idea has none of the four keys, whatever the request
    supplied. *)
Theorem post_type_specific_fields (body : Body.t) (w : World Todo) (todo : Todo) :
  fst (router_post body w) = Success 201 todo ->
  rows (snd (router_post body w)) = (rows w ++ [todo])%list
  /\ type todo = or_default (Body.type body) (JStr "task")
  /\ is_valid_type (type todo)
  /\ (is_Some (habitFrequency todo) <-> type todo = JStr "habit")
  /\ (is_Some (reminderTime todo) <-> type todo = JStr "reminder")
  /\ (is_Some (url todo) <-> type todo = JStr "bookmark")
  /\ (is_Some (quantity todo) <-> type todo = JStr "shopping")
  /\ (type todo = JStr "habit" ->
      habitFrequency todo
      = Some (if truthy (Body.habitFrequency body)
              then Body.habitFrequency body else JStr "daily"))
  /\ (type todo = JStr "reminder" -> reminderTime todo = Some (Body.reminderTime body))
  /\ (type todo = JStr "bookmark" -> url todo = Some (Body.url body))
  /\ (type todo = JStr "shopping" ->
      quantity todo
      = Some (if truthy (Body.quantity body) then Body.quantity body else JNum 1))
  /\ (type todo = JStr "task" \/ type todo = JStr "goal" \/ type todo = JStr "idea" ->
      habitFrequency todo = None /\ reminderTime todo = None
      /\ url todo = None /\ quantity todo = None).
Proof.
  destruct (router_post_cases body w) as [[_ ->] | [[_ [_ ->]] | [_ [Hok [t [-> ->]]]]]];
    simpl; [discriminate | discriminate |].
  intros [= <-]. simpl.
  split; [reflexivity|]. split; [reflexivity|]. split; [exact Hok|].
  clear Hok. generalize (or_default (Body.type body) (JStr "task")). intros ty.
  do 4 (split; [rewrite spread_if_is_Some; apply strict_eq_JStr_r|]).
  do 4 (split; [intros ->; reflexivity|]).
  intros [-> | [-> | ->]]; auto.
Qed.

Lemma post_type_specific_fields_witness :
  exists todo,
    fst (router_post Samples.task_with_url Samples.todos0) = Success 201 todo
    /\ type todo = JStr "task"
    /\ (is_Some (url todo) <-> type todo = JStr "bookmark")
    /\ url todo = None.
Proof.
  eexists. split; [reflexivity|].
  pose proof (post_type_specific_fields Samples.task_with_url Samples.todos0 _ eq_refl)
    as (_ & Hty & _ & _ & _ & Hurl & _ & _ & _ & _ & _ & Hnone).
  split; [exact Hty|]. split; [exact Hurl|].
  apply Hnone. left. exact Hty.
Defined.

Lemma router_put_found (rid : string) (body : Body.t) (w : World Todo)
      (index : nat) (old : Todo) :
  findIndex (fun t => String.eqb (id t) rid) (rows w) = Some (index, old) ->
  router_put rid body w
  = (Success 200 (put_todo (clock w) (ticks w) body old),
     mkWorld (clock w) (uuids w)
             (if put_completes body old then S (S (ticks w)) else S (ticks w))
             (draws w)
             (<[index := put_todo (clock w) (ticks w) body old]> (rows w))).
Proof.
  intros Hfind. unfold router_put, bind, load. rewrite Hfind.
  unfold put_todo, put_completes.
  destruct (is_undefined (Body.isCompleted body));
    destruct (truthy (Body.isCompleted body));
    destruct (truthy (isCompleted old)); reflexivity.
Qed.

Lemma router_put_missing (rid : string) (body : Body.t) (w : World Todo) :
  findIndex (fun t => String.eqb (id t) rid) (rows w) = None ->
  router_put rid body w = (Failure 404 "Todo not found", w).
Proof. intros Hfind. unfold router_put, bind, load. rewrite Hfind. reflexivity. Qed.

(** C10.  Whatever the request body of [PUT /api/todos/:id] holds, a [type]
    field included, every todo of the collection is still there afterwards, at
    the same place, with the same [id], [type] and [createdAt]; the collection
    has the same length. *)
Theorem put_preserves_id_type_createdAt
        (rid : string) (body : Body.t) (w : World Todo) (j : nat) (t : Todo) :
  rows w !! j = Some t ->
  length (rows (snd (router_put rid body w))) = length (rows w)
  /\ exists t',
       rows (snd (router_put rid body w)) !! j = Some t'
       /\ id t' = id t /\ type t' = type t /\ createdAt t' = createdAt t.
Proof.
  intros Hj.
  destruct (findIndex (fun t => String.eqb (id t) rid) (rows w)) as [[index old]|] eqn:Hfind.
  - rewrite (router_put_found _ _ _ _ _ Hfind). simpl.
    split; [apply length_insert|].
    destruct (findIndex_Some _ _ _ _ Hfind) as [Hold _].
    destruct (decide (index = j)) as [->|Hne].
    + exists (put_todo (clock w) (ticks w) body old).
      rewrite list_lookup_insert_eq by (eapply lookup_lt_Some; eassumption).
      assert (old = t) as -> by congruence. repeat split; reflexivity.
    + exists t. rewrite list_lookup_insert_ne by assumption. repeat split; assumption.
  - rewrite (router_put_missing _ _ _ Hfind). simpl.
    split; [reflexivity|]. exists t. repeat split; assumption.
Qed.

Lemma put_preserves_id_type_createdAt_witness :
  length (rows (snd (router_put "id-0" (Samples.with_type "habit" Samples.bogus_priority)
                                Samples.one_pending)))
  = length (rows Samples.one_pending)
  /\ exists t',
       rows (snd (router_put "id-0" (Samples.with_type "habit" Samples.bogus_priority)
                             Samples.one_pending)) !! 0%nat = Some t'
       /\ id t' = "id-0" /\ type t' = JStr "task" /\ createdAt t' = 1764547200000.
Proof.
  exact (put_preserves_id_type_createdAt "id-0"
           (Samples.with_type "habit" Samples.bogus_priority) Samples.one_pending 0%nat
           _ eq_refl).
Defined.

(** ** Todos: completion *)

Lemma router_patch_found (rid : string) (w : World Todo) (index : nat) (old : Todo) :
  findIndex (fun t => String.eqb (id t) rid) (rows w) = Some (index, old) ->
  router_patch_complete rid w
  = (Success 200 (patch_todo (clock w) (ticks w) old),
     mkWorld (clock w) (uuids w)
             (if truthy (isCompleted old) then S (ticks w) else S (S (ticks w)))
             (draws w)
             (<[index := patch_todo (clock w) (ticks w) old]> (rows w))).
Proof.
  intros Hfind. unfold router_patch_complete, bind, load. rewrite Hfind.
  unfold patch_todo. destruct (truthy (isCompleted old)); reflexivity.
Qed.

Lemma router_patch_missing (rid : string) (w : World Todo) :
  findIndex (fun t => String.eqb (id t) rid) (rows w) = None ->
  router_patch_complete rid w = (Failure 404 "Todo not found", w).
Proof.
  intros Hfind. unfold router_patch_complete, bind, load. rewrite Hfind. reflexivity.
Qed.

(** Writing an element that still satisfies the predicate over the one found
    leaves the search result at the same index. *)
Lemma findIndex_insert {A} (p : A -> bool) (l : list A) (i : nat) (x y : A) :
  findIndex p l = Some (i, x) -> p y = true ->
  findIndex p (<[i := y]> l) = Some (i, y).
Proof.
  revert i. induction l as [|z l IH]; intros i; simpl; [discriminate|].
  destruct (p z) eqn:Hz.
  - intros [= <- <-] Hy. simpl. rewrite Hy. reflexivity.
  - destruct (findIndex p l) as [[k u]|] eqn:Hl; [|discriminate].
    intros [= <- <-] Hy. simpl. rewrite Hz, (IH k eq_refl Hy). reflexivity.
Qed.

Lemma toggle_twice_found (rid : string) (w : World Todo) (index : nat) (old : Todo) :
  findIndex (fun t => String.eqb (id t) rid) (rows w) = Some (index, old) ->
  exists t2,
    fst (router_patch_complete rid (snd (router_patch_complete rid w))) = Success 200 t2
    /\ rows (snd (router_patch_complete rid (snd (router_patch_complete rid w)))) !! index
       = Some t2
    /\ isCompleted t2 = JBool (truthy (isCompleted old))
    /\ (forall b, isCompleted old = JBool b -> isCompleted t2 = isCompleted old)
    /\ completedAt t2
       = (if truthy (isCompleted old) then Some (clock w (S (ticks w))) else None).
Proof.
  intros Hfind.
  destruct (findIndex_Some _ _ _ _ Hfind) as [Hold Hid].
  rewrite (router_patch_found _ _ _ _ Hfind). simpl.
  assert (Hfind' :
    findIndex (fun t => String.eqb (id t) rid)
              (<[index := patch_todo (clock w) (ticks w) old]> (rows w))
    = Some (index, patch_todo (clock w) (ticks w) old))
    by (apply (findIndex_insert _ _ _ old); [exact Hfind | exact Hid]).
  erewrite router_patch_found by exact Hfind'. simpl.
  eexists. split; [reflexivity|]. split.
  - rewrite list_lookup_insert_eq; [reflexivity|].
    rewrite length_insert. eapply lookup_lt_Some; eassumption.
  - simpl. destruct (truthy (isCompleted old)) eqn:Ht; simpl.
    + repeat split. intros b Hb. rewrite Hb in Ht |- *. simpl in Ht. congruence.
    + repeat split. intros b Hb. rewrite Hb in Ht |- *. simpl in Ht. congruence.
Qed.

(** C1, as amended.  For a todo [t] of the collection, the toggle addresses the
    first todo with [t]'s id ([t] itself when ids are distinct), and two
    toggles in succession bring its [isCompleted] back to the original
    completion state (to the original value itself when that is a boolean).
    [completedAt] is then null when the todo was pending at the start; when it
    was completed at the start, [completedAt] is the reading the second toggle
    takes of the clock. *)
Theorem toggle_twice (w : World Todo) (t : Todo) :
  In t (rows w) ->
  exists index old t2,
    findIndex (fun x => String.eqb (id x) (id t)) (rows w) = Some (index, old)
    /\ (NoDup (map id (rows w)) -> old = t)
    /\ fst (router_patch_complete (id t) (snd (router_patch_complete (id t) w)))
       = Success 200 t2
    /\ rows (snd (router_patch_complete (id t) (snd (router_patch_complete (id t) w))))
         !! index = Some t2
    /\ isCompleted t2 = JBool (truthy (isCompleted old))
    /\ (forall b, isCompleted old = JBool b -> isCompleted t2 = isCompleted old)
    /\ completedAt t2
       = (if truthy (isCompleted old) then Some (clock w (S (ticks w))) else None).
Proof.
  intros Hin.
  destruct (findIndex_In (fun x => String.eqb (id x) (id t)) (rows w) t Hin
                         (String.eqb_refl _)) as (index & old & Hfind).
  destruct (toggle_twice_found _ _ _ _ Hfind) as (t2 & H1 & H2 & H3 & H4 & H5).
  exists index, old, t2. split; [exact Hfind|]. split; [|auto].
  intros Hnodup. destruct (findIndex_Some _ _ _ _ Hfind) as [Hold Hid].
  apply String.eqb_eq in Hid.
  apply (NoDup_map_eq id (rows w)); auto.
  apply list_elem_of_In, list_elem_of_lookup. eauto.
Qed.

Lemma toggle_twice_witness :
  exists index old t2,
    findIndex (fun x => String.eqb (id x) "id-0") (rows Samples.one_pending)
    = Some (index, old)
    /\ (NoDup (map id (rows Samples.one_pending)) -> old = Samples.review_pr)
    /\ fst (router_patch_complete "id-0"
              (snd (router_patch_complete "id-0" Samples.one_pending)))
       = Success 200 t2
    /\ rows (snd (router_patch_complete "id-0"
                   (snd (router_patch_complete "id-0" Samples.one_pending))))
         !! index = Some t2
    /\ isCompleted t2 = JBool (truthy (isCompleted old))
    /\ (forall b, isCompleted old = JBool b -> isCompleted t2 = isCompleted old)
    /\ completedAt t2
       = (if truthy (isCompleted old)
          then Some (clock Samples.one_pending (S (ticks Samples.one_pending)))
          else None).
Proof.
  exact (toggle_twice Samples.one_pending Samples.review_pr (or_introl eq_refl)).
Defined.

(** C1 as stated fails: the todo [id-0] of the sample collection is completed;
    after two toggles it is completed again, with a [completedAt] that is not
    null. *)
Lemma toggle_twice_counterexample :
  exists t t2,
    rows Samples.one_completed !! 0%nat = Some t
    /\ id t = "id-0"
    /\ isCompleted t = JBool true
    /\ rows (serve [PATCH_complete "id-0"; PATCH_complete "id-0"] Samples.one_completed)
          !! 0%nat = Some t2
    /\ isCompleted t2 = JBool true
    /\ completedAt t2 = Some 1764547200005.
Proof. do 2 eexists. repeat split; reflexivity. Qed.

Lemma put_todo_consistent (c : nat -> Z) (k : nat) (body : Body.t) (old : Todo) :
  consistent old -> consistent (put_todo c k body old).
Proof.
  unfold consistent, put_todo, put_completes, merge. simpl.
  destruct (is_undefined (Body.isCompleted body)); simpl; [tauto|].
  destruct (truthy (Body.isCompleted body)) eqn:Hnew; simpl.
  - destruct (truthy (isCompleted old)); simpl; intros H; [tauto|].
    split; [reflexivity | discriminate].
  - intros _. split; [congruence | discriminate].
Qed.

Lemma patch_todo_consistent (c : nat -> Z) (k : nat) (old : Todo) :
  consistent (patch_todo c k old).
Proof.
  unfold consistent, patch_todo. simpl.
  destruct (truthy (isCompleted old)); simpl; split; congruence.
Qed.

(** Every handler keeps every todo of the array consistent. *)
Lemma handle_consistent (r : Request) (w : World Todo) :
  Forall consistent (rows w) -> Forall consistent (rows (snd (handle r w))).
Proof.
  intros Hall. destruct r as [body | rid body | rid | rid]; simpl.
  - destruct (router_post_cases body w) as [[_ ->] | [[_ [_ ->]] | [_ [_ [t [-> ->]]]]]];
      simpl; try assumption.
    apply Forall_app. split; [assumption|]. constructor; [|constructor].
    unfold consistent. simpl. split; [congruence | discriminate].
  - destruct (findIndex (fun t => String.eqb (id t) rid) (rows w)) as [[index old]|] eqn:Hfind.
    + rewrite (router_put_found _ _ _ _ _ Hfind). simpl.
      apply Forall_insert; [assumption|]. apply put_todo_consistent.
      destruct (findIndex_Some _ _ _ _ Hfind) as [Hold _].
      eapply Forall_lookup_1; eassumption.
    + rewrite (router_put_missing _ _ _ Hfind). assumption.
  - destruct (findIndex (fun t => String.eqb (id t) rid) (rows w)) as [[index old]|] eqn:Hfind.
    + rewrite (router_patch_found _ _ _ _ Hfind). simpl.
      apply Forall_insert; [assumption|]. apply patch_todo_consistent.
    + rewrite (router_patch_missing _ _ Hfind). assumption.
  - unfold router_delete, bind, load.
    destruct (findIndex (fun t => String.eqb (id t) rid) (rows w)) as [[index old]|];
      simpl; [|assumption].
    apply Forall_delete. assumption.
Qed.

Lemma serve_consistent (rs : list Request) (w : World Todo) :
  Forall consistent (rows w) -> Forall consistent (rows (serve rs w)).
Proof.
  revert w. induction rs as [|r rs IH]; intros w Hall; simpl; [assumption|].
  apply IH, handle_consistent, Hall.
Qed.

Lemma completion_step_same (stamp : Z) (t : Todo) :
  consistent t -> completion_step stamp t t.
Proof.
  unfold consistent, completion_step. intros [H1 H2]. repeat split.
  - congruence.
  - congruence.
  - intros Hf. destruct (completedAt t) eqn:E; [|reflexivity].
    assert (truthy (isCompleted t) = true) by (apply H1; discriminate). congruence.
  - auto.
Qed.

Lemma completion_step_put (c : nat -> Z) (k : nat) (body : Body.t) (old : Todo) :
  consistent old -> completion_step (c k) old (put_todo c k body old).
Proof.
  intros Hold. pose proof (put_todo_consistent c k body old Hold) as Hnew.
  revert Hold Hnew. unfold consistent, completion_step, put_todo, put_completes, merge.
  simpl.
  destruct (is_undefined (Body.isCompleted body)); simpl;
    destruct (truthy (Body.isCompleted body)); simpl;
    destruct (truthy (isCompleted old)); simpl;
    destruct (completedAt old); intros [H1 H2] [H3 H4];
    repeat split; intros; try congruence; try discriminate;
    try (exfalso; (assert (false = true) by (apply H1; discriminate)); discriminate);
    try (exfalso; apply H2; reflexivity).
Qed.

Lemma completion_step_patch (c : nat -> Z) (k : nat) (old : Todo) :
  consistent old -> completion_step (c k) old (patch_todo c k old).
Proof.
  unfold consistent, completion_step, patch_todo. simpl.
  destruct (truthy (isCompleted old)); simpl; destruct (completedAt old);
    intros [H1 H2]; repeat split; intros; try congruence; try discriminate.
  exfalso. assert (false = true) by (apply H1; discriminate). discriminate.
Qed.

Lemma serve_clock (rs : list Request) (w : World Todo) :
  clock (serve rs w) = clock w.
Proof.
  revert w. induction rs as [|r rs IH]; intros w; simpl; [reflexivity|].
  rewrite IH. destruct r as [body | rid body | rid | rid]; simpl.
  - destruct (router_post_cases body w) as [[_ ->] | [[_ [_ ->]] | [_ [_ [t [-> _]]]]]];
      reflexivity.
  - destruct (findIndex (fun t => String.eqb (id t) rid) (rows w)) as [[index old]|] eqn:Hfind.
    + rewrite (router_put_found _ _ _ _ _ Hfind). reflexivity.
    + rewrite (router_put_missing _ _ _ Hfind). reflexivity.
  - destruct (findIndex (fun t => String.eqb (id t) rid) (rows w)) as [[index old]|] eqn:Hfind.
    + rewrite (router_patch_found _ _ _ _ Hfind). reflexivity.
    + rewrite (router_patch_missing _ _ Hfind). reflexivity.
  - unfold router_delete, bind, load.
    destruct (findIndex (fun t => String.eqb (id t) rid) (rows w)) as [[index old]|];
      reflexivity.
Qed.

(** C2 fails on the code.  On the one pending todo of a collection,
    [PUT /api/todos/id-0] with the body [{ "isCompleted": "false" }] stores the
    string ["false"] as [isCompleted] and, the string being truthy, sets
    [completedAt] to the current instant: the todo has a non-null
    [completedAt] and an [isCompleted] that is not [true].  Update stores the
    [isCompleted] it is given, of whatever kind. *)
Theorem isCompleted_is_not_validated :
  exists todo,
    fst (router_put "id-0" (Samples.with_isCompleted (JStr "false") Samples.todo_body)
                    Samples.one_pending)
    = Success 200 todo
    /\ rows Samples.completed_by_text = [todo]
    /\ isCompleted todo = JStr "false"
    /\ strict_eq (isCompleted todo) (JBool true) = false
    /\ completedAt todo = Some 1764547200002.
Proof. eexists. repeat split; reflexivity. Qed.

(** X1.  The handlers test [isCompleted] for truthiness, and on that reading
    the invariant holds.  In every state the collection reaches from empty by
    create, update, toggle and delete requests, each todo has a non-null
    [completedAt] exactly when its [isCompleted] is truthy; a todo is created
    pending with a null [completedAt]; and an update or a toggle sets
    [completedAt] (to the current instant) on the step from pending to
    completed, leaves it null or clears it whenever the todo ends pending, and
    keeps it while the todo stays completed. *)
Theorem completedAt_iff_isCompleted (c : nat -> Z) (u : nat -> string) (rs : list Request) :
  (forall t, In t (rows (serve rs (boot c u))) ->
             completedAt t <> None <-> truthy (isCompleted t) = true)
  /\ (forall body todo,
        fst (router_post body (serve rs (boot c u))) = Success 201 todo ->
        isCompleted todo = JBool false /\ completedAt todo = None)
  /\ (forall r i t t',
        rewrites_in_place r = true ->
        rows (serve rs (boot c u)) !! i = Some t ->
        rows (snd (handle r (serve rs (boot c u)))) !! i = Some t' ->
        completion_step (c (ticks (serve rs (boot c u)))) t t').
Proof.
  assert (Hall : Forall consistent (rows (serve rs (boot c u))))
    by (apply serve_consistent; constructor).
  pose proof (serve_clock rs (boot c u)) as Hclock. simpl in Hclock.
  set (w := serve rs (boot c u)) in *.
  split; [|split].
  - intros t Ht. rewrite Forall_forall in Hall. apply (Hall t).
    apply list_elem_of_In. exact Ht.
  - intros body todo.
    destruct (router_post_cases body w) as [[_ ->] | [[_ [_ ->]] | [_ [_ [t [-> ->]]]]]];
      simpl; [discriminate | discriminate |].
    intros [= <-]. split; reflexivity.
  - intros r i t t' Hr Ht Ht'.
    assert (Hcons : consistent t) by (eapply Forall_lookup_1; eassumption).
    destruct r as [body | rid body | rid | rid]; try discriminate Hr; simpl in Ht'.
    + destruct (findIndex (fun t => String.eqb (id t) rid) (rows w))
        as [[index old]|] eqn:Hfind.
      * rewrite (router_put_found _ _ _ _ _ Hfind) in Ht'. simpl in Ht'.
        destruct (findIndex_Some _ _ _ _ Hfind) as [Hold _].
        destruct (decide (index = i)) as [->|Hne].
        -- rewrite list_lookup_insert_eq in Ht' by (eapply lookup_lt_Some; eassumption).
           assert (old = t) as -> by congruence.
           injection Ht' as <-. rewrite <- Hclock. apply completion_step_put, Hcons.
        -- rewrite list_lookup_insert_ne in Ht' by assumption.
           assert (t' = t) as -> by congruence. apply completion_step_same, Hcons.
      * rewrite (router_put_missing _ _ _ Hfind) in Ht'. simpl in Ht'.
        assert (t' = t) as -> by congruence. apply completion_step_same, Hcons.
    + destruct (findIndex (fun t => String.eqb (id t) rid) (rows w))
        as [[index old]|] eqn:Hfind.
      * rewrite (router_patch_found _ _ _ _ Hfind) in Ht'. simpl in Ht'.
        destruct (findIndex_Some _ _ _ _ Hfind) as [Hold _].
        destruct (decide (index = i)) as [->|Hne].
        -- rewrite list_lookup_insert_eq in Ht' by (eapply lookup_lt_Some; eassumption).
           assert (old = t) as -> by congruence.
           injection Ht' as <-. rewrite <- Hclock. apply completion_step_patch, Hcons.
        -- rewrite list_lookup_insert_ne in Ht' by assumption.
           assert (t' = t) as -> by congruence. apply completion_step_same, Hcons.
      * rewrite (router_patch_missing _ _ Hfind) in Ht'. simpl in Ht'.
        assert (t' = t) as -> by congruence. apply completion_step_same, Hcons.
Qed.

Lemma completedAt_iff_isCompleted_witness :
  (forall t, In t (rows Samples.one_pending) ->
             completedAt t <> None <-> truthy (isCompleted t) = true)
  /\ exists t',
       rows (snd (handle (PUT "id-0" (Samples.with_isCompleted (JBool true) Samples.todo_body))
                         Samples.one_pending)) !! 0%nat = Some t'
       /\ completion_step (Samples.ticking_clock 2) Samples.review_pr t'
       /\ isCompleted t' = JBool true
       /\ completedAt t' = Some 1764547200002.
Proof.
  destruct (completedAt_iff_isCompleted Samples.ticking_clock Samples.counter_uuids
              [POST (Samples.with_title "Review PR" Samples.todo_body)])
    as (Hinv & _ & Hstep).
  split; [exact Hinv|].
  eexists. split; [reflexivity|]. split; [|split; reflexivity].
  apply (Hstep (PUT "id-0" (Samples.with_isCompleted (JBool true) Samples.todo_body))
               0%nat Samples.review_pr); reflexivity.
Defined.

End TodosFacts.

(** ** Timestamps *)

Module NotesFacts.
Import Notes NotesSpec.

Lemma note_post_cases (body : Body.t) (w : World Note) :
  (truthy (Body.title body) = false /\
   router_post body w = (Failure 400 "Title is required", w))
  \/ (truthy (Body.title body) = true /\
      exists note,
        router_post body w
        = (Success 201 note,
           mkWorld (clock w) (uuids w) (S (S (ticks w))) (S (draws w))
                   (rows w ++ [note])%list) /\
        note = mkNote (uuids w (draws w)) (Body.title body)
                 (or_default (Body.content body) (JStr ""))
                 (or_default (Body.tags body) (JArr []))
                 (or_default (Body.isPinned body) (JBool false))
                 (clock w (ticks w)) (clock w (S (ticks w)))).
Proof.
  unfold router_post.
  destruct (truthy (Body.title body)) eqn:Ht; cbn [negb]; [right | left; auto].
  split; [reflexivity|]. eexists. split; reflexivity.
Qed.

Lemma note_put_cases (rid : string) (body : Body.t) (w : World Note) :
  (findIndex (fun n => String.eqb (id n) rid) (rows w) = None /\
   router_put rid body w = (Failure 404 "Note not found", w))
  \/ (exists index old,
        findIndex (fun n => String.eqb (id n) rid) (rows w) = Some (index, old) /\
        router_put rid body w
        = (Success 200 (put_note (clock w (ticks w)) body old),
           mkWorld (clock w) (uuids w) (S (ticks w)) (draws w)
                   (<[index := put_note (clock w (ticks w)) body old]> (rows w)))).
Proof.
  unfold router_put, bind, load.
  destruct (findIndex (fun n => String.eqb (id n) rid) (rows w)) as [[index old]|] eqn:Hfind.
  - right. exists index, old. split; reflexivity.
  - left. split; reflexivity.
Qed.

Lemma stamped_later (c : nat -> Z) (k k' : nat) (n : Note) :
  (k <= k')%nat -> stamped c k n -> stamped c k' n.
Proof.
  intros Hk (i & j & Hij & Hj & Hc & Hu). exists i, j. repeat split; auto; lia.
Qed.

Lemma handle_stamped (r : Request) (w : World Note) :
  Forall (stamped (clock w) (ticks w)) (rows w) ->
  clock (snd (handle r w)) = clock w
  /\ Forall (stamped (clock w) (ticks (snd (handle r w)))) (rows (snd (handle r w))).
Proof.
  intros Hall. destruct r as [body | rid body | rid]; simpl.
  - destruct (note_post_cases body w) as [[_ ->] | [_ [n [-> ->]]]]; simpl;
      (split; [reflexivity|]); [assumption|].
    apply Forall_app. split.
    + eapply Forall_impl; [exact Hall|]. intros n. apply stamped_later. lia.
    + constructor; [|constructor].
      exists (ticks w), (S (ticks w)). simpl. repeat split; lia.
  - destruct (note_put_cases rid body w)
      as [[_ ->] | (index & old & Hfind & ->)]; simpl;
      (split; [reflexivity|]); [assumption|].
    destruct (findIndex_Some _ _ _ _ Hfind) as [Hold _].
    apply Forall_insert.
    + eapply Forall_impl; [exact Hall|]. intros n. apply stamped_later. lia.
    + pose proof (Forall_lookup_1 _ _ _ _ Hall Hold) as (i & j & Hij & Hj & Hc & _).
      exists i, (ticks w). simpl. repeat split; auto; lia.
  - unfold router_delete, bind, load.
    destruct (findIndex (fun n => String.eqb (id n) rid) (rows w)) as [[index old]|];
      simpl; (split; [reflexivity|]); [|assumption].
    apply Forall_delete. assumption.
Qed.

Lemma serve_stamped (rs : list Request) (w : World Note) :
  Forall (stamped (clock w) (ticks w)) (rows w) ->
  Forall (stamped (clock w) (ticks (serve rs w))) (rows (serve rs w)).
Proof.
  revert w. induction rs as [|r rs IH]; intros w Hall; simpl; [assumption|].
  destruct (handle_stamped r w Hall) as [Hc Hs].
  rewrite <- Hc in Hs |- *. apply IH. exact Hs.
Qed.

Lemma monotone_le (c : nat -> Z) :
  (forall n, c n <= c (S n)) -> forall i j, (i <= j)%nat -> c i <= c j.
Proof.
  intros Hmono i j Hij. induction Hij as [|j Hij IH]; [lia|].
  specialize (Hmono j). lia.
Qed.

End NotesFacts.

(** C9, as amended.  A created note or todo gets as [createdAt] the reading of
    the clock taken first and as [updatedAt] the reading taken next, so the
    two are equal whenever the clock does not advance between the two
    readings; and when the clock never goes backwards, [createdAt] is at most
    [updatedAt] at creation and in every note of every reachable state. *)
Theorem created_then_updated :
  (forall (body : Notes.Body.t) (w : World Notes.Note) (note : Notes.Note),
      fst (Notes.router_post body w) = Success 201 note ->
      Notes.createdAt note = clock w (ticks w)
      /\ Notes.updatedAt note = clock w (S (ticks w))
      /\ (clock w (S (ticks w)) = clock w (ticks w) ->
          Notes.createdAt note = Notes.updatedAt note)
      /\ (clock w (ticks w) <= clock w (S (ticks w)) ->
          Notes.createdAt note <= Notes.updatedAt note))
  /\ (forall (body : Todos.Body.t) (w : World Todos.Todo) (todo : Todos.Todo),
        fst (Todos.router_post body w) = Success 201 todo ->
        Todos.createdAt todo = clock w (ticks w)
        /\ Todos.updatedAt todo = clock w (S (ticks w))
        /\ (clock w (S (ticks w)) = clock w (ticks w) ->
            Todos.createdAt todo = Todos.updatedAt todo)
        /\ (clock w (ticks w) <= clock w (S (ticks w)) ->
            Todos.createdAt todo <= Todos.updatedAt todo))
  /\ (forall (c : nat -> Z) (u : nat -> string) (rs : list Notes.Request) (note : Notes.Note),
        (forall n, c n <= c (S n)) ->
        In note (rows (Notes.serve rs (boot c u))) ->
        Notes.createdAt note <= Notes.updatedAt note).
Proof.
  split; [|split].
  - intros body w note.
    destruct (NotesFacts.note_post_cases body w) as [[_ ->] | [_ [n [-> ->]]]]; simpl;
      [discriminate|].
    intros [= <-]. simpl. repeat split; auto; lia.
  - intros body w todo.
    destruct (TodosFacts.router_post_cases body w)
      as [[_ ->] | [[_ [_ ->]] | [_ [_ [t [-> ->]]]]]];
      simpl; [discriminate | discriminate |].
    intros [= <-]. simpl. repeat split; auto; lia.
  - intros c u rs note Hmono Hin.
    pose proof (NotesFacts.serve_stamped rs (boot c u)) as Hall. simpl in Hall.
    specialize (Hall (List.Forall_nil _)). rewrite Forall_forall in Hall.
    destruct (Hall note) as (i & j & Hij & _ & -> & ->).
    + apply list_elem_of_In. exact Hin.
    + apply NotesFacts.monotone_le; assumption.
Qed.

Lemma created_then_updated_witness :
  exists note,
    fst (Notes.router_post
           (Notes.Body.mk (JStr "Minutes") JUndefined JUndefined JUndefined)
           (boot Samples.frozen_clock Samples.counter_uuids))
    = Success 201 note
    /\ Notes.createdAt note = Notes.updatedAt note.
Proof.
  eexists. split; [reflexivity|].
  destruct created_then_updated as [Hnote _].
  destruct (Hnote (Notes.Body.mk (JStr "Minutes") JUndefined JUndefined JUndefined)
                  (boot Samples.frozen_clock Samples.counter_uuids) _ eq_refl)
    as (_ & _ & Hequal & _).
  apply Hequal. reflexivity.
Defined.

(** C9 as stated fails: with a clock that advances between the two readings,
    [{ "title": "Minutes" }] creates a note, and [{ "title": "Review PR" }] a
    todo, whose [updatedAt] is one millisecond after its [createdAt]. *)
Lemma created_then_updated_counterexample :
  (exists note,
      fst (Notes.router_post
             (Notes.Body.mk (JStr "Minutes") JUndefined JUndefined JUndefined)
             (boot Samples.ticking_clock Samples.counter_uuids))
      = Success 201 note
      /\ Notes.createdAt note = 1764547200000
      /\ Notes.updatedAt note = 1764547200001)
  /\ (exists todo,
        fst (Todos.router_post (Samples.with_title "Review PR" Samples.todo_body)
                               Samples.todos0)
        = Success 201 todo
        /\ Todos.createdAt todo = 1764547200000
        /\ Todos.updatedAt todo = 1764547200001).
Proof. split; eexists; repeat split; reflexivity. Qed.

(** ** Strings *)

Section Strings.

Lemma append_cons (c : ascii) (a b : string) :
  String c a +:+ b = String c (a +:+ b).
Proof. reflexivity. Qed.

Lemma prefix_spec (needle hay : string) :
  String.prefix needle hay = true <-> exists post, hay = needle +:+ post.
Proof.
  revert hay. induction needle as [|a needle IH]; intros hay.
  - destruct hay; simpl; split; eauto.
  - destruct hay as [|b hay]; simpl.
    + split; [discriminate | intros [post H]; discriminate].
    + destruct (ascii_dec a b) as [->|Hne].
      * rewrite IH. split; intros [post H]; exists post;
          rewrite append_cons in *; congruence.
      * split; [discriminate|]. intros [post H]. rewrite append_cons in H. congruence.
Qed.

(** [hay.includes(needle)] holds exactly when [needle] occurs in [hay]. *)
Lemma str_includes_spec (hay needle : string) :
  str_includes hay needle = true
  <-> exists pre post, hay = pre +:+ needle +:+ post.
Proof.
  induction hay as [|c hay IH].
  - change (str_includes "" needle) with (String.prefix needle "" || false).
    rewrite orb_false_r, prefix_spec. split.
    + intros [post H]. exists "", post. exact H.
    + intros [pre [post H]]. destruct pre; [exists post; exact H | discriminate].
  - change (str_includes (String c hay) needle)
      with (String.prefix needle (String c hay) || str_includes hay needle).
    rewrite orb_true_iff, prefix_spec, IH. split.
    + intros [[post H] | [pre [post H]]].
      * exists "", post. exact H.
      * exists (String c pre), post. rewrite append_cons. congruence.
    + intros [[|c' pre] [post H]].
      * left. exists post. exact H.
      * right. exists pre, post. rewrite append_cons in H. congruence.
Qed.

Lemma lowercase_app (a b : string) :
  Latin.lowercase (a +:+ b) = Latin.lowercase a +:+ Latin.lowercase b.
Proof.
  induction a as [|c a IH]; [reflexivity|].
  rewrite append_cons. simpl. rewrite append_cons. congruence.
Qed.

Lemma lowercase_app_inv (s x y : string) :
  Latin.lowercase s = x +:+ y ->
  exists a b, s = a +:+ b /\ Latin.lowercase a = x /\ Latin.lowercase b = y.
Proof.
  revert s. induction x as [|c x IH]; intros s H.
  - exists "", s. auto.
  - rewrite append_cons in H. destruct s as [|d s]; simpl in H; [discriminate|].
    injection H as Hc Hs. destruct (IH s Hs) as (a & b & -> & <- & <-).
    exists (String d a), b. simpl. rewrite Hc. auto.
Qed.

(** A test for [Latin.plain]. *)
Lemma plain_test (s : string) :
  forallb (fun c => (nat_of_ascii c <? 128)%nat) (list_ascii_of_string s) = true ->
  Latin.plain s.
Proof.
  induction s as [|c s IH]; simpl; [tauto|].
  intros H. apply andb_true_iff in H. destruct H as [Hc Hs].
  split; [apply Nat.ltb_lt, Hc | apply IH, Hs].
Qed.

Lemma bytes_complete (a : ascii) : In a bytes.
Proof.
  rewrite <- (ascii_nat_embedding a). apply in_map, in_seq.
  pose proof (nat_ascii_bounded a). lia.
Qed.

Lemma same_letterb_spec (a b : ascii) : same_letterb a b = true <-> same_letter a b.
Proof.
  unfold same_letterb, same_letter.
  rewrite !orb_true_iff, !existsb_exists, Ascii.eqb_eq. split.
  - intros [[H | ([x y] & Hin & H)] | ([x y] & Hin & H)]; [tauto | |];
      apply andb_true_iff in H; destruct H as [H1 H2];
      apply Ascii.eqb_eq in H1, H2; simpl in H1, H2; subst; tauto.
  - intros [H | [H | H]]; [tauto | left; right | right].
    + exists (a, b). simpl. rewrite !Ascii.eqb_refl. auto.
    + exists (b, a). simpl. rewrite !Ascii.eqb_refl. auto.
Qed.

(** Two bytes have the same small form exactly when they are the same
    letter: checked on the 256 x 256 pairs. *)
Lemma small_same_letter (a b : ascii) :
  Latin.small a = Latin.small b <-> same_letter a b.
Proof.
  assert (Hall :
    forallb (fun x =>
      forallb (fun y =>
        Bool.eqb (Ascii.eqb (Latin.small x) (Latin.small y)) (same_letterb x y)) bytes)
      bytes = true) by (vm_compute; reflexivity).
  rewrite forallb_forall in Hall. specialize (Hall a (bytes_complete a)).
  rewrite forallb_forall in Hall. specialize (Hall b (bytes_complete b)).
  apply Bool.eqb_prop in Hall.
  rewrite <- same_letterb_spec, <- Hall. apply iff_sym, Ascii.eqb_eq.
Qed.

Lemma lowercase_same (m n : string) :
  Latin.lowercase m = Latin.lowercase n <-> same_ignoring_case m n.
Proof.
  revert n. induction m as [|x m IH]; intros [|y n]; simpl;
    try (split; [discriminate | tauto]); [tauto|].
  rewrite <- IH, <- small_same_letter. split.
  - intros [= H1 H2]. auto.
  - intros [-> ->]. reflexivity.
Qed.

(** Lowering both sides before [includes] is searching up to the case of the
    letters. *)
Lemma lowercase_includes_spec (hay needle : string) :
  str_includes (Latin.lowercase hay) (Latin.lowercase needle) = true
  <-> occurs_ignoring_case needle hay.
Proof.
  rewrite str_includes_spec. unfold occurs_ignoring_case. split.
  - intros (pre & post & H).
    destruct (lowercase_app_inv _ _ _ H) as (a & rest & -> & <- & Hrest).
    destruct (lowercase_app_inv _ _ _ Hrest) as (m & b & -> & Hm & <-).
    exists a, m, b. split; [reflexivity|]. apply lowercase_same, Hm.
  - intros (pre & mid & post & -> & Hm). apply lowercase_same in Hm.
    exists (Latin.lowercase pre), (Latin.lowercase post).
    rewrite !lowercase_app, Hm. reflexivity.
Qed.

End Strings.

(** ** Sorting *)

Section Insertion.
Context {A : Type} (leb : A -> A -> bool).

Lemma insert_by_perm (x : A) (l : list A) : Permutation (x :: l) (insert_by leb x l).
Proof.
  induction l as [|y l IH]; simpl; [reflexivity|].
  destruct (leb x y); [reflexivity|].
  rewrite perm_swap. apply perm_skip, IH.
Qed.

Lemma isort_perm (l : list A) : Permutation l (isort leb l).
Proof.
  induction l as [|x l IH]; simpl; [reflexivity|].
  rewrite <- insert_by_perm. apply perm_skip, IH.
Qed.

Hypothesis leb_total : forall x y, leb x y = true \/ leb y x = true.
Hypothesis leb_trans : forall x y z, leb x y = true -> leb y z = true -> leb x z = true.

Lemma insert_by_sorted (x : A) (l : list A) :
  StronglySorted (fun a b => leb a b = true) l ->
  StronglySorted (fun a b => leb a b = true) (insert_by leb x l).
Proof.
  induction l as [|y l IH]; simpl; intros Hs.
  - constructor; [constructor | constructor].
  - inversion Hs as [|? ? Hs' Hall]; subst.
    destruct (leb x y) eqn:Hxy.
    + constructor; [exact Hs|]. constructor; [exact Hxy|].
      eapply Forall_impl; [exact Hall|]. intros z Hz. eapply leb_trans; eassumption.
    + constructor; [apply IH, Hs'|].
      assert (Hyx : leb y x = true) by (destruct (leb_total x y); congruence).
      rewrite <- (insert_by_perm x l). constructor; assumption.
Qed.

Lemma isort_sorted (l : list A) : StronglySorted (fun a b => leb a b = true) (isort leb l).
Proof.
  induction l as [|x l IH]; simpl; [constructor | apply insert_by_sorted, IH].
Qed.

(** Stability: the elements that tie with a given one come out in the order
    they went in.  [same k] selects a class of elements that tie with one
    another, so an element of the class is never moved past another. *)
Lemma insert_by_stable (same : A -> bool) (x : A) (l : list A) :
  (forall a b, same a = true -> same b = true -> leb a b = true) ->
  List.filter same (insert_by leb x l) = List.filter same (x :: l).
Proof.
  intros Hsame. induction l as [|y l IH]; simpl; [reflexivity|].
  destruct (leb x y) eqn:Hxy; [reflexivity|].
  simpl. simpl in IH. rewrite IH.
  destruct (same x) eqn:Hx; [|reflexivity].
  destruct (same y) eqn:Hy; [|reflexivity].
  rewrite (Hsame x y Hx Hy) in Hxy. discriminate.
Qed.

Lemma isort_stable (same : A -> bool) (l : list A) :
  (forall a b, same a = true -> same b = true -> leb a b = true) ->
  List.filter same (isort leb l) = List.filter same l.
Proof.
  intros Hsame. induction l as [|x l IH]; simpl; [reflexivity|].
  rewrite (insert_by_stable same x (isort leb l) Hsame). simpl. rewrite IH. reflexivity.
Qed.

End Insertion.

Lemma insert_by_ext {A} (leb leb' : A -> A -> bool) (x : A) (l : list A) :
  (forall y, In y l -> leb x y = leb' x y) -> insert_by leb x l = insert_by leb' x l.
Proof.
  induction l as [|y l IH]; simpl; intros H; [reflexivity|].
  rewrite <- (H y) by auto. destruct (leb x y); [reflexivity|].
  f_equal. apply IH. auto.
Qed.

Lemma isort_ext {A} (leb leb' : A -> A -> bool) (l : list A) :
  (forall x y, In x l -> In y l -> leb x y = leb' x y) -> isort leb l = isort leb' l.
Proof.
  induction l as [|x l IH]; simpl; intros H; [reflexivity|].
  rewrite <- IH by auto. apply insert_by_ext.
  intros y Hy. apply H; [auto|]. right.
  eapply Permutation_in; [symmetry; apply isort_perm | exact Hy].
Qed.

(** ** Todos: the list *)

Module ListingFacts.
Import Todos TodosSpec ListingSpec.

(** *** Filtering and sorting with callbacks that can throw *)

Lemma filter_with_incl {A} (p : A -> option bool) (l r : list A) :
  filter_with p l = Some r -> incl r l.
Proof.
  revert r. induction l as [|x l IH]; simpl; intros r.
  - intros [= <-]. apply incl_refl.
  - destruct (p x) as [keep|]; simpl; [|discriminate].
    destruct (filter_with p l) as [r'|]; simpl; [|discriminate].
    specialize (IH r' eq_refl). intros [= <-]. destruct keep.
    + intros y [<-|Hy]; [left; reflexivity | right; apply IH, Hy].
    + intros y Hy. right. apply IH, Hy.
Qed.

Lemma filter_with_total {A} (p : A -> option bool) (l : list A) :
  (forall x, In x l -> is_Some (p x)) ->
  filter_with p l = Some (List.filter (fun x => answer (p x)) l).
Proof.
  induction l as [|x l IH]; simpl; intros H; [reflexivity|].
  destruct (H x (or_introl eq_refl)) as [keep Hk]. rewrite Hk. simpl.
  rewrite IH by auto. simpl. reflexivity.
Qed.



Lemma sort_insert_total {A} (cmp : A -> A -> option num) (x : A) (l : list A) :
  (forall y, In y l -> is_Some (cmp x y)) ->
  sort_insert cmp x l = Some (insert_by (leb_of cmp) x l).
Proof.
  induction l as [|y l IH]; simpl; intros H; [reflexivity|].
  unfold leb_of at 1. destruct (H y (or_introl eq_refl)) as [v Hv]. rewrite Hv. simpl.
  destruct (keeps_order v); [reflexivity|].
  rewrite IH by auto. reflexivity.
Qed.

Lemma sort_total {A} (cmp : A -> A -> option num) (l : list A) :
  (forall x y, In x l -> In y l -> is_Some (cmp x y)) ->
  sort cmp l = Some (isort (leb_of cmp) l).
Proof.
  induction l as [|x l IH]; simpl; intros H; [reflexivity|].
  rewrite IH by auto. simpl. apply sort_insert_total.
  intros y Hy. apply H; [auto|]. right.
  eapply Permutation_in; [symmetry; apply isort_perm | exact Hy].
Qed.

(** *** Filters keep the stored order *)

Lemma filter_sublist {A} (f : A -> bool) (l : list A) : sublist (List.filter f l) l.
Proof.
  induction l as [|x l IH]; simpl; [constructor|].
  destruct (f x); constructor; exact IH.
Qed.

Lemma filter_with_sublist {A} (p : A -> option bool) (l r : list A) :
  filter_with p l = Some r -> sublist r l.
Proof.
  revert r. induction l as [|x l IH]; simpl; intros r.
  - intros [= <-]. constructor.
  - destruct (p x) as [keep|]; simpl; [|discriminate].
    destruct (filter_with p l) as [r'|]; simpl; [|discriminate].
    specialize (IH r' eq_refl). intros [= <-]. destruct keep; constructor; exact IH.
Qed.

Lemma sublist_incl {A} (l1 l2 : list A) : sublist l1 l2 -> incl l1 l2.
Proof.
  induction 1 as [|x l1 l2 _ IH|x l1 l2 _ IH]; intros y Hy.
  - exact Hy.
  - destruct Hy as [<-|Hy]; [left; reflexivity | right; apply IH, Hy].
  - right. apply IH, Hy.
Qed.

(** What the seven filters keep is the stored array with some todos left
    out: no filter moves a todo. *)
Lemma apply_filters_sublist (parse : string -> num) (lowercase : string -> string)
      (q : Query.t) (todos r : list Todo) :
  apply_filters parse lowercase q todos = Some r -> sublist r todos.
Proof.
  unfold apply_filters.
  set (f1 := if truthy (Query.type q) then _ else todos).
  set (f2 := if truthy (Query.priority q) then _ else f1).
  set (f3 := if negb (is_undefined (Query.completed q)) then _ else f2).
  assert (H1 : sublist f1 todos)
    by (subst f1; destruct (truthy (Query.type q)); [apply filter_sublist | reflexivity]).
  assert (H2 : sublist f2 todos).
  { subst f2. destruct (truthy (Query.priority q)); [|exact H1].
    etransitivity; [apply filter_sublist | exact H1]. }
  assert (H3 : sublist f3 todos).
  { subst f3. destruct (negb (is_undefined (Query.completed q))); [|exact H2].
    etransitivity; [apply filter_sublist | exact H2]. }
  clearbody f3. clear f1 f2 H1 H2.
  destruct (truthy (Query.tag q)); simpl.
  all: repeat match goal with
       | |- context [filter_with ?p ?l] =>
           let E := fresh "E" in
           destruct (filter_with p l) as [?|] eqn:E; simpl;
           [apply filter_with_sublist in E | try discriminate]
       | |- context [if truthy ?v then _ else _] => destruct (truthy v); simpl
       | |- context [toLowerCase ?f ?v] =>
           destruct (toLowerCase f v); simpl; try discriminate
       end.
  all: try discriminate.
  all: intros [= <-]; repeat (etransitivity; [eassumption|]); try assumption;
       try reflexivity.
Qed.

Lemma apply_filters_incl (parse : string -> num) (lowercase : string -> string)
      (q : Query.t) (todos r : list Todo) :
  apply_filters parse lowercase q todos = Some r -> incl r todos.
Proof. intros H. apply sublist_incl, (apply_filters_sublist _ _ _ _ _ H). Qed.

(** *** The reply's [meta] *)

Lemma handle_valid_types (r : Request) (w : World Todo) :
  Forall (fun t => is_valid_type (type t)) (rows w) ->
  Forall (fun t => is_valid_type (type t)) (rows (snd (handle r w))).
Proof.
  intros Hall. destruct r as [body | rid body | rid | rid]; simpl.
  - destruct (TodosFacts.router_post_cases body w)
      as [[_ ->] | [[_ [_ ->]] | [_ [Hok [t [-> ->]]]]]]; simpl; try assumption.
    apply Forall_app. split; [assumption|]. constructor; [exact Hok | constructor].
  - destruct (findIndex (fun t => String.eqb (id t) rid) (rows w)) as [[index old]|] eqn:Hfind.
    + rewrite (TodosFacts.router_put_found _ _ _ _ _ Hfind). simpl.
      apply Forall_insert; [assumption|]. simpl.
      destruct (findIndex_Some _ _ _ _ Hfind) as [Hold _].
      apply (Forall_lookup_1 _ _ _ _ Hall Hold).
    + rewrite (TodosFacts.router_put_missing _ _ _ Hfind). assumption.
  - destruct (findIndex (fun t => String.eqb (id t) rid) (rows w)) as [[index old]|] eqn:Hfind.
    + rewrite (TodosFacts.router_patch_found _ _ _ _ Hfind). simpl.
      apply Forall_insert; [assumption|]. simpl.
      destruct (findIndex_Some _ _ _ _ Hfind) as [Hold _].
      apply (Forall_lookup_1 _ _ _ _ Hall Hold).
    + rewrite (TodosFacts.router_patch_missing _ _ Hfind). assumption.
  - unfold router_delete, bind, load.
    destruct (findIndex (fun t => String.eqb (id t) rid) (rows w)) as [[index old]|];
      simpl; [|assumption].
    apply Forall_delete. assumption.
Qed.

(** Every stored todo has one of the seven types: [type] is validated at
    creation and no handler writes it afterwards. *)
Lemma serve_valid_types (rs : list Request) (w : World Todo) :
  Forall (fun t => is_valid_type (type t)) (rows w) ->
  Forall (fun t => is_valid_type (type t)) (rows (serve rs w)).
Proof.
  revert w. induction rs as [|r rs IH]; intros w Hall; simpl; [assumption|].
  apply IH, handle_valid_types, Hall.
Qed.





(** *** Which todos are listed *)

(** One stage of the handler with a callback that cannot throw. *)
Lemma stage_filter {A} (cond : bool) (f : A -> bool) (l : list A) (t : A) :
  In t (if cond then List.filter f l else l) <-> In t l /\ (cond = true -> f t = true).
Proof.
  destruct cond.
  - rewrite filter_In. intuition.
  - intuition discriminate.
Qed.

(** One stage with a callback that answers on every element present. *)
Lemma stage_filter_with {A} (cond : bool) (p : A -> option bool) (l : list A) :
  (cond = true -> forall x, In x l -> is_Some (p x)) ->
  exists r, (if cond then filter_with p l else Some l) = Some r
    /\ incl r l
    /\ forall t, In t r <-> In t l /\ (cond = true -> p t = Some true).
Proof.
  intros Hsome. destruct cond.
  - rewrite (filter_with_total p l (Hsome eq_refl)). eexists. split; [reflexivity|].
    split; [apply incl_filter|].
    intros t. rewrite filter_In. split.
    + intros [Hin Ht]. split; [exact Hin|]. intros _.
      destruct (Hsome eq_refl t Hin) as [b Hb]. rewrite Hb in Ht |- *. simpl in Ht.
      congruence.
    + intros [Hin Ht]. split; [exact Hin|]. rewrite (Ht eq_refl). reflexivity.
  - exists l. split; [reflexivity|]. split; [apply incl_refl|].
    intros t. intuition discriminate.
Qed.

Lemma strict_eq_JBool_r (b : bool) (v : JsValue) :
  strict_eq v (JBool b) = true <-> v = JBool b.
Proof.
  destruct v; simpl; try (split; [discriminate | intros [=]]).
  rewrite Bool.eqb_true_iff. split; [intros ->; reflexivity | intros [= ->]; reflexivity].
Qed.

Lemma includes_array_text (elems : list JsValue) (s : string) :
  includes (JArr elems) (JStr s) = Some true <-> In (JStr s) elems.
Proof.
  simpl. split.
  - intros [= H]. apply existsb_exists in H. destruct H as [e [He Heq]].
    apply strict_eq_JStr_r in Heq. subst. exact He.
  - intros H. f_equal. apply existsb_exists. exists (JStr s). split; [exact H|].
    apply strict_eq_JStr_r. reflexivity.
Qed.

Lemma search_hit_text (lowercase : string -> string) (s x y : string) (t : Todo) :
  folds_basic_latin lowercase ->
  Latin.plain s -> Latin.plain x -> Latin.plain y ->
  title t = JStr x -> description t = JStr y ->
  search_hit lowercase (lowercase s) t = Some true
  <-> occurs_ignoring_case s x \/ occurs_ignoring_case s y.
Proof.
  intros Hfold Ps Px Py Hx Hy. unfold search_hit. rewrite Hx, Hy. simpl.
  rewrite (Hfold s Ps), (Hfold x Px), (Hfold y Py).
  rewrite <- !lowercase_includes_spec.
  destruct (str_includes (Latin.lowercase x) (Latin.lowercase s)); simpl.
  - split; auto.
  - split; [intros [= ->]; auto | intros [H|H]; [discriminate | congruence]].
Qed.

Section Dates.
Context (parse : string -> num).
Hypothesis parse_empty : parse "" = NaN.

Lemma due_before_text (b : string) (t : Todo) :
  dueDate t = JNull \/ text (dueDate t) ->
  due_before parse (JStr b) t = Some true
  <-> exists d bound, due_time parse (dueDate t) = Some d
        /\ due_time parse (JStr b) = Some bound /\ d <= bound.
Proof.
  unfold due_before. intros [-> | [s ->]]; simpl.
  - split; [discriminate | intros (d & bound & H & _); discriminate].
  - destruct s as [|c s]; simpl.
    + rewrite parse_empty. split; [discriminate | intros (d & bound & H & _); discriminate].
    + destruct (parse (String c s)) as [|d]; simpl;
        [split; [discriminate | intros (? & ? & H & _); discriminate]|].
      destruct (parse b) as [|bound]; simpl;
        [split; [discriminate | intros (? & ? & _ & H & _); discriminate]|].
      split.
      * intros [= H]. exists d, bound. apply Z.leb_le in H. auto.
      * intros (d' & b' & [= <-] & [= <-] & H). f_equal. apply Z.leb_le. exact H.
Qed.

Lemma due_after_text (b : string) (t : Todo) :
  dueDate t = JNull \/ text (dueDate t) ->
  due_after parse (JStr b) t = Some true
  <-> exists d bound, due_time parse (dueDate t) = Some d
        /\ due_time parse (JStr b) = Some bound /\ d >= bound.
Proof.
  unfold due_after. intros [-> | [s ->]]; simpl.
  - split; [discriminate | intros (d & bound & H & _); discriminate].
  - destruct s as [|c s]; simpl.
    + rewrite parse_empty. split; [discriminate | intros (d & bound & H & _); discriminate].
    + unfold num_ge.
      destruct (parse (String c s)) as [|d]; destruct (parse b) as [|bound]; simpl;
        try (split; [discriminate | intros (? & ? & H1 & H2 & _); discriminate]).
      split.
      * intros [= H]. exists d, bound. apply Z.leb_le in H. repeat split; auto; lia.
      * intros (d' & b' & [= <-] & [= <-] & H). f_equal. apply Z.leb_le. lia.
Qed.

End Dates.

Lemma supplied_absent : ~ supplied JUndefined.
Proof. unfold supplied. simpl. discriminate. Qed.

(** The stages of the handler, each on a list of well-kinded todos. *)
Lemma stage_exact (field : Todo -> JsValue) (v : JsValue) (l : list Todo) (t : Todo) :
  text_or_absent v ->
  In t (if truthy v then List.filter (fun t => strict_eq (field t) v) l else l)
  <-> In t l /\ (supplied v -> field t = v).
Proof.
  intros Hv. rewrite stage_filter. unfold supplied.
  destruct Hv as [-> | [s ->]]; simpl.
  - intuition discriminate.
  - change (match field t with JStr x => String.eqb x s | _ => false end)
      with (strict_eq (field t) (JStr s)).
    rewrite strict_eq_JStr_r. tauto.
Qed.

Lemma stage_completed (v : JsValue) (l : list Todo) (t : Todo) :
  In t (if negb (is_undefined v)
        then List.filter
               (fun t => strict_eq (isCompleted t) (JBool (strict_eq v (JStr "true")))) l
        else l)
  <-> In t l /\ (v <> JUndefined -> isCompleted t = JBool (asks_completed v)).
Proof.
  rewrite stage_filter, strict_eq_JBool_r. unfold asks_completed.
  destruct v; simpl; intuition (try discriminate; try congruence).
Qed.

Lemma stage_tag (v : JsValue) (l : list Todo) :
  text_or_absent v -> Forall well_kinded l ->
  exists r,
    (if truthy v then filter_with (fun t => includes (tags t) v) l else Some l) = Some r
    /\ incl r l
    /\ forall t, In t r <->
         In t l /\ (supplied v -> exists elems, tags t = JArr elems /\ In v elems).
Proof.
  intros Hv Hl.
  destruct (stage_filter_with (truthy v) (fun t => includes (tags t) v) l)
    as (r & Heq & Hincl & Hin).
  { intros _ x Hx. rewrite Forall_forall in Hl.
    destruct (Hl x (proj2 (list_elem_of_In _ _) Hx)) as (_ & _ & [elems ->] & _).
    simpl. eauto. }
  exists r. split; [exact Heq|]. split; [exact Hincl|].
  intros t. rewrite Hin. unfold supplied. split; intros [Ht H]; (split; [exact Ht|]).
  - intros Hs. specialize (H Hs). destruct Hv as [-> | [s ->]]; [discriminate Hs|].
    rewrite Forall_forall in Hl.
    destruct (Hl t (proj2 (list_elem_of_In _ _) Ht)) as (_ & _ & [elems He] & _).
    exists elems. split; [exact He|]. rewrite He in H. apply includes_array_text, H.
  - intros Hs. destruct (H Hs) as (elems & He & Hmem).
    destruct Hv as [-> | [s ->]]; [discriminate Hs|].
    rewrite He. apply includes_array_text, Hmem.
Qed.

Lemma stage_search (lowercase : string -> string) (v : JsValue) (l : list Todo) :
  folds_basic_latin lowercase ->
  text_or_absent v -> plain_text v ->
  Forall well_kinded l -> Forall searchable l ->
  exists r,
    (if truthy v
     then searchLower ← toLowerCase lowercase v;
          filter_with (search_hit lowercase searchLower) l
     else Some l) = Some r
    /\ incl r l
    /\ forall t, In t r <->
         In t l
         /\ (supplied v ->
             exists s, v = JStr s
               /\ ((exists x, title t = JStr x /\ occurs_ignoring_case s x)
                   \/ (exists y, description t = JStr y /\ occurs_ignoring_case s y))).
Proof.
  intros Hfold Hv Hplain Hl Hsearch. rewrite Forall_forall in Hl, Hsearch.
  assert (Hkind : forall t, In t l ->
            exists x y, title t = JStr x /\ description t = JStr y
                        /\ Latin.plain x /\ Latin.plain y).
  { intros t Ht. apply list_elem_of_In in Ht.
    destruct (Hl t Ht) as ([x Hx] & [y Hy] & _). destruct (Hsearch t Ht) as [Px Py].
    exists x, y. auto. }
  destruct Hv as [-> | [s ->]].
  - exists l. split; [reflexivity|]. split; [apply incl_refl|].
    intros t. pose proof supplied_absent. tauto.
  - assert (Ps : Latin.plain s) by (apply Hplain; reflexivity).
    cbn [toLowerCase mbind option_bind].
    destruct (stage_filter_with (truthy (JStr s)) (search_hit lowercase (lowercase s)) l)
      as (r & Heq & Hincl & Hin).
    { intros _ t Ht. destruct (Hkind t Ht) as (x & y & Hx & Hy & _).
      unfold search_hit. rewrite Hx, Hy. simpl.
      destruct (str_includes (lowercase x) (lowercase s)); eauto. }
    exists r. split; [exact Heq|]. split; [exact Hincl|].
    intros t. rewrite Hin. unfold supplied.
    split; intros [Ht H]; (split; [exact Ht|]); intros Hs;
      destruct (Hkind t Ht) as (x & y & Hx & Hy & Px & Py).
    + exists s. split; [reflexivity|].
      apply (search_hit_text lowercase s x y t Hfold Ps Px Py Hx Hy) in H; [|exact Hs].
      destruct H; [left | right]; eauto.
    + destruct (H Hs) as (s' & [= <-] & Hocc).
      apply (search_hit_text lowercase s x y t Hfold Ps Px Py Hx Hy).
      destruct Hocc as [(x' & Hx' & Ho) | (y' & Hy' & Ho)]; [left | right]; congruence.
Qed.

Section DueStages.
Context (parse : string -> num) (lowercase : string -> string).
Hypothesis parse_empty : parse "" = NaN.
Hypothesis lowercase_folds : folds_basic_latin lowercase.

Lemma due_answers (v : JsValue) (t : Todo) :
  text v -> well_kinded t ->
  is_Some (due_before parse v t) /\ is_Some (due_after parse v t).
Proof.
  intros [b ->] (_ & _ & _ & _ & Hd). unfold due_before, due_after.
  destruct Hd as [-> | [s ->]]; simpl; [eauto|].
  destruct (negb (String.eqb s "")); simpl; eauto.
Qed.

Lemma stage_dueBefore (v : JsValue) (l : list Todo) :
  text_or_absent v -> Forall well_kinded l ->
  exists r,
    (if truthy v then filter_with (due_before parse v) l else Some l) = Some r
    /\ incl r l
    /\ forall t, In t r <->
         In t l
         /\ (supplied v ->
             exists d bound, due_time parse (dueDate t) = Some d
               /\ due_time parse v = Some bound /\ d <= bound).
Proof.
  intros Hv Hl. rewrite Forall_forall in Hl.
  destruct Hv as [-> | [b ->]].
  - exists l. split; [reflexivity|]. split; [apply incl_refl|].
    intros t. pose proof supplied_absent. tauto.
  - destruct (stage_filter_with (truthy (JStr b)) (due_before parse (JStr b)) l)
      as (r & Heq & Hincl & Hin).
    { intros _ t Ht. apply due_answers; [eexists; reflexivity|].
      apply Hl, list_elem_of_In, Ht. }
    exists r. split; [exact Heq|]. split; [exact Hincl|].
    intros t. rewrite Hin. unfold supplied.
    split; intros [Ht H]; (split; [exact Ht|]); intros Hs;
      destruct (Hl t (proj2 (list_elem_of_In _ _) Ht)) as (_ & _ & _ & _ & Hd).
    + apply (due_before_text parse parse_empty b t Hd), H, Hs.
    + apply (due_before_text parse parse_empty b t Hd), H, Hs.
Qed.

Lemma stage_dueAfter (v : JsValue) (l : list Todo) :
  text_or_absent v -> Forall well_kinded l ->
  exists r,
    (if truthy v then filter_with (due_after parse v) l else Some l) = Some r
    /\ incl r l
    /\ forall t, In t r <->
         In t l
         /\ (supplied v ->
             exists d bound, due_time parse (dueDate t) = Some d
               /\ due_time parse v = Some bound /\ d >= bound).
Proof.
  intros Hv Hl. rewrite Forall_forall in Hl.
  destruct Hv as [-> | [b ->]].
  - exists l. split; [reflexivity|]. split; [apply incl_refl|].
    intros t. pose proof supplied_absent. tauto.
  - destruct (stage_filter_with (truthy (JStr b)) (due_after parse (JStr b)) l)
      as (r & Heq & Hincl & Hin).
    { intros _ t Ht. apply due_answers; [eexists; reflexivity|].
      apply Hl, list_elem_of_In, Ht. }
    exists r. split; [exact Heq|]. split; [exact Hincl|].
    intros t. rewrite Hin. unfold supplied.
    split; intros [Ht H]; (split; [exact Ht|]); intros Hs;
      destruct (Hl t (proj2 (list_elem_of_In _ _) Ht)) as (_ & _ & _ & _ & Hd).
    + apply (due_after_text parse parse_empty b t Hd), H, Hs.
    + apply (due_after_text parse parse_empty b t Hd), H, Hs.
Qed.

(** On well-kinded todos and a plain query the seven filters answer, and what
    they keep is what satisfies the query. *)
Lemma apply_filters_kinded (q : Query.t) (todos : list Todo) :
  plain_query q -> plain_text (Query.search q) ->
  Forall well_kinded todos -> Forall searchable todos ->
  exists filtered,
    apply_filters parse lowercase q todos = Some filtered
    /\ incl filtered todos
    /\ forall t, In t filtered <-> In t todos /\ satisfies parse q t.
Proof.
  intros (Q1 & Q2 & Q3 & Q4 & Q5 & Q6 & Q7) Hplain Hk Hs. unfold apply_filters.
  set (f1 := if truthy (Query.type q) then _ else todos).
  set (f2 := if truthy (Query.priority q) then _ else f1).
  set (f3 := if negb (is_undefined (Query.completed q)) then _ else f2).
  assert (M1 : forall t, In t f1 <-> In t todos /\ (supplied (Query.type q) -> type t = Query.type q))
    by (intros t; apply (stage_exact type), Q1).
  assert (M2 : forall t, In t f2 <->
                         In t f1 /\ (supplied (Query.priority q) -> priority t = Query.priority q))
    by (intros t; apply (stage_exact priority), Q2).
  assert (M3 : forall t, In t f3 <->
                         In t f2 /\ (Query.completed q <> JUndefined ->
                                     isCompleted t = JBool (asks_completed (Query.completed q))))
    by (intros t; apply stage_completed).
  assert (I3 : incl f3 todos).
  { intros t Ht. apply M3 in Ht. destruct Ht as [Ht _]. apply M2 in Ht.
    destruct Ht as [Ht _]. apply M1 in Ht. tauto. }
  clearbody f1 f2 f3.
  destruct (stage_tag (Query.tag q) f3 Q4 (incl_Forall I3 Hk)) as (r4 & E4 & I4 & M4).
  rewrite E4. cbn [mbind option_bind].
  assert (I4' : incl r4 todos) by (eapply incl_tran; eassumption).
  destruct (stage_search lowercase (Query.search q) r4 lowercase_folds Q5 Hplain
                         (incl_Forall I4' Hk) (incl_Forall I4' Hs))
    as (r5 & E5 & I5 & M5).
  rewrite E5. cbn [mbind option_bind].
  assert (I5' : incl r5 todos) by (eapply incl_tran; eassumption).
  destruct (stage_dueBefore (Query.dueBefore q) r5 Q6 (incl_Forall I5' Hk))
    as (r6 & E6 & I6 & M6).
  rewrite E6. cbn [mbind option_bind].
  assert (I6' : incl r6 todos) by (eapply incl_tran; eassumption).
  destruct (stage_dueAfter (Query.dueAfter q) r6 Q7 (incl_Forall I6' Hk))
    as (r7 & E7 & I7 & M7).
  exists r7. split; [exact E7|]. split; [eapply incl_tran; eassumption|].
  intros t. rewrite M7, M6, M5, M4, M3, M2, M1. unfold satisfies. tauto.
Qed.

End DueStages.

Lemma compare_answers_on (parse : string -> num) (a b : Todo) :
  text (priority a) -> dueDate a = JNull \/ text (dueDate a) ->
  text (priority b) -> dueDate b = JNull \/ text (dueDate b) ->
  is_Some (compare parse a b).
Proof.
  intros [pa Hpa] Hda [pb Hpb] Hdb.
  unfold compare. rewrite Hpa, Hpb. cbn [priorityOrder_at ToString mbind option_bind].
  destruct (negb (strict_eq (isCompleted a) (isCompleted b))); [eauto|].
  destruct (negb (member_eq (priorityOrder pa) (priorityOrder pb))); [eauto|].
  destruct Hda as [-> | [sa ->]]; destruct Hdb as [-> | [sb ->]];
    cbn [truthy andb Date_time mbind option_bind]; eauto.
  - destruct (negb (String.eqb sb "")); eauto.
  - destruct (negb (String.eqb sa "")); eauto.
  - destruct (negb (String.eqb sa "")); destruct (negb (String.eqb sb ""));
      cbn [andb mbind option_bind]; eauto.
Qed.

Lemma compare_answers (parse : string -> num) (a b : Todo) :
  well_kinded a -> well_kinded b -> is_Some (compare parse a b).
Proof.
  intros (_ & _ & _ & Hpa & Hda) (_ & _ & _ & Hpb & Hdb).
  apply compare_answers_on; assumption.
Qed.

(** On well-kinded todos the handler replies, with the filtered todos sorted
    by the order its comparator induces. *)
Lemma router_get_kinded (parse : string -> num) (lowercase : string -> string)
      (q : Query.t) (todos filtered : list Todo) :
  Forall well_kinded todos ->
  apply_filters parse lowercase q todos = Some filtered ->
  router_get parse lowercase q todos
  = Some {| data := isort (leb_of (compare parse)) filtered;
            meta := meta_of (isort (leb_of (compare parse)) filtered) |}.
Proof.
  intros Hk Hf. unfold router_get. rewrite Hf. cbn [mbind option_bind].
  rewrite sort_total; [reflexivity|].
  pose proof (apply_filters_incl _ _ _ _ _ Hf) as Hincl.
  rewrite Forall_forall in Hk.
  intros x y Hx Hy. apply compare_answers; apply Hk, list_elem_of_In, Hincl; assumption.
Qed.

Lemma latin_lowercase_folds : folds_basic_latin Latin.lowercase.
Proof. intros s _. reflexivity. Qed.

(** X3.  Which todos a list request returns.  The collection holds todos with the
    JSON kinds of [interface Todo] ([title], [description] and [priority]
    strings, [tags] an array, [dueDate] a string or null), the query
    parameters are strings, and the search text, the titles and the
    descriptions are text of the basic Latin block, on which [toLowerCase]
    folds the letters A to Z.  Then [GET /api/todos] replies, and a todo is in
    the reply exactly when it is in the collection and satisfies every filter
    the query supplies: the same [type], the same [priority], [isCompleted]
    equal to the boolean [completed] asks for, the tag among its [tags], the
    search text occurring in its [title] or in its [description] up to the
    case of the letters, a [dueDate] that denotes an instant no later than
    [dueBefore], and one no earlier than [dueAfter]: a todo without a
    [dueDate] passes neither of the last two.  [type], [priority], [tag],
    [search], [dueBefore] and [dueAfter] supply a filter when they carry a
    non-empty value, [completed] whenever it is present. *)
Theorem list_filters (parse : string -> num) (lowercase : string -> string)
        (q : Query.t) (todos : list Todo) :
  parse "" = NaN ->
  folds_basic_latin lowercase ->
  plain_query q ->
  plain_text (Query.search q) ->
  Forall well_kinded todos ->
  Forall searchable todos ->
  exists listing,
    router_get parse lowercase q todos = Some listing
    /\ forall t, In t (data listing) <-> In t todos /\ satisfies parse q t.
Proof.
  intros Hparse Hfold Hq Hplain Hk Hs.
  destruct (apply_filters_kinded parse lowercase Hparse Hfold q todos Hq Hplain Hk Hs)
    as (filtered & Hf & _ & Hin).
  eexists. split; [apply (router_get_kinded parse lowercase q todos filtered Hk Hf)|].
  intros t. cbn [data]. rewrite <- Hin. split; intros H.
  - eapply Permutation_in; [symmetry; apply isort_perm | exact H].
  - eapply Permutation_in; [apply isort_perm | exact H].
Qed.

Lemma list_filters_witness :
  exists listing,
    router_get Samples.parse_date_only Latin.lowercase
      (Query.mk (JStr "task") (JStr "high") (JStr "false") JUndefined (JStr "a")
                (JStr "2025-01-01") JUndefined)
      (rows Samples.abcd) = Some listing
    /\ forall t,
         In t (data listing) <->
         In t (rows Samples.abcd)
         /\ satisfies Samples.parse_date_only
              (Query.mk (JStr "task") (JStr "high") (JStr "false") JUndefined (JStr "a")
                        (JStr "2025-01-01") JUndefined) t.
Proof.
  apply (list_filters Samples.parse_date_only Latin.lowercase
           (Query.mk (JStr "task") (JStr "high") (JStr "false") JUndefined (JStr "a")
                     (JStr "2025-01-01") JUndefined)
           (rows Samples.abcd)).
  - reflexivity.
  - exact latin_lowercase_folds.
  - unfold plain_query, text_or_absent, text. simpl. repeat split; eauto.
  - intros s [= <-]. apply plain_test. reflexivity.
  - let r := eval vm_compute in (rows Samples.abcd) in change (rows Samples.abcd) with r.
    repeat (apply List.Forall_cons; [unfold well_kinded, text; simpl; repeat split; eauto|]).
    apply List.Forall_nil.
  - let r := eval vm_compute in (rows Samples.abcd) in change (rows Samples.abcd) with r.
    repeat (apply List.Forall_cons;
            [split; intros s [= <-]; apply plain_test; reflexivity|]).
    apply List.Forall_nil.
Defined.

(** C4 fails on the code.  After [{ "title": "abc" }] and
    [{ "title": "Milk", "description": null }] have been created,
    [GET /api/todos?search=abc] has no list to return: the first todo
    satisfies the filter, but on the second the callback reads
    [t.description.toLowerCase] of [null] and throws.  Create stores the
    [description] it is given, of whatever kind.  The engine is any whose
    [toLowerCase] leaves "abc" as it is and turns "Milk" into "milk", and
    [Date.parse] is not called. *)
Theorem null_description_breaks_search
        (parse : string -> num) (lowercase : string -> string) :
  lowercase "abc" = "abc" ->
  lowercase "Milk" = "milk" ->
  (exists first second,
      rows Samples.abc_and_milk = [first; second]
      /\ title first = JStr "abc"
      /\ satisfies parse Samples.search_abc first
      /\ title second = JStr "Milk"
      /\ description second = JNull)
  /\ router_get parse lowercase Samples.search_abc (rows Samples.abc_and_milk) = None.
Proof.
  intros Habc Hmilk.
  let r := eval vm_compute in (rows Samples.abc_and_milk) in
  change (rows Samples.abc_and_milk) with r.
  split.
  - do 2 eexists. split; [reflexivity|]. split; [reflexivity|].
    split; [|split; reflexivity].
    unfold satisfies, supplied. cbn [Samples.search_abc Query.type Query.priority
      Query.completed Query.tag Query.search Query.dueBefore Query.dueAfter truthy].
    repeat split; try discriminate; try congruence.
    intros _. exists "abc". split; [reflexivity|]. left.
    eexists. split; [reflexivity|]. exists "", "abc", "".
    split; [reflexivity|]. simpl. unfold same_letter. tauto.
  - unfold router_get, apply_filters.
    cbn [Samples.search_abc Query.type Query.priority Query.completed Query.tag
         Query.search Query.dueBefore Query.dueAfter truthy is_undefined negb
         String.eqb Ascii.eqb Bool.eqb toLowerCase mbind option_bind].
    unfold filter_with, search_hit.
    cbn [title description toLowerCase mbind option_bind].
    rewrite Habc, Hmilk. reflexivity.
Qed.

Lemma null_description_breaks_search_witness :
  router_get Samples.parse_date_only Latin.lowercase Samples.search_abc
    (rows Samples.abc_and_milk) = None.
Proof.
  exact (proj2 (null_description_breaks_search Samples.parse_date_only Latin.lowercase
                  eq_refl eq_refl)).
Defined.

(** *** The order of the list *)

Lemma key_leb_spec (a b : SortKey) : key_leb a b = true <-> no_later a b.
Proof.
  unfold key_leb, no_later, due_leb, due_no_later.
  destruct a as [da ra ua], b as [db rb ub]; simpl.
  destruct da, db; simpl;
    destruct (Z.eqb_spec ra rb); destruct (Z.ltb_spec ra rb);
    destruct ua as [x|], ub as [y|]; try rewrite Z.leb_le;
    intuition (try discriminate; try lia; auto).
Qed.

Lemma key_leb_total (a b : SortKey) : key_leb a b = true \/ key_leb b a = true.
Proof.
  unfold key_leb, due_leb.
  destruct a as [da ra ua], b as [db rb ub]; simpl.
  destruct da, db; simpl; auto;
    destruct (Z.eqb_spec ra rb); destruct (Z.eqb_spec rb ra); try lia;
    destruct (Z.ltb_spec ra rb); destruct (Z.ltb_spec rb ra); try lia; auto;
    destruct ua as [x|], ub as [y|]; auto;
    destruct (Z.leb_spec x y); destruct (Z.leb_spec y x); auto; lia.
Qed.

Lemma key_leb_trans (a b c : SortKey) :
  key_leb a b = true -> key_leb b c = true -> key_leb a c = true.
Proof.
  rewrite !key_leb_spec. unfold no_later, due_no_later.
  destruct a as [da ra ua], b as [db rb ub], c as [dc rc uc]; simpl.
  destruct da, db, dc; destruct ua as [x|], ub as [y|], uc as [z|];
    intuition (try discriminate; try lia; auto).
Qed.

Lemma priority_rank_Some (v : JsValue) (r : Z) :
  priority_rank v = Some r -> exists s, v = JStr s /\ priorityOrder s = Own r.
Proof.
  destruct v as [| | | |s| |]; try discriminate.
  intros H. exists s. split; [reflexivity|]. revert H.
  unfold priority_rank, priorityOrder.
  destruct (String.eqb s "urgent"); [intros [= <-]; reflexivity|].
  destruct (String.eqb s "high"); [intros [= <-]; reflexivity|].
  destruct (String.eqb s "medium"); [intros [= <-]; reflexivity|].
  destruct (String.eqb s "low"); [intros [= <-]; reflexivity|].
  discriminate.
Qed.

(** The comparator answers on typed todos. *)
Lemma typed_answers (parse : string -> num) (a b : Todo) :
  typed parse a -> typed parse b -> is_Some (compare parse a b).
Proof.
  intros (_ & [ra Hra] & Hda) (_ & [rb Hrb] & Hdb).
  destruct (priority_rank_Some _ _ Hra) as (sa & Hpa & _).
  destruct (priority_rank_Some _ _ Hrb) as (sb & Hpb & _).
  apply compare_answers_on.
  - exists sa. exact Hpa.
  - destruct Hda as [H | (s & d & H & _)]; [left; exact H | right; exists s; exact H].
  - exists sb. exact Hpb.
  - destruct Hdb as [H | (s & d & H & _)]; [left; exact H | right; exists s; exact H].
Qed.

Section Order.
Context (parse : string -> num).
Hypothesis parse_empty : parse "" = NaN.

(** What the comparator sees of a typed todo's due date. *)
Lemma typed_due (t : Todo) :
  typed parse t ->
  (truthy (dueDate t) = false /\ due_time parse (dueDate t) = None)
  \/ (exists d, truthy (dueDate t) = true
                /\ Date_time parse (dueDate t) = Some (Fin d)
                /\ due_time parse (dueDate t) = Some d).
Proof.
  intros (_ & _ & [-> | (s & d & -> & Hd)]); [left; auto|].
  right. exists d. simpl. rewrite Hd. repeat split.
  destruct s; [rewrite parse_empty in Hd; discriminate | reflexivity].
Qed.

(** On typed todos the comparator orders by the sort key. *)
Lemma compare_typed (a b : Todo) :
  typed parse a -> typed parse b ->
  leb_of (compare parse) a b = key_leb (sort_key parse a) (sort_key parse b).
Proof.
  intros Ta Tb.
  pose proof (typed_due a Ta) as Da. pose proof (typed_due b Tb) as Db.
  destruct Ta as ([ba Ha] & [ra Hra] & _), Tb as ([bb Hb] & [rb Hrb] & _).
  destruct (priority_rank_Some _ _ Hra) as (sa & Hpa & Hoa).
  destruct (priority_rank_Some _ _ Hrb) as (sb & Hpb & Hob).
  unfold leb_of, compare, sort_key, key_leb. rewrite Hra, Hrb, Ha, Hb, Hpa, Hpb.
  cbn [priorityOrder_at ToString mbind option_bind done rank due strict_eq truthy].
  rewrite Hoa, Hob. cbn [member_eq member_sub].
  destruct ba, bb; cbn [Bool.eqb negb keeps_order]; try reflexivity.
  - destruct (Z.eqb_spec ra rb) as [->|Hne]; cbn [negb].
    + destruct Da as [[Ta ->] | (da & Ta & Ea & ->)];
        destruct Db as [[Tb ->] | (db & Tb & Eb & ->)];
        rewrite Ta, Tb; cbn [andb due_leb keeps_order]; try reflexivity.
      rewrite Ea, Eb. cbn [mbind option_bind num_sub keeps_order].
      destruct (Z.leb_spec (da - db) 0); destruct (Z.leb_spec da db); auto; lia.
    + cbn [keeps_order].
      destruct (Z.leb_spec (ra - rb) 0); destruct (Z.ltb_spec ra rb); auto; lia.
  - destruct (Z.eqb_spec ra rb) as [->|Hne]; cbn [negb].
    + destruct Da as [[Ta ->] | (da & Ta & Ea & ->)];
        destruct Db as [[Tb ->] | (db & Tb & Eb & ->)];
        rewrite Ta, Tb; cbn [andb due_leb keeps_order]; try reflexivity.
      rewrite Ea, Eb. cbn [mbind option_bind num_sub keeps_order].
      destruct (Z.leb_spec (da - db) 0); destruct (Z.leb_spec da db); auto; lia.
    + cbn [keeps_order].
      destruct (Z.leb_spec (ra - rb) 0); destruct (Z.ltb_spec ra rb); auto; lia.
Qed.

End Order.

Lemma StronglySorted_impl {A} (R S : A -> A -> Prop) (l : list A) :
  (forall x y, R x y -> S x y) -> StronglySorted R l -> StronglySorted S l.
Proof.
  intros HRS. induction 1 as [|x l Hs IH Hall]; constructor; [exact IH|].
  eapply Forall_impl; [exact Hall|]. intros y. apply HRS.
Qed.

(** A list sorted by an order that is antisymmetric on its elements has no
    other sorted rearrangement. *)
Lemma sorted_perm_unique {A} (R : A -> A -> Prop) (l1 l2 : list A) :
  (forall x y, In x l1 -> In y l1 -> R x y -> R y x -> x = y) ->
  StronglySorted R l1 -> StronglySorted R l2 -> Permutation l1 l2 -> l1 = l2.
Proof.
  revert l2. induction l1 as [|x l1 IH]; intros l2 Hanti S1 S2 Hperm.
  - apply Permutation_nil in Hperm. congruence.
  - destruct l2 as [|y l2]; [symmetry in Hperm; apply Permutation_nil in Hperm; discriminate|].
    inversion S1 as [|? ? S1' A1]; subst. inversion S2 as [|? ? S2' A2]; subst.
    rewrite Forall_forall in A1, A2.
    assert (Hxy : x = y).
    { assert (Hx : In x (y :: l2)) by (eapply Permutation_in; [exact Hperm | left; auto]).
      assert (Hy : In y (x :: l1))
        by (eapply Permutation_in; [symmetry; exact Hperm | left; auto]).
      destruct Hx as [Hx|Hx]; [congruence|]. destruct Hy as [Hy|Hy]; [congruence|].
      apply Hanti; [left; auto | right; auto | |].
      - apply A1, list_elem_of_In, Hy.
      - apply A2, list_elem_of_In, Hx. }
    subst y. f_equal. apply IH; auto.
    + intros a b Ha Hb. apply Hanti; right; assumption.
    + eapply Permutation_cons_inv, Hperm.
Qed.

(** When the todos the filters keep are typed, the reply is their stable
    sorted rearrangement. *)
Lemma router_get_typed (parse : string -> num) (lowercase : string -> string)
      (q : Query.t) (todos filtered : list Todo) :
  parse "" = NaN ->
  apply_filters parse lowercase q todos = Some filtered ->
  Forall (typed parse) filtered ->
  exists listing,
    router_get parse lowercase q todos = Some listing
    /\ sublist filtered todos
    /\ Permutation filtered (data listing)
    /\ StronglySorted (fun a b => no_later (sort_key parse a) (sort_key parse b))
                      (data listing)
    /\ forall k,
         List.filter (fun t => tie (sort_key parse t) k) (data listing)
         = List.filter (fun t => tie (sort_key parse t) k) filtered.
Proof.
  intros Hparse Hf Ht. rewrite Forall_forall in Ht.
  set (kleb := fun a b => key_leb (sort_key parse a) (sort_key parse b)).
  assert (Hsort : isort (leb_of (compare parse)) filtered = isort kleb filtered).
  { apply isort_ext. intros x y Hx Hy.
    apply (compare_typed parse Hparse); apply Ht, list_elem_of_In; assumption. }
  exists {| data := isort kleb filtered; meta := meta_of (isort kleb filtered) |}.
  split.
  { unfold router_get. rewrite Hf. cbn [mbind option_bind].
    rewrite sort_total, Hsort; [reflexivity|].
    intros x y Hx Hy. apply typed_answers; apply Ht, list_elem_of_In; assumption. }
  split; [apply (apply_filters_sublist _ _ _ _ _ Hf)|].
  cbn [data]. split; [apply isort_perm|]. split.
  - apply (StronglySorted_impl (fun a b => kleb a b = true)).
    + intros x y. apply key_leb_spec.
    + apply isort_sorted.
      * intros x y. apply key_leb_total.
      * intros x y z. apply key_leb_trans.
  - intros k. apply isort_stable. intros x y Hx Hy.
    unfold tie in Hx, Hy. apply andb_true_iff in Hx, Hy.
    destruct Hx as [Hx _], Hy as [_ Hy]. unfold kleb.
    eapply key_leb_trans; eassumption.
Qed.

(** The example of the specification, for a [Date.parse] that reads the two
    dates in their order. *)
Section Example.
Context (parse : string -> num) (lowercase : string -> string) (a b : Z).
Hypothesis parse_empty : parse "" = NaN.
Hypothesis parse_a : parse "2025-01-01" = Fin a.
Hypothesis parse_b : parse "2025-01-02" = Fin b.
Hypothesis a_before_b : a < b.

Lemma example_keys :
  sort_key parse Samples.todo_A = mkKey false 1 (Some a)
  /\ sort_key parse Samples.todo_B = mkKey false 1 (Some b)
  /\ sort_key parse Samples.todo_C = mkKey false 0 None
  /\ sort_key parse Samples.todo_D = mkKey true 0 (Some a).
Proof.
  unfold sort_key, Samples.todo_A, Samples.todo_B, Samples.todo_C, Samples.todo_D.
  cbn [isCompleted priority dueDate truthy due_time]. rewrite parse_a, parse_b.
  repeat split.
Qed.

Lemma example_typed :
  Forall (typed parse)
         [Samples.todo_A; Samples.todo_B; Samples.todo_C; Samples.todo_D].
Proof.
  repeat (apply List.Forall_cons;
          [unfold typed; cbn [isCompleted priority dueDate]; repeat split; eauto|]).
  apply List.Forall_nil.
Qed.

Lemma example_order (stored : list Todo) :
  Permutation stored [Samples.todo_A; Samples.todo_B; Samples.todo_C; Samples.todo_D] ->
  exists listing,
    router_get parse lowercase Samples.no_query stored = Some listing
    /\ data listing = [Samples.todo_C; Samples.todo_A; Samples.todo_B; Samples.todo_D].
Proof.
  intros Hperm. pose proof example_typed as Ht.
  destruct example_keys as (KA & KB & KC & KD).
  destruct (router_get_typed parse lowercase Samples.no_query stored stored parse_empty)
    as (listing & Hget & _ & Hp & Hs & _).
  - reflexivity.
  - eapply Permutation_Forall; [symmetry; exact Hperm | exact Ht].
  - exists listing. split; [exact Hget|].
    symmetry.
    apply (sorted_perm_unique
             (fun x y => no_later (sort_key parse x) (sort_key parse y))); [| |exact Hs|].
    + intros x y Hx Hy. simpl in Hx, Hy.
      destruct Hx as [<-|[<-|[<-|[<-|[]]]]]; destruct Hy as [<-|[<-|[<-|[<-|[]]]]];
        try reflexivity; rewrite ?KA, ?KB, ?KC, ?KD; unfold no_later, due_no_later; simpl;
        intros H1 H2; exfalso;
        intuition (try discriminate; try lia).
    + repeat first [ apply SSorted_cons | apply SSorted_nil
                   | apply List.Forall_cons | apply List.Forall_nil ];
        rewrite ?KA, ?KB, ?KC, ?KD; unfold no_later, due_no_later; simpl;
        first [ left; split; reflexivity
              | right; left; split; [reflexivity | lia]
              | right; right; repeat split; lia ].
    + rewrite <- Hp, Hperm.
      apply (Permutation_cons_app [Samples.todo_A; Samples.todo_B] [Samples.todo_D]).
      reflexivity.
Qed.

End Example.

(** X2.  The order of a list reply.  When the todos the filters keep have the
    types of [interface Todo] where the comparator looks (a boolean
    [isCompleted], one of the four priorities, a [dueDate] that is null or a
    date string that parses), [GET /api/todos] returns them rearranged so
    that every incomplete todo comes before every completed one, then by
    ascending priority rank (urgent 0, high 1, medium 2, low 3), then by
    ascending due date with the todos that have none last.  The filters keep
    the todos in their stored order, and the todos that tie are listed in the
    order the filters left them in, which is therefore their stored order.
    For the todos A, B, C, D of the example, in whatever order they are
    stored, the reply lists C, A, B, D. *)
Theorem list_order (parse : string -> num) (lowercase : string -> string) :
  parse "" = NaN ->
  (forall (q : Query.t) (todos filtered : list Todo),
      apply_filters parse lowercase q todos = Some filtered ->
      Forall (typed parse) filtered ->
      exists listing,
        router_get parse lowercase q todos = Some listing
        /\ sublist filtered todos
        /\ Permutation filtered (data listing)
        /\ StronglySorted (fun a b => no_later (sort_key parse a) (sort_key parse b))
                          (data listing)
        /\ forall k,
             List.filter (fun t => tie (sort_key parse t) k) (data listing)
             = List.filter (fun t => tie (sort_key parse t) k) filtered)
  /\ (forall (a b : Z) (stored : list Todo),
        parse "2025-01-01" = Fin a ->
        parse "2025-01-02" = Fin b ->
        a < b ->
        Permutation stored
          [Samples.todo_A; Samples.todo_B; Samples.todo_C; Samples.todo_D] ->
        exists listing,
          router_get parse lowercase Samples.no_query stored = Some listing
          /\ data listing
             = [Samples.todo_C; Samples.todo_A; Samples.todo_B; Samples.todo_D]).
Proof.
  intros Hparse. split.
  - intros q todos filtered. apply router_get_typed, Hparse.
  - intros a b stored Ha Hb Hab. apply (example_order parse lowercase a b Hparse Ha Hb Hab).
Qed.

Lemma list_order_witness :
  rows Samples.abcd = [Samples.todo_A; Samples.todo_B; Samples.todo_C; Samples.todo_D]
  /\ (exists listing,
        router_get Samples.parse_date_only Latin.lowercase Samples.no_query
          (rows Samples.abcd) = Some listing
        /\ sublist (rows Samples.abcd) (rows Samples.abcd)
        /\ Permutation (rows Samples.abcd) (data listing)
        /\ StronglySorted
             (fun a b => no_later (sort_key Samples.parse_date_only a)
                                  (sort_key Samples.parse_date_only b))
             (data listing)
        /\ forall k,
             List.filter (fun t => tie (sort_key Samples.parse_date_only t) k) (data listing)
             = List.filter (fun t => tie (sort_key Samples.parse_date_only t) k)
                           (rows Samples.abcd))
  /\ (exists listing,
        router_get Samples.parse_date_only Latin.lowercase Samples.no_query
          (rows Samples.abcd) = Some listing
        /\ data listing
           = [Samples.todo_C; Samples.todo_A; Samples.todo_B; Samples.todo_D]).
Proof.
  assert (Hrows : rows Samples.abcd
                  = [Samples.todo_A; Samples.todo_B; Samples.todo_C; Samples.todo_D])
    by (vm_compute; reflexivity).
  split; [exact Hrows|].
  destruct (list_order Samples.parse_date_only Latin.lowercase eq_refl)
    as [Hgeneral Hexample].
  rewrite Hrows. split.
  - apply Hgeneral; [reflexivity|].
    apply (example_typed Samples.parse_date_only 1735689600000 1735776000000);
      reflexivity.
  - apply (Hexample 1735689600000 1735776000000); reflexivity.
Defined.

(** C3 fails on the code.  After three creations with the priorities low,
    bogus and urgent, in that order, [GET /api/todos] lists the three pending
    todos as they are stored, the low one before the urgent one:
    [priorityOrder["bogus"]] is [undefined], each difference with it is [NaN],
    and the sort leaves its neighbours where they are.  Create stores the
    [priority] it is given, whatever it is. *)
Theorem bogus_priority_breaks_order
        (parse : string -> num) (lowercase : string -> string) :
  exists listing,
    router_get parse lowercase Samples.no_query (rows Samples.low_bogus_urgent)
    = Some listing
    /\ map title (data listing) = [JStr "Low"; JStr "Bogus"; JStr "Urgent"]
    /\ map priority (data listing) = [JStr "low"; JStr "bogus"; JStr "urgent"]
    /\ map isCompleted (data listing) = [JBool false; JBool false; JBool false]
    /\ ~ StronglySorted (fun a b => no_later (sort_key parse a) (sort_key parse b))
                        (data listing).
Proof.
  eexists. split; [vm_compute; reflexivity|].
  split; [reflexivity|]. split; [reflexivity|]. split; [reflexivity|].
  intros Hs. inversion Hs as [|? ? _ Hall]; subst.
  inversion Hall as [|? ? _ Hall']; subst. inversion Hall' as [|? ? Hlow _]; subst.
  revert Hlow. unfold no_later, sort_key. simpl. intros [[_ H] | [[_ H] | [_ [H _]]]].
  - discriminate.
  - lia.
  - discriminate.
Qed.


End ListingFacts.

(** * Further properties of the handlers *)

(** ** Arrays, continued *)

Lemma find_findIndex {A} (p : A -> bool) (l : list A) :
  List.find p l = option_map snd (findIndex p l).
Proof.
  induction l as [|x l IH]; simpl; [reflexivity|].
  destruct (p x); [reflexivity|]. rewrite IH.
  destruct (findIndex p l) as [[i y]|]; reflexivity.
Qed.

Lemma findIndex_None_iff {A} (p : A -> bool) (l : list A) :
  findIndex p l = None <-> forall x, In x l -> p x = false.
Proof.
  split; [apply findIndex_None|].
  intros H. destruct (findIndex p l) as [[i x]|] eqn:E; [|reflexivity].
  destruct (findIndex_Some p l i x E) as [Hx Hp].
  rewrite (H x) in Hp; [discriminate|].
  apply list_elem_of_In, list_elem_of_lookup. eauto.
Qed.

(** Writing over an element one with the same key leaves the keys as they
    were. *)
Lemma map_insert_same {A B} (f : A -> B) (l : list A) (i : nat) (x y : A) :
  l !! i = Some x -> f y = f x -> map f (<[i := y]> l) = map f l.
Proof.
  revert i. induction l as [|z l IH]; intros [|i]; simpl; try discriminate.
  - intros [= ->] ->. reflexivity.
  - intros Hx Hf. f_equal. apply IH; assumption.
Qed.

Lemma In_delete {A} (l : list A) (i : nat) (x : A) : In x (delete i l) -> In x l.
Proof.
  revert i. induction l as [|z l IH]; intros [|i]; simpl; auto.
  intros [<-|H]; eauto.
Qed.

Lemma NoDup_map_delete {A B} (f : A -> B) (l : list A) (i : nat) :
  NoDup (map f l) -> NoDup (map f (delete i l)).
Proof.
  revert i. induction l as [|z l IH]; intros [|i]; simpl; auto.
  - intros H. apply NoDup_cons in H. tauto.
  - intros H. apply NoDup_cons in H. destruct H as [Hz Hl].
    apply NoDup_cons. split; [|apply IH, Hl].
    intros Hin. apply Hz. apply list_elem_of_In in Hin. apply list_elem_of_In.
    apply in_map_iff in Hin. destruct Hin as (x & Hfx & Hx).
    apply in_map_iff. exists x. split; [exact Hfx | eapply In_delete, Hx].
Qed.

Lemma length_delete_found {A} (l : list A) (i : nat) (x : A) :
  l !! i = Some x -> S (length (delete i l)) = length l.
Proof.
  revert i. induction l as [|z l IH]; intros [|i]; simpl; try discriminate; auto.
Qed.

(** Among elements with distinct keys, removing the one found by its key is
    filtering that key out. *)
Lemma delete_found_filter {A} (key : A -> string) (rid : string) (l : list A)
      (i : nat) (x : A) :
  NoDup (map key l) ->
  findIndex (fun y => String.eqb (key y) rid) l = Some (i, x) ->
  delete i l = List.filter (fun y => negb (String.eqb (key y) rid)) l.
Proof.
  revert i. induction l as [|z l IH]; intros i Hnd; simpl; [discriminate|].
  apply NoDup_cons in Hnd. destruct Hnd as [Hz Hnd].
  destruct (String.eqb (key z) rid) eqn:Ez; simpl.
  - intros [= <- <-]. simpl. apply String.eqb_eq in Ez.
    symmetry. apply forallb_filter_id. apply forallb_forall. intros y Hy.
    apply negb_true_iff, String.eqb_neq. intros Heq. apply Hz.
    apply list_elem_of_In, in_map_iff. exists y. split; [congruence | exact Hy].
  - destruct (findIndex (fun y => String.eqb (key y) rid) l) as [[k u]|] eqn:E;
      [|discriminate].
    intros [= <- <-]. simpl. f_equal. apply IH; auto.
Qed.

(** With distinct keys, the search by the key of a stored element finds that
    element. *)
Lemma findIndex_keyed {A} (key : A -> string) (l : list A) (x : A) :
  NoDup (map key l) -> In x l ->
  exists index,
    findIndex (fun y => String.eqb (key y) (key x)) l = Some (index, x)
    /\ l !! index = Some x.
Proof.
  intros Hnd Hin.
  destruct (findIndex_In (fun y => String.eqb (key y) (key x)) l x Hin
                         (String.eqb_refl _)) as (index & old & Hfind).
  destruct (findIndex_Some _ _ _ _ Hfind) as [Hold Hid]. apply String.eqb_eq in Hid.
  assert (old = x) as ->.
  { apply (NoDup_map_eq key l); auto.
    apply list_elem_of_In, list_elem_of_lookup. eauto. }
  eauto.
Qed.

(** ** Todos: the life of a todo *)

Module Lifecycle.
Import Todos TodosSpec LifecycleSpec.

Lemma absent_findIndex (rid : string) (todos : list Todo) :
  absent rid todos <-> findIndex (fun t => String.eqb (id t) rid) todos = None.
Proof.
  rewrite findIndex_None_iff. unfold absent.
  split; intros H t Ht; specialize (H t Ht).
  - apply String.eqb_neq, H.
  - apply String.eqb_neq, H.
Qed.

Lemma router_delete_found (rid : string) (w : World Todo) (index : nat) (old : Todo) :
  findIndex (fun t => String.eqb (id t) rid) (rows w) = Some (index, old) ->
  router_delete rid w
  = (Success 200 old,
     mkWorld (clock w) (uuids w) (ticks w) (draws w) (delete index (rows w))).
Proof. intros Hfind. unfold router_delete, bind, load. rewrite Hfind. reflexivity. Qed.

Lemma router_delete_missing (rid : string) (w : World Todo) :
  findIndex (fun t => String.eqb (id t) rid) (rows w) = None ->
  router_delete rid w = (Failure 404 "Todo not found", w).
Proof. intros Hfind. unfold router_delete, bind, load. rewrite Hfind. reflexivity. Qed.

(** What a request does to the world, by cases. *)
Lemma handle_cases (r : Request) (w : World Todo) :
  ((exists status message, fst (handle r w) = Failure status message)
   /\ snd (handle r w) = w)
  \/ (exists body todo,
        r = POST body
        /\ handle r w
           = (Success 201 todo,
              mkWorld (clock w) (uuids w) (S (S (ticks w))) (S (draws w))
                      (rows w ++ [todo])%list)
        /\ id todo = uuids w (draws w)
        /\ createdAt todo = clock w (ticks w)
        /\ updatedAt todo = clock w (S (ticks w))
        /\ completedAt todo = None)
  \/ (exists rid body index old,
        r = PUT rid body
        /\ findIndex (fun t => String.eqb (id t) rid) (rows w) = Some (index, old)
        /\ handle r w
           = (Success 200 (put_todo (clock w) (ticks w) body old),
              mkWorld (clock w) (uuids w)
                      (if put_completes body old then S (S (ticks w)) else S (ticks w))
                      (draws w)
                      (<[index := put_todo (clock w) (ticks w) body old]> (rows w))))
  \/ (exists rid index old,
        r = PATCH_complete rid
        /\ findIndex (fun t => String.eqb (id t) rid) (rows w) = Some (index, old)
        /\ handle r w
           = (Success 200 (patch_todo (clock w) (ticks w) old),
              mkWorld (clock w) (uuids w)
                      (if truthy (isCompleted old) then S (ticks w) else S (S (ticks w)))
                      (draws w)
                      (<[index := patch_todo (clock w) (ticks w) old]> (rows w))))
  \/ (exists rid index old,
        r = DELETE rid
        /\ findIndex (fun t => String.eqb (id t) rid) (rows w) = Some (index, old)
        /\ handle r w
           = (Success 200 old,
              mkWorld (clock w) (uuids w) (ticks w) (draws w) (delete index (rows w)))).
Proof.
  destruct r as [body | rid body | rid | rid]; simpl.
  - destruct (TodosFacts.router_post_cases body w)
      as [[_ H] | [[_ [_ H]] | [_ [_ [t [H Ht]]]]]].
    + left. rewrite H. simpl. eauto.
    + left. rewrite H. simpl. eauto.
    + right. left. exists body, t. rewrite H. subst t. simpl. auto 10.
  - destruct (findIndex (fun t => String.eqb (id t) rid) (rows w)) as [[index old]|] eqn:E.
    + right. right. left. exists rid, body, index, old.
      rewrite (TodosFacts.router_put_found _ _ _ _ _ E). auto.
    + left. rewrite (TodosFacts.router_put_missing _ _ _ E). simpl. eauto.
  - destruct (findIndex (fun t => String.eqb (id t) rid) (rows w)) as [[index old]|] eqn:E.
    + right. right. right. left. exists rid, index, old.
      rewrite (TodosFacts.router_patch_found _ _ _ _ E). auto.
    + left. rewrite (TodosFacts.router_patch_missing _ _ E). simpl. eauto.
  - destruct (findIndex (fun t => String.eqb (id t) rid) (rows w)) as [[index old]|] eqn:E.
    + right. right. right. right. exists rid, index, old.
      rewrite (router_delete_found _ _ _ _ E). auto.
    + left. rewrite (router_delete_missing _ _ E). simpl. eauto.
Qed.

(** *** Identifiers *)

Section Ids.
Context (u : nat -> string).
Hypothesis u_injective : forall i j, u i = u j -> i = j.

Lemma handle_ids_fresh (r : Request) (w : World Todo) :
  ids_fresh u w -> ids_fresh u (snd (handle r w)).
Proof.
  intros (Hu & Hnd & Hdr). unfold ids_fresh.
  destruct (handle_cases r w)
    as [[_ ->] | [(body & todo & _ & -> & Hid & _)
       | [(rid & body & index & old & _ & Hfind & ->)
       | [(rid & index & old & _ & Hfind & ->)
       | (rid & index & old & _ & Hfind & ->)]]]]; simpl.
  - auto.
  - split; [exact Hu|]. split.
    + rewrite map_app. simpl. apply NoDup_app. split; [exact Hnd|]. split.
      * intros x Hx [Hy|Hy]%list_elem_of_In; [|destruct Hy]. subst x.
        apply list_elem_of_In, in_map_iff in Hx. destruct Hx as (t & Ht & Hin).
        rewrite Forall_forall in Hdr.
        destruct (Hdr t (proj2 (list_elem_of_In _ _) Hin)) as (i & Hi & Hti).
        rewrite Hid, Hu, Hti in Ht. apply u_injective in Ht. lia.
      * apply NoDup_singleton.
    + apply Forall_app. split.
      * eapply Forall_impl; [exact Hdr|]. intros t (i & Hi & Hti). exists i. split; [lia|auto].
      * constructor; [|constructor]. exists (draws w). split; [lia|]. rewrite Hid, Hu. auto.
  - destruct (findIndex_Some _ _ _ _ Hfind) as [Hold _].
    split; [exact Hu|]. split.
    + rewrite (map_insert_same id _ _ old); auto.
    + apply Forall_insert; [exact Hdr|].
      apply (Forall_lookup_1 _ _ _ _ Hdr Hold).
  - destruct (findIndex_Some _ _ _ _ Hfind) as [Hold _].
    split; [exact Hu|]. split.
    + rewrite (map_insert_same id _ _ old); auto.
    + apply Forall_insert; [exact Hdr|].
      apply (Forall_lookup_1 _ _ _ _ Hdr Hold).
  - split; [exact Hu|]. split; [apply NoDup_map_delete, Hnd | apply Forall_delete, Hdr].
Qed.

Lemma serve_ids_fresh (rs : list Request) (w : World Todo) :
  ids_fresh u w -> ids_fresh u (serve rs w).
Proof.
  revert w. induction rs as [|r rs IH]; intros w H; simpl; [exact H|].
  apply IH, handle_ids_fresh, H.
Qed.

Lemma boot_ids_fresh (c : nat -> Z) : ids_fresh u (boot c u).
Proof. repeat split; simpl; constructor. Qed.

End Ids.

End Lifecycle.

Module Lifetimes.
Import Todos TodosSpec LifecycleSpec.

(** *** Timestamps *)

Lemma dated_later (c : nat -> Z) (k k' : nat) (t : Todo) :
  (k <= k')%nat -> dated c k t -> dated c k' t.
Proof.
  intros Hk (i & j & Hij & Hj & Hc & Hu & Hd). exists i, j. repeat split; auto; lia.
Qed.

Lemma dated_put (c : nat -> Z) (k : nat) (body : Body.t) (old : Todo) :
  dated c k old ->
  dated c (if put_completes body old then S (S k) else S k) (put_todo c k body old).
Proof.
  intros (i & j & Hij & Hj & Hc & Hu & Hd). unfold put_todo.
  destruct (put_completes body old).
  - exists i, (S k). simpl. repeat split; auto; try lia.
    right. exists k. repeat split; auto; lia.
  - exists i, k. simpl. repeat split; auto; try lia.
    destruct (negb (is_undefined (Body.isCompleted body))
              && negb (truthy (Body.isCompleted body))); [left; reflexivity|].
    destruct Hd as [Hd | (m & Him & Hmj & Hd)]; [left; exact Hd|].
    right. exists m. repeat split; auto; lia.
Qed.

Lemma dated_patch (c : nat -> Z) (k : nat) (old : Todo) :
  dated c k old ->
  dated c (if truthy (isCompleted old) then S k else S (S k)) (patch_todo c k old).
Proof.
  intros (i & j & Hij & Hj & Hc & Hu & Hd). unfold patch_todo.
  destruct (truthy (isCompleted old)).
  - exists i, k. simpl. repeat split; auto; lia.
  - exists i, (S k). simpl. repeat split; auto; try lia.
    right. exists k. repeat split; auto; lia.
Qed.

Lemma handle_dated (r : Request) (w : World Todo) :
  Forall (dated (clock w) (ticks w)) (rows w) ->
  clock (snd (handle r w)) = clock w
  /\ Forall (dated (clock w) (ticks (snd (handle r w)))) (rows (snd (handle r w))).
Proof.
  intros Hall.
  destruct (Lifecycle.handle_cases r w)
    as [[_ ->] | [(body & todo & _ & -> & _ & Hc & Hu & Hd)
       | [(rid & body & index & old & _ & Hfind & ->)
       | [(rid & index & old & _ & Hfind & ->)
       | (rid & index & old & _ & Hfind & ->)]]]]; simpl;
    (split; [reflexivity|]).
  - exact Hall.
  - apply Forall_app. split.
    + eapply Forall_impl; [exact Hall|]. intros t. apply dated_later. lia.
    + constructor; [|constructor].
      exists (ticks w), (S (ticks w)). repeat split; auto; lia.
  - destruct (findIndex_Some _ _ _ _ Hfind) as [Hold _].
    apply Forall_insert.
    + eapply Forall_impl; [exact Hall|]. intros t. apply dated_later.
      destruct (put_completes body old); lia.
    + apply dated_put. apply (Forall_lookup_1 _ _ _ _ Hall Hold).
  - destruct (findIndex_Some _ _ _ _ Hfind) as [Hold _].
    apply Forall_insert.
    + eapply Forall_impl; [exact Hall|]. intros t. apply dated_later.
      destruct (truthy (isCompleted old)); lia.
    + apply dated_patch. apply (Forall_lookup_1 _ _ _ _ Hall Hold).
  - apply Forall_delete, Hall.
Qed.

Lemma serve_dated (rs : list Request) (w : World Todo) :
  Forall (dated (clock w) (ticks w)) (rows w) ->
  Forall (dated (clock w) (ticks (serve rs w))) (rows (serve rs w)).
Proof.
  revert w. induction rs as [|r rs IH]; intros w Hall; simpl; [assumption|].
  destruct (handle_dated r w Hall) as [Hc Hs].
  rewrite <- Hc in Hs |- *. apply IH. exact Hs.
Qed.

(** X6.  In every state reached from empty, with a clock that never goes
    backwards, each todo was created no later than it was last updated, and a
    todo that has a [completedAt] was completed between the two. *)
Theorem todo_timestamps_ordered
        (c : nat -> Z) (u : nat -> string) (rs : list Request) (t : Todo) :
  (forall n, c n <= c (S n)) ->
  In t (rows (serve rs (boot c u))) ->
  createdAt t <= updatedAt t
  /\ forall s, completedAt t = Some s -> createdAt t <= s /\ s <= updatedAt t.
Proof.
  intros Hmono Hin.
  pose proof (serve_dated rs (boot c u)) as Hall. simpl in Hall.
  specialize (Hall (List.Forall_nil _)). rewrite Forall_forall in Hall.
  destruct (Hall t (proj2 (list_elem_of_In _ _) Hin))
    as (i & j & Hij & _ & -> & -> & Hd).
  pose proof (NotesFacts.monotone_le c Hmono) as Hle.
  split; [apply Hle, Hij|].
  intros s Hs. destruct Hd as [Hd | (m & Him & Hmj & Hd)]; [congruence|].
  assert (s = c m) as -> by congruence. split; apply Hle; assumption.
Qed.

Lemma todo_timestamps_ordered_witness :
  createdAt Samples.todo_D <= updatedAt Samples.todo_D
  /\ forall s, completedAt Samples.todo_D = Some s ->
               createdAt Samples.todo_D <= s /\ s <= updatedAt Samples.todo_D.
Proof.
  apply (todo_timestamps_ordered Samples.ticking_clock Samples.counter_uuids
           [POST (Samples.abcd_body "A" "high" (JStr "2025-01-01"));
            POST (Samples.abcd_body "B" "high" (JStr "2025-01-02"));
            POST (Samples.abcd_body "C" "urgent" JNull);
            POST (Samples.abcd_body "D" "urgent" (JStr "2025-01-01"));
            PATCH_complete "id-3"]
           Samples.todo_D).
  - intros n. unfold Samples.ticking_clock. lia.
  - vm_compute. auto 10.
Defined.

End Lifetimes.

Module Stored.
Import Todos TodosSpec LifecycleSpec.

(** *** Sample facts *)

Lemma append_cancel (p a b : string) : p +:+ a = p +:+ b -> a = b.
Proof.
  induction p as [|c p IH]; [auto|].
  rewrite !append_cons. intros [= H]. auto.
Qed.

Lemma counter_uuids_injective (i j : nat) :
  Samples.counter_uuids i = Samples.counter_uuids j -> i = j.
Proof.
  unfold Samples.counter_uuids. intros H. apply append_cancel in H.
  assert (Hnn : forall n, Nat.to_uint n <> Decimal.Nil).
  { intros n Hn. pose proof (DecimalNat.Unsigned.of_to n) as E. rewrite Hn in E.
    simpl in E. subst n. discriminate Hn. }
  apply (f_equal NilZero.uint_of_string) in H.
  rewrite !NilZero.usu in H by apply Hnn.
  injection H as H. apply DecimalNat.Unsigned.to_uint_inj, H.
Qed.

(** *** Looking a todo up *)

Lemma get_by_id_stored (todos : list Todo) (t : Todo) :
  NoDup (map id todos) -> In t todos -> router_get_by_id (id t) todos = Success 200 t.
Proof.
  intros Hnd Hin. unfold router_get_by_id. rewrite find_findIndex.
  destruct (findIndex_keyed id todos t Hnd Hin) as (index & -> & _). reflexivity.
Qed.

Lemma get_by_id_absent (rid : string) (todos : list Todo) :
  router_get_by_id rid todos = Failure 404 "Todo not found" <-> absent rid todos.
Proof.
  rewrite Lifecycle.absent_findIndex. unfold router_get_by_id. rewrite find_findIndex.
  destruct (findIndex _ todos) as [[i x]|]; simpl; split; auto; discriminate.
Qed.

(** X4.  With identifiers that never repeat, the todos of every state reached
    from empty have distinct ids, looking a stored todo up by its id returns
    that todo, and a todo just created is returned by a look-up of the id in
    the reply. *)
Theorem stored_ids_distinct
        (c : nat -> Z) (u : nat -> string) (rs : list Request) :
  (forall i j, u i = u j -> i = j) ->
  NoDup (map id (rows (serve rs (boot c u))))
  /\ (forall t, In t (rows (serve rs (boot c u))) ->
                router_get_by_id (id t) (rows (serve rs (boot c u))) = Success 200 t)
  /\ (forall body todo,
        fst (router_post body (serve rs (boot c u))) = Success 201 todo ->
        router_get_by_id (id todo) (rows (snd (router_post body (serve rs (boot c u)))))
        = Success 200 todo).
Proof.
  intros Hinj.
  pose proof (Lifecycle.serve_ids_fresh u Hinj rs (boot c u) (Lifecycle.boot_ids_fresh u c))
    as Hfresh.
  destruct Hfresh as (Hu & Hnd & Hdr).
  split; [exact Hnd|]. split; [intros t; apply get_by_id_stored, Hnd|].
  intros body todo Hpost.
  pose proof (Lifecycle.handle_ids_fresh u Hinj (POST body) _ (conj Hu (conj Hnd Hdr)))
    as (_ & Hnd' & _).
  simpl in Hnd'. apply get_by_id_stored; [exact Hnd'|].
  destruct (TodosFacts.router_post_cases body (serve rs (boot c u)))
    as [[_ H] | [[_ [_ H]] | [_ [_ [t [H _]]]]]]; rewrite H in Hpost |- *; simpl in *;
    try discriminate.
  injection Hpost as <-. apply in_or_app. right. left. reflexivity.
Qed.

Lemma stored_ids_distinct_witness :
  NoDup (map id (rows Samples.abcd))
  /\ (forall t, In t (rows Samples.abcd) ->
                router_get_by_id (id t) (rows Samples.abcd) = Success 200 t)
  /\ (forall body todo,
        fst (router_post body Samples.abcd) = Success 201 todo ->
        router_get_by_id (id todo) (rows (snd (router_post body Samples.abcd)))
        = Success 200 todo).
Proof.
  exact (stored_ids_distinct Samples.ticking_clock Samples.counter_uuids
           [POST (Samples.abcd_body "A" "high" (JStr "2025-01-01"));
            POST (Samples.abcd_body "B" "high" (JStr "2025-01-02"));
            POST (Samples.abcd_body "C" "urgent" JNull);
            POST (Samples.abcd_body "D" "urgent" (JStr "2025-01-01"));
            PATCH_complete "id-3"]
           counter_uuids_injective).
Defined.

(** X5.  A request that names an id no todo has is answered 404 and changes
    nothing: look-up, update, toggle and delete alike; and each of them answers
    404 only then. *)
Theorem absent_id_not_found (rid : string) (body : Body.t) (w : World Todo) :
  (absent rid (rows w) ->
   router_get_by_id rid (rows w) = Failure 404 "Todo not found"
   /\ router_put rid body w = (Failure 404 "Todo not found", w)
   /\ router_patch_complete rid w = (Failure 404 "Todo not found", w)
   /\ router_delete rid w = (Failure 404 "Todo not found", w))
  /\ (~ absent rid (rows w) ->
      (exists t, router_get_by_id rid (rows w) = Success 200 t)
      /\ (exists t, fst (router_put rid body w) = Success 200 t)
      /\ (exists t, fst (router_patch_complete rid w) = Success 200 t)
      /\ (exists t, fst (router_delete rid w) = Success 200 t)).
Proof.
  split.
  - intros Habs. split; [apply get_by_id_absent, Habs|].
    apply Lifecycle.absent_findIndex in Habs.
    rewrite (TodosFacts.router_put_missing _ _ _ Habs),
            (TodosFacts.router_patch_missing _ _ Habs),
            (Lifecycle.router_delete_missing _ _ Habs). auto.
  - intros Hpresent. rewrite Lifecycle.absent_findIndex in Hpresent.
    destruct (findIndex (fun t => String.eqb (id t) rid) (rows w)) as [[index old]|] eqn:E;
      [|contradiction].
    unfold router_get_by_id. rewrite find_findIndex, E.
    rewrite (TodosFacts.router_put_found _ _ _ _ _ E),
            (TodosFacts.router_patch_found _ _ _ _ E),
            (Lifecycle.router_delete_found _ _ _ _ E). simpl. eauto 10.
Qed.

End Stored.

Module Changes.
Import Todos TodosSpec LifecycleSpec.

(** *** Deleting *)

(** X14.  Among todos with distinct ids, deleting a stored todo by its id answers
    200 with that todo and removes it and nothing else: the others stay, in
    their order; the collection is one shorter; the clock and the identifier
    source are not touched; and the id is then unknown to look-up and to a
    second delete. *)
Theorem delete_stored (w : World Todo) (t : Todo) :
  NoDup (map id (rows w)) ->
  In t (rows w) ->
  router_delete (id t) w
  = (Success 200 t,
     mkWorld (clock w) (uuids w) (ticks w) (draws w)
             (List.filter (fun x => negb (String.eqb (id x) (id t))) (rows w)))
  /\ S (length (rows (snd (router_delete (id t) w)))) = length (rows w)
  /\ (forall x, In x (rows (snd (router_delete (id t) w))) <-> In x (rows w) /\ x <> t)
  /\ router_get_by_id (id t) (rows (snd (router_delete (id t) w)))
     = Failure 404 "Todo not found"
  /\ fst (router_delete (id t) (snd (router_delete (id t) w)))
     = Failure 404 "Todo not found".
Proof.
  intros Hnd Hin.
  destruct (findIndex_keyed id (rows w) t Hnd Hin) as (index & Hfind & Hlook).
  rewrite (Lifecycle.router_delete_found _ _ _ _ Hfind). simpl.
  rewrite <- (delete_found_filter id (id t) (rows w) index t Hnd Hfind).
  split; [reflexivity|]. split; [apply (length_delete_found _ _ t), Hlook|].
  rewrite (delete_found_filter id (id t) (rows w) index t Hnd Hfind).
  assert (Hmem : forall x,
             In x (List.filter (fun x => negb (String.eqb (id x) (id t))) (rows w))
             <-> In x (rows w) /\ x <> t).
  { intros x. rewrite filter_In, negb_true_iff, String.eqb_neq. split.
    - intros [Hx Hne]. split; [exact Hx | congruence].
    - intros [Hx Hne]. split; [exact Hx|]. intros Heq. apply Hne.
      apply (NoDup_map_eq id (rows w)); auto. }
  split; [exact Hmem|].
  assert (Habs : absent (id t)
                   (List.filter (fun x => negb (String.eqb (id x) (id t))) (rows w))).
  { intros x Hx. apply filter_In in Hx. destruct Hx as [_ Hx].
    apply negb_true_iff, String.eqb_neq in Hx. exact Hx. }
  split; [apply Stored.get_by_id_absent, Habs|].
  rewrite Lifecycle.router_delete_missing; [reflexivity|].
  apply Lifecycle.absent_findIndex, Habs.
Qed.

Lemma abcd_ids : NoDup (map id (rows Samples.abcd)).
Proof.
  let r := eval vm_compute in (map id (rows Samples.abcd)) in
  change (map id (rows Samples.abcd)) with r.
  repeat (apply NoDup_cons_2;
          [intros H; apply list_elem_of_In in H; simpl in H; intuition discriminate|]).
  apply NoDup_nil_2.
Qed.

Lemma abcd_B : In Samples.todo_B (rows Samples.abcd).
Proof. vm_compute. auto. Qed.

Lemma delete_stored_witness :
  router_delete "id-1" Samples.abcd
  = (Success 200 Samples.todo_B,
     mkWorld (clock Samples.abcd) (uuids Samples.abcd) (ticks Samples.abcd)
             (draws Samples.abcd)
             (List.filter (fun x => negb (String.eqb (id x) "id-1")) (rows Samples.abcd)))
  /\ S (length (rows (snd (router_delete "id-1" Samples.abcd))))
     = length (rows Samples.abcd)
  /\ (forall x, In x (rows (snd (router_delete "id-1" Samples.abcd)))
                <-> In x (rows Samples.abcd) /\ x <> Samples.todo_B)
  /\ router_get_by_id "id-1" (rows (snd (router_delete "id-1" Samples.abcd)))
     = Failure 404 "Todo not found"
  /\ fst (router_delete "id-1" (snd (router_delete "id-1" Samples.abcd)))
     = Failure 404 "Todo not found".
Proof. exact (delete_stored Samples.abcd Samples.todo_B abcd_ids abcd_B). Defined.

(** *** Updating *)

Lemma put_nothing (c : nat -> Z) (k : nat) (body : Body.t) (old : Todo) :
  supplies_nothing body -> put_todo c k body old = touch (c k) old.
Proof.
  intros (H1 & H2 & H3 & H4 & H5 & H6 & H7 & H8 & H9 & H10).
  unfold put_todo, put_completes, touch, merge, merge_opt.
  rewrite H1, H2, H3, H4, H5, H6, H7, H8, H9, H10. reflexivity.
Qed.

(** X11.  An update that supplies none of the fields it merges (an empty body,
    or one with unknown keys or only [type]) answers 200 and changes the
    addressed todo in its [updatedAt] alone, which becomes the current instant;
    it reads the clock once and leaves every other todo as it was. *)
Theorem put_nothing_touches (w : World Todo) (t : Todo) (body : Body.t) :
  NoDup (map id (rows w)) ->
  In t (rows w) ->
  supplies_nothing body ->
  exists index,
    rows w !! index = Some t
    /\ router_put (id t) body w
       = (Success 200 (touch (clock w (ticks w)) t),
          mkWorld (clock w) (uuids w) (S (ticks w)) (draws w)
                  (<[index := touch (clock w (ticks w)) t]> (rows w))).
Proof.
  intros Hnd Hin Hbody.
  destruct (findIndex_keyed id (rows w) t Hnd Hin) as (index & Hfind & Hlook).
  exists index. split; [exact Hlook|].
  rewrite (TodosFacts.router_put_found _ _ _ _ _ Hfind), (put_nothing _ _ _ _ Hbody).
  assert (put_completes body t = false) as ->; [|reflexivity].
  unfold put_completes. destruct Hbody as (_ & _ & _ & -> & _). reflexivity.
Qed.

Lemma put_nothing_touches_witness :
  exists index,
    rows Samples.abcd !! index = Some Samples.todo_B
    /\ router_put "id-1" (Samples.with_type "habit" Samples.todo_body) Samples.abcd
       = (Success 200 (touch (clock Samples.abcd (ticks Samples.abcd)) Samples.todo_B),
          mkWorld (clock Samples.abcd) (uuids Samples.abcd) (S (ticks Samples.abcd))
                  (draws Samples.abcd)
                  (<[index := touch (clock Samples.abcd (ticks Samples.abcd)) Samples.todo_B]>
                     (rows Samples.abcd))).
Proof.
  apply (put_nothing_touches Samples.abcd Samples.todo_B
           (Samples.with_type "habit" Samples.todo_body) abcd_ids abcd_B).
  repeat split.
Defined.

(** X12.  An update stores a type-specific field it is given on a todo of any
    type: the key gets the supplied value, a key it is not given stays as it
    was, present or absent, and the type does not change.  So a task can come
    to carry a [url], which no creation gives it. *)
Theorem put_type_fields_unchecked (w : World Todo) (t : Todo) (body : Body.t) :
  NoDup (map id (rows w)) ->
  In t (rows w) ->
  exists index t',
    rows w !! index = Some t
    /\ fst (router_put (id t) body w) = Success 200 t'
    /\ rows (snd (router_put (id t) body w)) !! index = Some t'
    /\ type t' = type t
    /\ habitFrequency t'
       = (if is_undefined (Body.habitFrequency body) then habitFrequency t
          else Some (Body.habitFrequency body))
    /\ reminderTime t'
       = (if is_undefined (Body.reminderTime body) then reminderTime t
          else Some (Body.reminderTime body))
    /\ url t'
       = (if is_undefined (Body.url body) then url t else Some (Body.url body))
    /\ quantity t'
       = (if is_undefined (Body.quantity body) then quantity t
          else Some (Body.quantity body)).
Proof.
  intros Hnd Hin.
  destruct (findIndex_keyed id (rows w) t Hnd Hin) as (index & Hfind & Hlook).
  exists index, (put_todo (clock w) (ticks w) body t).
  rewrite (TodosFacts.router_put_found _ _ _ _ _ Hfind). simpl.
  split; [exact Hlook|]. split; [reflexivity|]. split.
  { apply list_lookup_insert_eq. eapply lookup_lt_Some, Hlook. }
  unfold merge_opt.
  destruct (is_undefined (Body.habitFrequency body)),
           (is_undefined (Body.reminderTime body)),
           (is_undefined (Body.url body)),
           (is_undefined (Body.quantity body)); repeat split.
Qed.

Lemma put_type_fields_unchecked_witness :
  exists index t',
    rows Samples.abcd !! index = Some Samples.todo_B
    /\ fst (router_put "id-1" Samples.task_with_url Samples.abcd) = Success 200 t'
    /\ rows (snd (router_put "id-1" Samples.task_with_url Samples.abcd)) !! index = Some t'
    /\ type t' = JStr "task"
    /\ habitFrequency t' = None
    /\ reminderTime t' = None
    /\ url t' = Some (JStr "https://example.org")
    /\ quantity t' = None.
Proof.
  exact (put_type_fields_unchecked Samples.abcd Samples.todo_B Samples.task_with_url
           abcd_ids abcd_B).
Defined.

(** *** Toggling *)

(** X13.  A toggle of a stored todo answers 200 with the todo rewritten in three
    fields only: [isCompleted] becomes the boolean opposite of its former
    truth value, and [completedAt] and [updatedAt] are set; every other field
    of the todo, and every other todo, is as before. *)
Theorem toggle_frame (w : World Todo) (t : Todo) :
  NoDup (map id (rows w)) ->
  In t (rows w) ->
  exists index t',
    rows w !! index = Some t
    /\ fst (router_patch_complete (id t) w) = Success 200 t'
    /\ rows (snd (router_patch_complete (id t) w)) = <[index := t']> (rows w)
    /\ isCompleted t' = JBool (negb (truthy (isCompleted t)))
    /\ touch (updatedAt t) t'
       = {| id := id t; type := type t; title := title t;
            description := description t; priority := priority t;
            isCompleted := isCompleted t'; dueDate := dueDate t; tags := tags t;
            habitFrequency := habitFrequency t; reminderTime := reminderTime t;
            url := url t; quantity := quantity t; createdAt := createdAt t;
            updatedAt := updatedAt t; completedAt := completedAt t' |}
    /\ (forall j, j <> index ->
                  rows (snd (router_patch_complete (id t) w)) !! j = rows w !! j).
Proof.
  intros Hnd Hin.
  destruct (findIndex_keyed id (rows w) t Hnd Hin) as (index & Hfind & Hlook).
  exists index, (patch_todo (clock w) (ticks w) t).
  rewrite (TodosFacts.router_patch_found _ _ _ _ Hfind). simpl.
  split; [exact Hlook|]. repeat split.
  intros j Hj. apply list_lookup_insert_ne. auto.
Qed.

Lemma toggle_frame_witness :
  exists index t',
    rows Samples.abcd !! index = Some Samples.todo_B
    /\ fst (router_patch_complete "id-1" Samples.abcd) = Success 200 t'
    /\ rows (snd (router_patch_complete "id-1" Samples.abcd))
       = <[index := t']> (rows Samples.abcd)
    /\ isCompleted t' = JBool true
    /\ touch 1764547200003 t'
       = {| id := "id-1"; type := JStr "task"; title := JStr "B";
            description := JStr ""; priority := JStr "high";
            isCompleted := isCompleted t'; dueDate := JStr "2025-01-02";
            tags := JArr [];
            habitFrequency := None; reminderTime := None;
            url := None; quantity := None; createdAt := 1764547200002;
            updatedAt := 1764547200003; completedAt := completedAt t' |}
    /\ (forall j, j <> index ->
                  rows (snd (router_patch_complete "id-1" Samples.abcd)) !! j
                  = rows Samples.abcd !! j).
Proof. exact (toggle_frame Samples.abcd Samples.todo_B abcd_ids abcd_B). Defined.

End Changes.

Module Creation.
Import Todos TodosSpec LifecycleSpec.

(** *** Creating *)

Lemma or_default_valid (v : JsValue) :
  is_valid_type (or_default v (JStr "task")) <-> v = JUndefined \/ is_valid_type v.
Proof.
  unfold or_default. destruct v; simpl; split; auto.
  - intros _. exists "task". simpl. auto.
  - intros [H | H]; [discriminate | exact H].
  - intros [H | H]; [discriminate | exact H].
  - intros [H | H]; [discriminate | exact H].
  - intros [H | H]; [discriminate | exact H].
  - intros [H | H]; [discriminate | exact H].
  - intros [H | H]; [discriminate | exact H].
Qed.

Lemma or_default_defaulted (v d : JsValue) : defaulted v d (or_default v d).
Proof. unfold defaulted, or_default. destruct v; simpl; split; intros H; congruence. Qed.

(** X7.  A create request is accepted exactly when its title is truthy and its
    type is absent or one of the seven.  An accepted request appends one todo
    to the collection, pending, with the id drawn for it and the request's
    title; [description], [priority], [dueDate] and [tags] are the request's
    values, of whatever kind, and the empty string, medium, null and the
    empty list where the request has none.  A refused request is answered 400
    and changes nothing. *)
Theorem create_accepts (body : Body.t) (w : World Todo) :
  ((exists todo, fst (router_post body w) = Success 201 todo)
   <-> truthy (Body.title body) = true
       /\ (Body.type body = JUndefined \/ is_valid_type (Body.type body)))
  /\ (forall todo,
        fst (router_post body w) = Success 201 todo ->
        rows (snd (router_post body w)) = (rows w ++ [todo])%list
        /\ id todo = uuids w (draws w)
        /\ title todo = Body.title body
        /\ defaulted (Body.description body) (JStr "") (description todo)
        /\ defaulted (Body.priority body) (JStr "medium") (priority todo)
        /\ defaulted (Body.dueDate body) JNull (dueDate todo)
        /\ defaulted (Body.tags body) (JArr []) (tags todo)
        /\ isCompleted todo = JBool false
        /\ completedAt todo = None)
  /\ ((forall todo, fst (router_post body w) <> Success 201 todo) ->
      exists message, router_post body w = (Failure 400 message, w)).
Proof.
  destruct (TodosFacts.router_post_cases body w)
    as [[Ht H] | [[Ht [Hbad H]] | [Ht [Hok [t [H Heq]]]]]]; rewrite H; simpl.
  - split; [|split].
    + split; [intros [todo Hs]; discriminate | intros [Ht' _]; congruence].
    + intros todo Hs. discriminate.
    + eauto.
  - split; [|split].
    + split; [intros [todo Hs]; discriminate|].
      intros [_ Hty]. exfalso. apply Hbad, or_default_valid, Hty.
    + intros todo Hs. discriminate.
    + eauto.
  - split; [|split].
    + split; [|eauto]. intros _. split; [exact Ht|]. apply or_default_valid, Hok.
    + intros todo [= <-]. subst t. simpl.
      do 3 (split; [reflexivity|]).
      do 4 (split; [apply or_default_defaulted|]).
      split; reflexivity.
    + intros Hnone. exfalso. apply (Hnone t). reflexivity.
Qed.

(** *** The catalog of types *)

(** X8.  The catalog [GET /api/todos/types] returns lists the seven types the
    create handler accepts, in the same order and without repetition: a
    request with a truthy title and a type of the catalog is accepted with
    that type, and the type of every created todo is in the catalog. *)
Theorem catalog_matches_validator :
  map TypeInfo.type router_get_types = validTypes
  /\ NoDup (map TypeInfo.type router_get_types)
  /\ (forall body w info,
        truthy (Body.title body) = true ->
        In info router_get_types ->
        Body.type body = JStr (TypeInfo.type info) ->
        exists todo,
          fst (router_post body w) = Success 201 todo
          /\ type todo = JStr (TypeInfo.type info))
  /\ (forall body w todo,
        fst (router_post body w) = Success 201 todo ->
        exists info, In info router_get_types /\ type todo = JStr (TypeInfo.type info)).
Proof.
  assert (Hcat : map TypeInfo.type router_get_types = validTypes) by reflexivity.
  split; [exact Hcat|]. split.
  { rewrite Hcat. unfold validTypes.
    repeat (apply NoDup_cons_2;
            [intros H; apply list_elem_of_In in H; simpl in H; intuition discriminate|]).
    apply NoDup_nil_2. }
  split.
  - intros body w info Ht Hin Hty.
    assert (Hvalid : is_valid_type (or_default (Body.type body) (JStr "task"))).
    { rewrite Hty. exists (TypeInfo.type info). split; [|reflexivity].
      rewrite <- Hcat. apply in_map, Hin. }
    destruct (TodosFacts.router_post_cases body w)
      as [[Ht' _] | [[_ [Hbad _]] | [_ [_ [t [H Heq]]]]]]; [congruence | contradiction |].
    exists t. rewrite H. split; [reflexivity|]. subst t. simpl. rewrite Hty. reflexivity.
  - intros body w todo Hs.
    destruct (TodosFacts.router_post_cases body w)
      as [[_ H] | [[_ [_ H]] | [_ [(s & Hs' & Hv) [t [H Heq]]]]]]; rewrite H in Hs;
      simpl in Hs; try discriminate.
    injection Hs as <-. rewrite <- Hcat in Hs'. apply in_map_iff in Hs'.
    destruct Hs' as (info & <- & Hin). exists info. split; [exact Hin|].
    subst t. simpl. exact Hv.
Qed.

(** *** A title that is not a string *)

Lemma filter_with_throws {A} (p : A -> option bool) (l : list A) (x : A) :
  In x l -> p x = None -> filter_with p l = None.
Proof.
  induction l as [|y l IH]; simpl; [tauto|].
  intros [<-|Hin] Hx.
  - rewrite Hx. reflexivity.
  - destruct (p y); [|reflexivity]. simpl. rewrite (IH Hin Hx). reflexivity.
Qed.

(** X10.  Create accepts a title that is truthy without being a string (a
    number, [true], an array); once such a todo is in the collection, a list
    request that supplies [search] and no [type], [priority], [completed] or
    [tag] never gets its list: [title.toLowerCase] is not a function and the
    handler throws. *)
Theorem non_text_title_breaks_search
        (parse : string -> num) (lowercase : string -> string)
        (body : Body.t) (w : World Todo) (q : Query.t) (s : string) :
  truthy (Body.title body) = true ->
  (forall x, Body.title body <> JStr x) ->
  Body.type body = JUndefined \/ is_valid_type (Body.type body) ->
  Query.type q = JUndefined -> Query.priority q = JUndefined ->
  Query.completed q = JUndefined -> Query.tag q = JUndefined ->
  Query.search q = JStr s -> s <> "" ->
  (exists todo, fst (router_post body w) = Success 201 todo)
  /\ router_get parse lowercase q (rows (snd (router_post body w))) = None.
Proof.
  intros Ht Hnot Hty Q1 Q2 Q3 Q4 Q5 Hs.
  destruct (TodosFacts.router_post_cases body w)
    as [[Ht' _] | [[_ [Hbad _]] | [_ [_ [t [H Heq]]]]]]; [congruence | |].
  { exfalso. apply Hbad, or_default_valid, Hty. }
  rewrite H. simpl. split; [eauto|].
  unfold router_get, apply_filters. rewrite Q1, Q2, Q3, Q4, Q5.
  cbn [truthy is_undefined negb mbind option_bind toLowerCase].
  assert (Hne : negb (String.eqb s "") = true)
    by (apply negb_true_iff, String.eqb_neq, Hs).
  rewrite Hne. cbn [mbind option_bind].
  rewrite (filter_with_throws (search_hit lowercase (lowercase s)) _ t); [reflexivity | |].
  - apply in_or_app. right. left. reflexivity.
  - unfold search_hit. subst t. cbn [title].
    destruct (Body.title body); try reflexivity. exfalso. eapply Hnot. reflexivity.
Qed.

Lemma non_text_title_breaks_search_witness :
  (exists todo,
      fst (router_post
             (Body.mk JUndefined (JNum 2025) JUndefined JUndefined JUndefined JUndefined
                      JUndefined JUndefined JUndefined JUndefined JUndefined)
             Samples.abcd) = Success 201 todo)
  /\ router_get Samples.parse_date_only Latin.lowercase
       (Query.mk JUndefined JUndefined JUndefined JUndefined (JStr "a") JUndefined JUndefined)
       (rows (snd (router_post
                     (Body.mk JUndefined (JNum 2025) JUndefined JUndefined JUndefined
                              JUndefined JUndefined JUndefined JUndefined JUndefined
                              JUndefined)
                     Samples.abcd))) = None.
Proof.
  apply (non_text_title_breaks_search Samples.parse_date_only Latin.lowercase
           (Body.mk JUndefined (JNum 2025) JUndefined JUndefined JUndefined JUndefined
                    JUndefined JUndefined JUndefined JUndefined JUndefined)
           Samples.abcd
           (Query.mk JUndefined JUndefined JUndefined JUndefined (JStr "a")
                     JUndefined JUndefined) "a");
    try reflexivity; try discriminate.
  left. reflexivity.
Defined.

(** *** Types *)

(** X9.  In every state reached from empty, whatever the bodies of the requests
    were, the type of each todo is one of the seven. *)
Theorem stored_types_valid
        (c : nat -> Z) (u : nat -> string) (rs : list Request) (t : Todo) :
  In t (rows (serve rs (boot c u))) -> is_valid_type (type t).
Proof.
  intros Hin.
  assert (Hall : Forall (fun t => is_valid_type (type t)) (rows (serve rs (boot c u))))
    by (apply ListingFacts.serve_valid_types; constructor).
  rewrite Forall_forall in Hall. apply Hall, list_elem_of_In, Hin.
Qed.

Lemma stored_types_valid_witness : is_valid_type (type Samples.todo_B).
Proof.
  apply (stored_types_valid Samples.ticking_clock Samples.counter_uuids
           [POST (Samples.abcd_body "A" "high" (JStr "2025-01-01"));
            POST (Samples.abcd_body "B" "high" (JStr "2025-01-02"));
            POST (Samples.abcd_body "C" "urgent" JNull);
            POST (Samples.abcd_body "D" "urgent" (JStr "2025-01-01"));
            PATCH_complete "id-3"]
           Samples.todo_B).
  vm_compute. auto.
Defined.

End Creation.

(** ** Notes: create, update, delete, look-up *)

Module NotesLife.
Import Notes NotesSpec NotesListSpec.

Lemma note_delete_cases (rid : string) (w : World Note) :
  (findIndex (fun n => String.eqb (id n) rid) (rows w) = None /\
   router_delete rid w = (Failure 404 "Note not found", w))
  \/ (exists index old,
        findIndex (fun n => String.eqb (id n) rid) (rows w) = Some (index, old) /\
        router_delete rid w
        = (Success 200 old,
           mkWorld (clock w) (uuids w) (ticks w) (draws w) (delete index (rows w)))).
Proof.
  unfold router_delete, bind, load.
  destruct (findIndex (fun n => String.eqb (id n) rid) (rows w)) as [[index old]|] eqn:Hfind.
  - right. exists index, old. split; reflexivity.
  - left. split; reflexivity.
Qed.

Lemma note_absent_findIndex (rid : string) (notes : list Note) :
  absent rid notes <-> findIndex (fun n => String.eqb (id n) rid) notes = None.
Proof.
  rewrite findIndex_None_iff. unfold absent.
  split; intros H n Hn; specialize (H n Hn).
  - apply String.eqb_neq, H.
  - apply String.eqb_neq, H.
Qed.

Lemma note_get_by_id_absent (rid : string) (notes : list Note) :
  router_get_by_id rid notes = Failure 404 "Note not found" <-> absent rid notes.
Proof.
  rewrite note_absent_findIndex. unfold router_get_by_id. rewrite find_findIndex.
  destruct (findIndex _ notes) as [[i x]|]; simpl; split; auto; discriminate.
Qed.

(** X15.  A note is created exactly when the request has a truthy title.  The
    created note is appended to the collection with the id drawn for it and
    the request's title; [content], [tags] and [isPinned] are the request's
    values, of whatever kind, and the empty string, the empty list and false
    where the request has none.  A request without a truthy title is
    answered 400 "Title is required" and changes nothing. *)
Theorem note_create_accepts (body : Body.t) (w : World Note) :
  ((exists note, fst (router_post body w) = Success 201 note)
   <-> truthy (Body.title body) = true)
  /\ (forall note,
        fst (router_post body w) = Success 201 note ->
        rows (snd (router_post body w)) = (rows w ++ [note])%list
        /\ id note = uuids w (draws w)
        /\ title note = Body.title body
        /\ defaulted (Body.content body) (JStr "") (content note)
        /\ defaulted (Body.tags body) (JArr []) (tags note)
        /\ defaulted (Body.isPinned body) (JBool false) (isPinned note))
  /\ (truthy (Body.title body) = false ->
      router_post body w = (Failure 400 "Title is required", w)).
Proof.
  destruct (NotesFacts.note_post_cases body w) as [[Ht H] | [Ht [n [H Hn]]]];
    rewrite H; simpl.
  - split; [|split].
    + split; [intros [note Hs]; discriminate | congruence].
    + intros note Hs. discriminate.
    + reflexivity.
  - split; [|split].
    + split; eauto.
    + intros note [= <-]. subst n. simpl.
      do 3 (split; [reflexivity|]).
      split; [|split]; apply Creation.or_default_defaulted.
    + congruence.
Qed.

(** X16.  Among notes with distinct ids, an update of a stored note answers 200
    with the note rewritten in place: [id] and [createdAt] are kept,
    [updatedAt] becomes the one reading the handler takes of the clock, and
    each of [title], [content], [tags] and [isPinned] becomes the request's
    value when the request has the field (any value, an empty title included)
    and stays as it was when it has not.  The other notes are untouched. *)
Theorem note_update (w : World Note) (n : Note) (body : Body.t) :
  NoDup (map id (rows w)) ->
  In n (rows w) ->
  exists index n',
    rows w !! index = Some n
    /\ router_put (id n) body w
       = (Success 200 n',
          mkWorld (clock w) (uuids w) (S (ticks w)) (draws w) (<[index := n']> (rows w)))
    /\ id n' = id n
    /\ createdAt n' = createdAt n
    /\ updatedAt n' = clock w (ticks w)
    /\ title n' = (if is_undefined (Body.title body) then title n else Body.title body)
    /\ content n'
       = (if is_undefined (Body.content body) then content n else Body.content body)
    /\ tags n' = (if is_undefined (Body.tags body) then tags n else Body.tags body)
    /\ isPinned n'
       = (if is_undefined (Body.isPinned body) then isPinned n else Body.isPinned body)
    /\ (forall j, j <> index -> (<[index := n']> (rows w)) !! j = rows w !! j).
Proof.
  intros Hnd Hin.
  destruct (findIndex_keyed id (rows w) n Hnd Hin) as (index & Hfind & Hlook).
  exists index, (put_note (clock w (ticks w)) body n).
  split; [exact Hlook|]. split.
  { destruct (NotesFacts.note_put_cases (id n) body w)
      as [[Hnone _] | (index' & old & Hfind' & ->)]; [congruence|].
    rewrite Hfind in Hfind'. injection Hfind' as <- <-. reflexivity. }
  unfold put_note. simpl.
  destruct (is_undefined (Body.title body)), (is_undefined (Body.content body)),
           (is_undefined (Body.tags body)), (is_undefined (Body.isPinned body));
    simpl; repeat split; intros j Hj; apply list_lookup_insert_ne; auto.
Qed.

Lemma two_notes_ids : NoDup (map id (rows Samples.two_notes)).
Proof.
  let r := eval vm_compute in (map id (rows Samples.two_notes)) in
  change (map id (rows Samples.two_notes)) with r.
  repeat (apply NoDup_cons_2;
          [intros H; apply list_elem_of_In in H; simpl in H; intuition discriminate|]).
  apply NoDup_nil_2.
Qed.

Lemma two_notes_minutes : In Samples.note_minutes (rows Samples.two_notes).
Proof. vm_compute. auto. Qed.

Lemma note_update_witness :
  exists index n',
    rows Samples.two_notes !! index = Some Samples.note_minutes
    /\ router_put "id-0" (Body.mk (JStr "") JUndefined JUndefined JUndefined)
                  Samples.two_notes
       = (Success 200 n',
          mkWorld (clock Samples.two_notes) (uuids Samples.two_notes)
                  (S (ticks Samples.two_notes)) (draws Samples.two_notes)
                  (<[index := n']> (rows Samples.two_notes)))
    /\ id n' = "id-0"
    /\ createdAt n' = 1764547200000
    /\ updatedAt n' = clock Samples.two_notes (ticks Samples.two_notes)
    /\ title n' = JStr ""
    /\ content n' = JStr ""
    /\ tags n' = JArr []
    /\ isPinned n' = JBool false
    /\ (forall j, j <> index ->
                  (<[index := n']> (rows Samples.two_notes)) !! j
                  = rows Samples.two_notes !! j).
Proof.
  exact (note_update Samples.two_notes Samples.note_minutes
           (Body.mk (JStr "") JUndefined JUndefined JUndefined)
           two_notes_ids two_notes_minutes).
Defined.

(** X17.  Among notes with distinct ids, deleting a stored note by its id answers
    200 with that note and removes it and nothing else: the others stay, in
    their order; the clock and the identifier source are not touched; and the
    id is then unknown to look-up, to update and to a second delete. *)
Theorem note_delete_stored (w : World Note) (n : Note) (body : Body.t) :
  NoDup (map id (rows w)) ->
  In n (rows w) ->
  router_delete (id n) w
  = (Success 200 n,
     mkWorld (clock w) (uuids w) (ticks w) (draws w)
             (List.filter (fun x => negb (String.eqb (id x) (id n))) (rows w)))
  /\ (forall x, In x (rows (snd (router_delete (id n) w))) <-> In x (rows w) /\ x <> n)
  /\ router_get_by_id (id n) (rows (snd (router_delete (id n) w)))
     = Failure 404 "Note not found"
  /\ fst (router_put (id n) body (snd (router_delete (id n) w)))
     = Failure 404 "Note not found"
  /\ fst (router_delete (id n) (snd (router_delete (id n) w)))
     = Failure 404 "Note not found".
Proof.
  intros Hnd Hin.
  destruct (findIndex_keyed id (rows w) n Hnd Hin) as (index & Hfind & Hlook).
  destruct (note_delete_cases (id n) w) as [[Hnone _] | (i' & old & Hfind' & ->)];
    [congruence|].
  rewrite Hfind in Hfind'. injection Hfind' as <- <-. simpl.
  rewrite (delete_found_filter id (id n) (rows w) index n Hnd Hfind).
  split; [reflexivity|].
  assert (Hmem : forall x,
             In x (List.filter (fun x => negb (String.eqb (id x) (id n))) (rows w))
             <-> In x (rows w) /\ x <> n).
  { intros x. rewrite filter_In, negb_true_iff, String.eqb_neq. split.
    - intros [Hx Hne]. split; [exact Hx | congruence].
    - intros [Hx Hne]. split; [exact Hx|]. intros Heq. apply Hne.
      apply (NoDup_map_eq id (rows w)); auto. }
  split; [exact Hmem|].
  assert (Habs : absent (id n)
                   (List.filter (fun x => negb (String.eqb (id x) (id n))) (rows w))).
  { intros x Hx. apply filter_In in Hx. destruct Hx as [_ Hx].
    apply negb_true_iff, String.eqb_neq in Hx. exact Hx. }
  split; [apply note_get_by_id_absent, Habs|].
  apply note_absent_findIndex in Habs. split.
  - destruct (NotesFacts.note_put_cases (id n) body
                (mkWorld (clock w) (uuids w) (ticks w) (draws w)
                   (List.filter (fun x => negb (String.eqb (id x) (id n))) (rows w))))
      as [[_ ->] | (i' & old & Hfind' & _)]; [reflexivity|].
    simpl in Hfind'. congruence.
  - destruct (note_delete_cases (id n)
                (mkWorld (clock w) (uuids w) (ticks w) (draws w)
                   (List.filter (fun x => negb (String.eqb (id x) (id n))) (rows w))))
      as [[_ ->] | (i' & old & Hfind' & _)]; [reflexivity|].
    simpl in Hfind'. congruence.
Qed.

Lemma note_delete_stored_witness :
  router_delete "id-0" Samples.two_notes
  = (Success 200 Samples.note_minutes,
     mkWorld (clock Samples.two_notes) (uuids Samples.two_notes)
             (ticks Samples.two_notes) (draws Samples.two_notes)
             (List.filter (fun x => negb (String.eqb (id x) "id-0"))
                          (rows Samples.two_notes)))
  /\ (forall x, In x (rows (snd (router_delete "id-0" Samples.two_notes)))
                <-> In x (rows Samples.two_notes) /\ x <> Samples.note_minutes)
  /\ router_get_by_id "id-0" (rows (snd (router_delete "id-0" Samples.two_notes)))
     = Failure 404 "Note not found"
  /\ fst (router_put "id-0" (Body.mk (JStr "Agenda") JUndefined JUndefined JUndefined)
                     (snd (router_delete "id-0" Samples.two_notes)))
     = Failure 404 "Note not found"
  /\ fst (router_delete "id-0" (snd (router_delete "id-0" Samples.two_notes)))
     = Failure 404 "Note not found".
Proof.
  exact (note_delete_stored Samples.two_notes Samples.note_minutes
           (Body.mk (JStr "Agenda") JUndefined JUndefined JUndefined)
           two_notes_ids two_notes_minutes).
Defined.

(** X18.  A request that names an id no note has is answered 404 "Note not found"
    and changes nothing: look-up, update and delete alike; and each of them
    answers 200 when some note has the id. *)
Theorem note_absent_id_not_found (rid : string) (body : Body.t) (w : World Note) :
  (absent rid (rows w) ->
   router_get_by_id rid (rows w) = Failure 404 "Note not found"
   /\ router_put rid body w = (Failure 404 "Note not found", w)
   /\ router_delete rid w = (Failure 404 "Note not found", w))
  /\ (~ absent rid (rows w) ->
      (exists n, router_get_by_id rid (rows w) = Success 200 n)
      /\ (exists n, fst (router_put rid body w) = Success 200 n)
      /\ (exists n, fst (router_delete rid w) = Success 200 n)).
Proof.
  split.
  - intros Habs. split; [apply note_get_by_id_absent, Habs|].
    apply note_absent_findIndex in Habs.
    destruct (NotesFacts.note_put_cases rid body w) as [[_ ->] | (i & old & Hf & _)];
      [|congruence].
    destruct (note_delete_cases rid w) as [[_ ->] | (i & old & Hf & _)]; [|congruence].
    auto.
  - intros Hpresent. rewrite note_absent_findIndex in Hpresent.
    unfold router_get_by_id. rewrite find_findIndex.
    destruct (NotesFacts.note_put_cases rid body w) as [[Hf _] | (i & old & Hf & ->)];
      [contradiction|].
    destruct (note_delete_cases rid w) as [[Hf' _] | (i' & old' & Hf' & ->)];
      [contradiction|].
    rewrite Hf. simpl. repeat split; eexists; reflexivity.
Qed.

End NotesLife.

(** ** Notes: the list *)

Module NotesListFacts.
Import Notes NotesList NotesListSpec.

(** *** The order of the list *)

Lemma no_laterb_spec (a b : Note) : no_laterb a b = true <-> no_later a b.
Proof.
  unfold no_laterb, no_later.
  destruct (truthy (isPinned a)), (truthy (isPinned b)); simpl;
    rewrite ?Z.leb_le; intuition (try discriminate; auto).
Qed.

Lemma no_laterb_total (a b : Note) : no_laterb a b = true \/ no_laterb b a = true.
Proof.
  unfold no_laterb.
  destruct (truthy (isPinned a)), (truthy (isPinned b)); simpl; auto;
    destruct (Z.leb_spec (updatedAt b) (updatedAt a));
    destruct (Z.leb_spec (updatedAt a) (updatedAt b)); auto; lia.
Qed.

Lemma no_laterb_trans (a b c : Note) :
  no_laterb a b = true -> no_laterb b c = true -> no_laterb a c = true.
Proof.
  unfold no_laterb.
  destruct (truthy (isPinned a)), (truthy (isPinned b)), (truthy (isPinned c)); simpl;
    rewrite ?Z.leb_le; try discriminate; auto; lia.
Qed.

(** On notes whose [isPinned] is a boolean the comparator orders pinned
    before unpinned and then the later [updatedAt] first. *)
Lemma compare_pinned (a b : Note) :
  pinned_kind a -> pinned_kind b ->
  ListingSpec.leb_of compare a b = no_laterb a b.
Proof.
  intros [x Hx] [y Hy]. unfold ListingSpec.leb_of, compare, no_laterb.
  rewrite Hx, Hy. simpl.
  destruct x, y; simpl; try reflexivity;
    destruct (Z.leb_spec (updatedAt b - updatedAt a) 0);
    destruct (Z.leb_spec (updatedAt b) (updatedAt a)); auto; lia.
Qed.

Lemma note_filters_sublist (lowercase : string -> string) (q : Query.t)
      (notes r : list Note) :
  apply_filters lowercase q notes = Some r -> sublist r notes.
Proof.
  unfold apply_filters.
  destruct (if truthy (Query.tag q) then _ else Some notes) as [f1|] eqn:E1;
    cbn [mbind option_bind]; [|discriminate].
  assert (H1 : sublist f1 notes).
  { destruct (truthy (Query.tag q)).
    - apply (ListingFacts.filter_with_sublist _ _ _ E1).
    - injection E1 as <-. reflexivity. }
  set (f2 := if negb (is_undefined (Query.pinned q)) then _ else f1).
  assert (H2 : sublist f2 notes).
  { subst f2. destruct (negb (is_undefined (Query.pinned q))); [|exact H1].
    etransitivity; [apply ListingFacts.filter_sublist | exact H1]. }
  clearbody f2.
  destruct (truthy (Query.search q)).
  - destruct (toLowerCase lowercase (Query.search q)) as [sl|];
      cbn [mbind option_bind]; [|discriminate].
    intros H. etransitivity; [apply (ListingFacts.filter_with_sublist _ _ _ H) | exact H2].
  - intros [= <-]. exact H2.
Qed.

(** X19.  The order of the notes list.  When the notes the filters keep have a
    boolean [isPinned], [GET /api/notes] returns them rearranged so that every
    pinned note comes before every unpinned one and, within each group, a
    note updated later comes first.  The filters keep the notes in their
    stored order, and notes that tie (same pin state, same [updatedAt]) are
    listed in the order the filters left them in.  [meta.total] is the number
    of notes returned. *)
Theorem notes_list_order (lowercase : string -> string) (q : Query.t)
        (notes filtered : list Note) :
  apply_filters lowercase q notes = Some filtered ->
  Forall pinned_kind filtered ->
  exists listing,
    router_get lowercase q notes = Some listing
    /\ sublist filtered notes
    /\ Permutation filtered (data listing)
    /\ StronglySorted no_later (data listing)
    /\ (forall k,
          List.filter (fun n => tie n k) (data listing)
          = List.filter (fun n => tie n k) filtered)
    /\ total listing = length (data listing).
Proof.
  intros Hf Hp. rewrite Forall_forall in Hp.
  assert (Hsort : isort (ListingSpec.leb_of compare) filtered = isort no_laterb filtered).
  { apply isort_ext. intros x y Hx Hy.
    apply compare_pinned; apply Hp, list_elem_of_In; assumption. }
  exists {| data := isort no_laterb filtered; total := length (isort no_laterb filtered) |}.
  split.
  { unfold router_get. rewrite Hf. cbn [mbind option_bind].
    rewrite ListingFacts.sort_total, Hsort; [reflexivity|].
    intros x y _ _. unfold compare.
    destruct (negb (strict_eq (isPinned x) (isPinned y))); eauto. }
  split; [apply (note_filters_sublist _ _ _ _ Hf)|].
  cbn [data total]. split; [apply isort_perm|]. split; [|split; [|reflexivity]].
  - apply (ListingFacts.StronglySorted_impl (fun a b => no_laterb a b = true)).
    + intros x y. apply no_laterb_spec.
    + apply isort_sorted.
      * intros x y. apply no_laterb_total.
      * intros x y z. apply no_laterb_trans.
  - intros k. apply isort_stable. intros x y Hx Hy.
    unfold tie in Hx, Hy. apply andb_true_iff in Hx, Hy.
    destruct Hx as [Hx _], Hy as [_ Hy]. eapply no_laterb_trans; eassumption.
Qed.

Lemma notes_list_order_witness :
  exists listing,
    router_get Latin.lowercase (Query.mk JUndefined JUndefined JUndefined)
               [Samples.note_minutes; Samples.note_ideas] = Some listing
    /\ sublist [Samples.note_minutes; Samples.note_ideas]
               [Samples.note_minutes; Samples.note_ideas]
    /\ Permutation [Samples.note_minutes; Samples.note_ideas] (data listing)
    /\ StronglySorted no_later (data listing)
    /\ (forall k,
          List.filter (fun n => tie n k) (data listing)
          = List.filter (fun n => tie n k) [Samples.note_minutes; Samples.note_ideas])
    /\ total listing = length (data listing).
Proof.
  apply (notes_list_order Latin.lowercase (Query.mk JUndefined JUndefined JUndefined)
           [Samples.note_minutes; Samples.note_ideas]
           [Samples.note_minutes; Samples.note_ideas]).
  - reflexivity.
  - repeat (apply List.Forall_cons; [eexists; reflexivity|]). apply List.Forall_nil.
Defined.

(** *** Which notes are listed *)

Lemma note_stage_tag (v : JsValue) (l : list Note) :
  ListingSpec.text_or_absent v -> Forall well_kinded l ->
  exists r,
    (if truthy v then Todos.filter_with (fun n => includes (tags n) v) l else Some l)
    = Some r
    /\ incl r l
    /\ forall n, In n r <->
         In n l
         /\ (ListingSpec.supplied v -> exists elems, tags n = JArr elems /\ In v elems).
Proof.
  intros Hv Hl. rewrite Forall_forall in Hl.
  destruct (ListingFacts.stage_filter_with (truthy v) (fun n => includes (tags n) v) l)
    as (r & Heq & Hincl & Hin).
  { intros _ x Hx.
    destruct (Hl x (proj2 (list_elem_of_In _ _) Hx)) as (_ & _ & [elems ->]).
    simpl. eauto. }
  exists r. split; [exact Heq|]. split; [exact Hincl|].
  intros n. rewrite Hin. unfold ListingSpec.supplied.
  split; intros [Hn H]; (split; [exact Hn|]); intros Hs;
    destruct (Hl n (proj2 (list_elem_of_In _ _) Hn)) as (_ & _ & [elems He]);
    destruct Hv as [-> | [s ->]]; try discriminate Hs.
  - exists elems. split; [exact He|]. specialize (H Hs). rewrite He in H.
    apply ListingFacts.includes_array_text, H.
  - destruct (H Hs) as (elems' & He' & Hmem). rewrite He'.
    apply ListingFacts.includes_array_text, Hmem.
Qed.

Lemma note_stage_pinned (v : JsValue) (l : list Note) (n : Note) :
  In n (if negb (is_undefined v)
        then List.filter
               (fun n => strict_eq (isPinned n) (JBool (strict_eq v (JStr "true")))) l
        else l)
  <-> In n l /\ (v <> JUndefined -> isPinned n = JBool (ListingSpec.asks_completed v)).
Proof.
  rewrite ListingFacts.stage_filter, ListingFacts.strict_eq_JBool_r.
  unfold ListingSpec.asks_completed.
  destruct v; simpl; intuition (try discriminate; try congruence).
Qed.

Lemma note_hit_text (lowercase : string -> string) (s x y : string) (n : Note) :
  folds_basic_latin lowercase ->
  Latin.plain s -> Latin.plain x -> Latin.plain y ->
  title n = JStr x -> content n = JStr y ->
  search_hit lowercase (lowercase s) n = Some true
  <-> occurs_ignoring_case s x \/ occurs_ignoring_case s y.
Proof.
  intros Hfold Ps Px Py Hx Hy. unfold search_hit. rewrite Hx, Hy. simpl.
  rewrite (Hfold s Ps), (Hfold x Px), (Hfold y Py).
  rewrite <- !lowercase_includes_spec.
  destruct (str_includes (Latin.lowercase x) (Latin.lowercase s)); simpl.
  - split; auto.
  - split; [intros [= ->]; auto | intros [H|H]; [discriminate | congruence]].
Qed.

Lemma note_stage_search (lowercase : string -> string) (v : JsValue) (l : list Note) :
  folds_basic_latin lowercase ->
  ListingSpec.text_or_absent v -> plain_text v ->
  Forall well_kinded l -> Forall searchable l ->
  exists r,
    (if truthy v
     then searchLower ← toLowerCase lowercase v;
          Todos.filter_with (search_hit lowercase searchLower) l
     else Some l) = Some r
    /\ forall n, In n r <->
         In n l
         /\ (ListingSpec.supplied v ->
             exists s, v = JStr s
               /\ ((exists x, title n = JStr x /\ occurs_ignoring_case s x)
                   \/ (exists y, content n = JStr y /\ occurs_ignoring_case s y))).
Proof.
  intros Hfold Hv Hplain Hl Hsearch. rewrite Forall_forall in Hl, Hsearch.
  assert (Hkind : forall n, In n l ->
            exists x y, title n = JStr x /\ content n = JStr y
                        /\ Latin.plain x /\ Latin.plain y).
  { intros n Hn. apply list_elem_of_In in Hn.
    destruct (Hl n Hn) as ([x Hx] & [y Hy] & _). destruct (Hsearch n Hn) as [Px Py].
    exists x, y. auto. }
  destruct Hv as [-> | [s ->]].
  - exists l. split; [reflexivity|].
    intros n. pose proof ListingFacts.supplied_absent. tauto.
  - assert (Ps : Latin.plain s) by (apply Hplain; reflexivity).
    cbn [toLowerCase mbind option_bind].
    destruct (ListingFacts.stage_filter_with (truthy (JStr s))
                (search_hit lowercase (lowercase s)) l) as (r & Heq & _ & Hin).
    { intros _ n Hn. destruct (Hkind n Hn) as (x & y & Hx & Hy & _).
      unfold search_hit. rewrite Hx, Hy. simpl.
      destruct (str_includes (lowercase x) (lowercase s)); eauto. }
    exists r. split; [exact Heq|].
    intros n. rewrite Hin. unfold ListingSpec.supplied.
    split; intros [Hn H]; (split; [exact Hn|]); intros Hs;
      destruct (Hkind n Hn) as (x & y & Hx & Hy & Px & Py).
    + exists s. split; [reflexivity|].
      apply (note_hit_text lowercase s x y n Hfold Ps Px Py Hx Hy) in H; [|exact Hs].
      destruct H; [left | right]; eauto.
    + destruct (H Hs) as (s' & [= <-] & Hocc).
      apply (note_hit_text lowercase s x y n Hfold Ps Px Py Hx Hy).
      destruct Hocc as [(x' & Hx' & Ho) | (y' & Hy' & Ho)]; [left | right]; congruence.
Qed.

(** X20.  Which notes a list request returns.  The collection holds notes with the
    JSON kinds of [interface Note] ([title] and [content] strings, [tags] an
    array), the query parameters are strings, and the search text, the titles
    and the contents are text of the basic Latin block, on which
    [toLowerCase] folds the letters A to Z.  Then [GET /api/notes] replies,
    and a note is in the reply exactly when it is in the collection and
    satisfies every filter the query supplies: the tag among its [tags],
    [isPinned] equal to the boolean [pinned] asks for ([pinned === 'true']),
    and the search text occurring in its [title] or in its [content] up to
    the case of the letters.  [tag] and [search] supply a filter when they
    carry a non-empty value, [pinned] whenever it is present. *)
Theorem notes_list_filters (lowercase : string -> string) (q : Query.t)
        (notes : list Note) :
  folds_basic_latin lowercase ->
  plain_query q ->
  plain_text (Query.search q) ->
  Forall well_kinded notes ->
  Forall searchable notes ->
  exists listing,
    router_get lowercase q notes = Some listing
    /\ forall n, In n (data listing) <-> In n notes /\ satisfies q n.
Proof.
  intros Hfold (Q1 & Q2 & Q3) Hplain Hk Hs.
  destruct (note_stage_tag (Query.tag q) notes Q1 Hk) as (r1 & E1 & I1 & M1).
  set (r2 := if negb (is_undefined (Query.pinned q))
             then List.filter
                    (fun n => strict_eq (isPinned n)
                                (JBool (strict_eq (Query.pinned q) (JStr "true")))) r1
             else r1).
  assert (M2 : forall n, In n r2 <->
                 In n r1 /\ (Query.pinned q <> JUndefined ->
                             isPinned n = JBool (ListingSpec.asks_completed (Query.pinned q))))
    by (intros n; apply note_stage_pinned).
  assert (I2 : incl r2 notes).
  { intros n Hn. apply M2 in Hn. destruct Hn as [Hn _]. apply I1, Hn. }
  destruct (note_stage_search lowercase (Query.search q) r2 Hfold Q3 Hplain
              (incl_Forall I2 Hk) (incl_Forall I2 Hs)) as (r3 & E3 & M3).
  assert (Hf : apply_filters lowercase q notes = Some r3).
  { unfold apply_filters. rewrite E1. cbn [mbind option_bind]. exact E3. }
  exists {| data := isort (ListingSpec.leb_of compare) r3;
            total := length (isort (ListingSpec.leb_of compare) r3) |}.
  split.
  { unfold router_get. rewrite Hf. cbn [mbind option_bind].
    rewrite ListingFacts.sort_total; [reflexivity|].
    intros x y _ _. unfold compare.
    destruct (negb (strict_eq (isPinned x) (isPinned y))); eauto. }
  intros n. cbn [data].
  assert (Hperm : In n (isort (ListingSpec.leb_of compare) r3) <-> In n r3).
  { split; intros H.
    - eapply Permutation_in; [symmetry; apply isort_perm | exact H].
    - eapply Permutation_in; [apply isort_perm | exact H]. }
  rewrite Hperm, M3, M2, M1. unfold satisfies. tauto.
Qed.

Lemma notes_list_filters_witness :
  exists listing,
    router_get Latin.lowercase (Query.mk JUndefined (JStr "false") (JStr "MIN"))
               [Samples.note_minutes; Samples.note_ideas] = Some listing
    /\ forall n,
         In n (data listing) <->
         In n [Samples.note_minutes; Samples.note_ideas]
         /\ satisfies (Query.mk JUndefined (JStr "false") (JStr "MIN")) n.
Proof.
  apply (notes_list_filters Latin.lowercase
           (Query.mk JUndefined (JStr "false") (JStr "MIN"))
           [Samples.note_minutes; Samples.note_ideas]).
  - exact ListingFacts.latin_lowercase_folds.
  - unfold plain_query, ListingSpec.text_or_absent, ListingSpec.text. simpl.
    repeat split; eauto.
  - intros s [= <-]. apply plain_test. reflexivity.
  - repeat (apply List.Forall_cons;
            [unfold well_kinded; simpl; repeat split; eauto|]).
    apply List.Forall_nil.
  - repeat (apply List.Forall_cons;
            [split; intros s [= <-]; apply plain_test; reflexivity|]).
    apply List.Forall_nil.
Defined.

End NotesListFacts.

